(** * DoomSat telemetry hook: the Tier-0 recorder of [hook.py]

    A shallow embedding of the telemetry core of [src/hook.py]: the [clamp]
    helper, the weapon tables, the [T0] recorder (delta tracker, record
    builder, checksum, line sink and frame sink), the two step loops
    ([run_episode], [play_manual]) that drive it, the buttons and actions
    of a step ([make_action_map], [empty_action]) and the options of
    [main], followed by the properties the specification states about them
    and by further properties of the code.

    Conventions of the embedding.
    - Python [int] is [Z]. A finite Python [float] is the rational [Q] it
      stands for; the operations that round their result to a double ([+],
      [-], [*], [/] of floats), the text Python prints for a float
      ([float.__repr__]) and [math.hypot] are parameters, see [PyFloat];
      [int(_)], [max], [round(_, 2)] and the quotient [step/300.0], whose
      rounding never decides a result, are computed exactly. Infinities and
      NaN are not modelled.
    - Python [str] is [string], holding the UTF-8 encoding of the text: a
      code point below 128 is one character, [s.encode()] gives the
      characters themselves as bytes, and strings compare as their code
      points do; a lone surrogate, which a Python text may hold, is
      encoded as the other code points of its range are. Every string
      literal of the source is ASCII.
    - Python [bytes] is [list byte].
    - A Python [dict] is an association list in insertion order with unique
      keys; [dict_set] is item assignment.
    - File objects are named by their path; everything the recorder does to a
      file is an [io_event] appended to a trace, and an exception keeps the
      trace produced so far. The operating system is taken to carry out
      every file operation: an [OSError] of [open], [write], [flush] or
      [close], and an interrupt that arrives inside the recorder, are not
      modelled; the one exception of the model is the [struct.error] of a
      frame whose timestamp does not fit. *)

From Stdlib Require Import ZArith QArith Qround Qabs Lqa List String Ascii Strings.Byte Bool Lia
  Permutation Sorted OrderedTypeEx.
Import ListNotations.

Local Open Scope string_scope.
Local Open Scope list_scope.
Local Open Scope Z_scope.

Infix "+++" := String.append (right associativity, at level 60).

(** ** Utilities *)

(** [def clamp(v, lo, hi): return lo if v < lo else hi if v > hi else v] *)
Definition clamp (v lo hi : Z) : Z :=
  if v <? lo then lo else if v >? hi then hi else v.

(** Weapon slot to nominal damage; read with [NOMINAL_DMG.get(slot, 10)]. *)
Definition NOMINAL_DMG : list (Z * Z) :=
  [(2, 10); (3, 35); (4, 12); (5, 100); (6, 20); (7, 250)].

(** Weapon slot to name; read with [SLOT2NAME.get(slot, "PISTOL")]. *)
Definition SLOT2NAME : list (Z * string) :=
  [(2, "PISTOL"); (3, "SHOTGUN"); (4, "CHAINGUN"); (5, "ROCKET");
   (6, "PLASMA"); (7, "BFG")].

(** [d.get(k, dflt)] on a table keyed by weapon slot. *)
Fixpoint zdict_get {A : Type} (d : list (Z * A)) (k : Z) (dflt : A) : A :=
  match d with
  | [] => dflt
  | (k', v) :: d' => if k =? k' then v else zdict_get d' k dflt
  end.

(** ** Bytes and [struct.pack] *)

Definition byte_of_Z (z : Z) : byte :=
  match Byte.of_N (Z.to_N (z mod 256)) with
  | Some b => b
  | None => x00
  end.

Definition Z_of_byte (b : byte) : Z := Z.of_N (Byte.to_N b).

(** The [n] low-order bytes of [v], most significant first. *)
Fixpoint pack_be (n : nat) (v : Z) : list byte :=
  match n with
  | O => []
  | S k => byte_of_Z (v / 256 ^ Z.of_nat k) :: pack_be k v
  end.

(** Big-endian reading, as [struct.unpack] does for [I] and [H]. *)
Definition unpack_be (bs : list byte) : Z :=
  fold_left (fun acc b => acc * 256 + Z_of_byte b) bs 0.

(** Exceptions the modelled code can raise. *)
Inductive exn : Type :=
| StructError.   (* struct.error: argument out of range for its format *)

(** [struct.pack] of one big-endian unsigned field of [n] bytes: the value
    must fit, otherwise [struct.error]. *)
Definition pack_uint (n : nat) (v : Z) : exn + list byte :=
  if (0 <=? v) && (v <? 256 ^ Z.of_nat n) then inr (pack_be n v)
  else inl StructError.

(** [b"DSF0"] *)
Definition magic : list byte := [x44; x53; x46; x30].

(** [struct.pack(">4sIHHH", magic, now, h, a, kills)] *)
Definition struct_pack_4sIHHH (m : list byte) (now h a kills : Z)
  : exn + list byte :=
  match pack_uint 4 now with
  | inl e => inl e
  | inr bnow =>
    match pack_uint 2 h with
    | inl e => inl e
    | inr bh =>
      match pack_uint 2 a with
      | inl e => inl e
      | inr ba =>
        match pack_uint 2 kills with
        | inl e => inl e
        | inr bk => inr (m ++ bnow ++ bh ++ ba ++ bk)
        end
      end
    end
  end.

(** A decoded frame: tag, timestamp, health, armor, kills. *)
Record frame : Type := mkFrame {
  f_magic : list byte;
  f_time : Z;
  f_health : Z;
  f_armor : Z;
  f_kills : Z
}.

(** The reader's side of the frame format, [struct.unpack(">4sIHHH", pkt)]:
    defined only on a packet of exactly 14 bytes. *)
Definition unpack_frame (pkt : list byte) : option frame :=
  if (Nat.eqb (List.length pkt) 14) then
    Some (mkFrame (firstn 4 pkt)
                  (unpack_be (firstn 4 (skipn 4 pkt)))
                  (unpack_be (firstn 2 (skipn 8 pkt)))
                  (unpack_be (firstn 2 (skipn 10 pkt)))
                  (unpack_be (firstn 2 (skipn 12 pkt))))
  else None.

(** ** Files and effects *)

Inductive io_event : Type :=
| IoOpen (path : string)                      (* open(path, "ab") *)
| IoWrite (path : string) (data : list byte)  (* f.write(data) *)
| IoFlush (path : string)                     (* f.flush() *)
| IoClose (path : string).                    (* f.close() *)

Definition io_path (e : io_event) : string :=
  match e with
  | IoOpen p | IoWrite p _ | IoFlush p | IoClose p => p
  end.

(** A computation that appends to the trace of file operations and either
    returns a value or raises. *)
Definition io (A : Type) : Type := list io_event -> (exn + A) * list io_event.

Definition ret {A} (a : A) : io A := fun tr => (inr a, tr).
Definition raise {A} (e : exn) : io A := fun tr => (inl e, tr).
Definition bind {A B} (m : io A) (k : A -> io B) : io B :=
  fun tr =>
    match m tr with
    | (inl e, tr') => (inl e, tr')
    | (inr a, tr') => k a tr'
    end.
Definition emit (e : io_event) : io unit := fun tr => (inr tt, tr ++ [e]).

(** [try: body finally: cleanup]: the cleanup runs on both exits and an
    exception of the body is raised again after it. *)
Definition finally {A} (body : io A) (cleanup : io unit) : io A :=
  fun tr =>
    match body tr with
    | (inl e, tr') =>
      match cleanup tr' with
      | (inl e', tr'') => (inl e', tr'')
      | (inr _, tr'') => (inl e, tr'')
      end
    | (inr a, tr') =>
      match cleanup tr' with
      | (inl e', tr'') => (inl e', tr'')
      | (inr _, tr'') => (inr a, tr'')
      end
    end.

Declare Scope io_scope.
Delimit Scope io_scope with io.
Notation "x <- m ;; k" := (bind m (fun x => k))
  (at level 61, m at next level, right associativity) : io_scope.
Notation "m ;;; k" := (bind m (fun _ => k))
  (at level 61, right associativity) : io_scope.

(** Lifting of a [struct.pack] result. *)
Definition lift_exn {A} (r : exn + A) : io A :=
  match r with
  | inl e => raise e
  | inr a => ret a
  end.

(** The file operations of one sink, in the order of the trace. *)
Definition events_on (p : string) (tr : list io_event) : list io_event :=
  filter (fun e => String.eqb (io_path e) p) tr.

(** ** Records as JSON values *)

(** The values the recorder puts into a record: [int], [float], [str] and
    nested [dict]s with string keys. *)
#[warnings="-register-all"]
Inductive json : Type :=
| JInt (n : Z)
| JFloat (q : Q)
| JStr (s : string)
| JObj (members : list (string * json)).

Definition dict : Type := list (string * json).

(** [d.get(k)] *)
Fixpoint dict_get {V : Type} (d : list (string * V)) (k : string) : option V :=
  match d with
  | [] => None
  | (k', v) :: d' => if String.eqb k k' then Some v else dict_get d' k
  end.

(** [d.get(k, dflt)] *)
Definition dict_get_default {V : Type} (d : list (string * V)) (k : string)
           (dflt : V) : V :=
  match dict_get d k with
  | Some v => v
  | None => dflt
  end.

(** [d[k] = v]: an existing key keeps its place, a new key goes last. *)
Fixpoint dict_set {V : Type} (d : list (string * V)) (k : string) (v : V)
  : list (string * V) :=
  match d with
  | [] => [(k, v)]
  | (k', v') :: d' =>
    if String.eqb k k' then (k', v) :: d' else (k', v') :: dict_set d' k v
  end.

(** A dict display [{k1: v1, ..., **m, ...}] assigns its items left to
    right; [dict_of_items] is the display of the listed items and
    [dict_update d m] is what [**m] does inside one. *)
Definition dict_update (d m : dict) : dict :=
  fold_left (fun acc kv => dict_set acc (fst kv) (snd kv)) m d.

Definition dict_of_items (items : list (string * json)) : dict :=
  dict_update [] items.

Definition keys {V : Type} (d : list (string * V)) : list string := map fst d.

(** ** Text of numbers *)

(** The character of a digit [0 <= d < 16], lowercase. *)
Definition hex_digit (d : Z) : ascii :=
  if d <? 10 then ascii_of_N (Z.to_N (48 + d)) else ascii_of_N (Z.to_N (87 + d)).

(** Digits of [n >= 0] in base [b], most significant first, in front of
    [acc]; [fuel] bounds the number of digits. *)
Fixpoint digits_loop (b : Z) (fuel : nat) (n : Z) (acc : string) : string :=
  match fuel with
  | O => acc
  | S f =>
    let acc' := String (hex_digit (n mod b)) acc in
    if n / b =? 0 then acc' else digits_loop b f (n / b) acc'
  end.

Definition digits (b : Z) (n : Z) : string :=
  digits_loop b (S (Z.to_nat (Z.log2 n))) n "".

(** [int.__repr__] *)
Definition int_repr (n : Z) : string :=
  if n <? 0 then "-" +++ digits 10 (- n) else digits 10 n.

(** [s.rjust(w, "0")] *)
Definition zfill (w : nat) (s : string) : string :=
  string_of_list_ascii (repeat "0"%char (w - String.length s)) +++ s.

(** [f"{n:08x}"]: lowercase hexadecimal, zero-padded to a total width of at
    least 8, the sign (if any) in front of the padding. *)
Definition format_08x (n : Z) : string :=
  if n <? 0 then "-" +++ zfill 7 (digits 16 (- n)) else zfill 8 (digits 16 n).

(** ** [json.dumps] *)

(** The floats of the Python runtime. A finite double is the rational it
    stands for; what Python prints for it ([float.__repr__]), the
    Euclidean norm [math.hypot] and the four operations, which round their
    exact result to a double, are taken from the runtime. *)
Class PyFloat : Type := {
  float_repr : Q -> string;
  hypot : Q -> Q -> Q;
  fadd : Q -> Q -> Q;   (* x + y *)
  fsub : Q -> Q -> Q;   (* x - y *)
  fmul : Q -> Q -> Q;   (* x * y *)
  fdiv : Q -> Q -> Q    (* x / y *)
}.

(** An instance to run examples with: it prints the integer part of a
    float followed by [.0], measures distances in the 1-norm and does not
    round the results of the operations. *)
Definition sample_float : PyFloat := {|
  float_repr := fun q => int_repr (Qfloor q) +++ ".0";
  hypot := fun x y => (Qabs x + Qabs y)%Q;
  fadd := Qplus;
  fsub := Qminus;
  fmul := Qmult;
  fdiv := Qdiv
|}.

Definition quote_char : ascii := ascii_of_nat 34.
Definition backslash : ascii := ascii_of_nat 92.

(** [f"{n:04x}"] for [0 <= n < 0x10000]: four lowercase hexadecimal
    digits. *)
Definition hex4 (n : Z) : string :=
  string_of_list_ascii
    [hex_digit ((n / 4096) mod 16); hex_digit ((n / 256) mod 16);
     hex_digit ((n / 16) mod 16); hex_digit (n mod 16)].

(** A continuation byte of UTF-8. *)
Definition continuation (b : Z) : bool := (128 <=? b) && (b <? 192).

(** The code points of a text from the bytes of its UTF-8 encoding:
    sequences of one to four bytes, each in its shortest form, a surrogate
    encoded as any code point of its range. A byte that starts no such
    sequence stands for the code point of its own value. *)
Fixpoint utf8_decode (bs : list Z) : list Z :=
  match bs with
  | [] => []
  | b0 :: r0 =>
    if b0 <? 128 then b0 :: utf8_decode r0
    else
      match r0 with
      | [] => b0 :: utf8_decode r0
      | b1 :: r1 =>
        let c2 := (b0 - 192) * 64 + (b1 - 128) in
        if (192 <=? b0) && (b0 <? 224) && continuation b1 && (128 <=? c2)
        then c2 :: utf8_decode r1
        else
          match r1 with
          | [] => b0 :: utf8_decode r0
          | b2 :: r2 =>
            let c3 := (b0 - 224) * 4096 + (b1 - 128) * 64 + (b2 - 128) in
            if (224 <=? b0) && (b0 <? 240) && continuation b1
               && continuation b2 && (2048 <=? c3)
            then c3 :: utf8_decode r2
            else
              match r2 with
              | [] => b0 :: utf8_decode r0
              | b3 :: r3 =>
                let c4 := (b0 - 240) * 262144 + (b1 - 128) * 4096
                          + (b2 - 128) * 64 + (b3 - 128) in
                if (240 <=? b0) && (b0 <? 248) && continuation b1
                   && continuation b2 && continuation b3
                   && (65536 <=? c4) && (c4 <=? 1114111)
                then c4 :: utf8_decode r3
                else b0 :: utf8_decode r0
              end
          end
      end
  end.

(** The code points of a [str]. *)
Definition code_points (s : string) : list Z :=
  utf8_decode (map (fun c => Z.of_nat (nat_of_ascii c))
                   (list_ascii_of_string s)).

(** One code point of a string literal under [ensure_ascii=True]: the
    short escapes of [ESCAPE_DCT]; for every other code point outside
    [' '..'~'] a [\uxxxx] escape, or two of them (a surrogate pair) from
    [0x10000] on; the character itself otherwise. *)
Definition escape_char (n : Z) : string :=
  if n =? 34 then String backslash (String quote_char "")
  else if n =? 92 then String backslash (String backslash "")
  else if n =? 8 then String backslash "b"
  else if n =? 12 then String backslash "f"
  else if n =? 10 then String backslash "n"
  else if n =? 13 then String backslash "r"
  else if n =? 9 then String backslash "t"
  else if (n <? 32) || (126 <? n) then
    if n <? 65536 then String backslash ("u" +++ hex4 n)
    else
      let v := n - 65536 in
      let s1 := Z.lor 55296 (Z.land (Z.shiftr v 10) 1023) in
      let s2 := Z.lor 56320 (Z.land v 1023) in
      String backslash ("u" +++ hex4 s1)
      +++ String backslash ("u" +++ hex4 s2)
  else String (ascii_of_nat (Z.to_nat n)) "".

(** [json.encoder.encode_basestring_ascii] *)
Definition encode_basestring_ascii (s : string) : string :=
  String quote_char
    (String.concat "" (map escape_char (code_points s))
     +++ String quote_char "").

(** Insertion of an encoded item by key, in the code point order Python
    compares strings in. *)
Fixpoint insert_item {V : Type} (x : string * V) (l : list (string * V))
  : list (string * V) :=
  match l with
  | [] => [x]
  | y :: l' => if String.ltb (fst y) (fst x) then y :: insert_item x l'
               else x :: l
  end.

(** [sorted(items)] for items with distinct keys. *)
Definition sort_items {V : Type} (l : list (string * V)) : list (string * V) :=
  fold_right insert_item [] l.

Section Dumps.
Context `{PyFloat}.

(** [json.dumps(v, separators=(item_sep, key_sep), sort_keys=sort_keys)].
    The members of an object are encoded first and, under [sort_keys],
    ordered by key afterwards: the order depends on the keys only. *)
Fixpoint json_dumps (item_sep key_sep : string) (sort_keys : bool)
         (v : json) : string :=
  match v with
  | JInt n => int_repr n
  | JFloat q => float_repr q
  | JStr s => encode_basestring_ascii s
  | JObj ms =>
    let items :=
      (fix encode_members (ms : list (string * json)) :=
         match ms with
         | [] => []
         | (k, x) :: r =>
           (k, json_dumps item_sep key_sep sort_keys x) :: encode_members r
         end) ms in
    let items := if sort_keys then sort_items items else items in
    "{" +++ String.concat item_sep
             (map (fun kv => encode_basestring_ascii (fst kv) +++ key_sep
                             +++ snd kv) items)
        +++ "}"
  end.

(** [json.dumps(rec, separators=(",", ":"), sort_keys=True)] *)
Definition dumps_canonical (v : json) : string := json_dumps "," ":" true v.

(** [json.dumps(rec)] with the default separators, insertion order. *)
Definition dumps_default (v : json) : string := json_dumps ", " ": " false v.
End Dumps.

(** ** [str.encode] and [zlib.crc32] *)

(** [s.encode()]: the UTF-8 bytes of the text, which the string holds. *)
Definition str_encode (s : string) : list byte :=
  map (fun c => byte_of_Z (Z.of_nat (nat_of_ascii c)))
      (list_ascii_of_string s).

(** One bit of the reflected CRC-32 division, polynomial [0xEDB88320]. *)
Definition crc_bit (c : Z) : Z :=
  if Z.testbit c 0 then Z.lxor (Z.shiftr c 1) 0xEDB88320 else Z.shiftr c 1.

Definition crc_byte (c : Z) (b : byte) : Z :=
  Nat.iter 8 crc_bit (Z.lxor c (Z_of_byte b)).

(** [zlib.crc32(data)]: the CRC-32 of zlib, gzip and PNG, initial value and
    final complement [0xFFFFFFFF]. *)
Definition zlib_crc32 (data : list byte) : Z :=
  Z.lxor (fold_left crc_byte data 0xFFFFFFFF) 0xFFFFFFFF.



Section Checksum.
Context `{PyFloat}.

(** [f"{zlib.crc32(json.dumps(rec, separators=(",", ":"),
    sort_keys=True).encode()) & 0xffffffff:08x}"] *)
Definition checksum (rec : dict) : string :=
  format_08x (Z.land (zlib_crc32 (str_encode (dumps_canonical (JObj rec))))
                     0xffffffff).

(** [rec["crc32c"] = checksum(rec)]: computed first, attached after. *)
Definition attach_crc (rec : dict) : dict :=
  dict_set rec "crc32c" (JStr (checksum rec)).
End Checksum.

(** ** Floats that the recorder computes with *)

(** [int(x)] of a float: truncation toward zero. *)
Definition py_int (q : Q) : Z := Z.quot (Qnum q) (Zpos (Qden q)).

(** [max(a, b)] of two numbers: [b] when [b > a], otherwise [a]. *)
Definition py_max (a b : Q) : Q := if Qle_bool b a then a else b.

(** Rounding to the nearest integer, ties to the even one. *)
Definition round_half_even (q : Q) : Z :=
  let f := Qfloor q in
  let r := (q - inject_Z f)%Q in
  match (r ?= 1 # 2)%Q with
  | Lt => f
  | Gt => f + 1
  | Eq => if Z.even f then f else f + 1
  end.

(** [round(x, 2)] of a float. *)
Definition py_round2 (q : Q) : Q :=
  (inject_Z (round_half_even (q * 100)) / 100)%Q.

(** ** The engine as the recorder sees it *)

(** One reading of the game variables. [HEALTH] is [int(g.get_game_variable(
    GameVariable.HEALTH))]; an optional variable is [None] when
    [hasattr(GameVariable, ...)] is false. *)
Record game_vars : Type := mkVars {
  HEALTH : Z;
  ARMOR : option Z;
  KILLCOUNT : option Z;
  POSITION_X : option Q;
  POSITION_Y : option Q;
  ANGLE : option Q;
  SELECTED_WEAPON : option Z
}.

Definition or_default {A : Type} (o : option A) (dflt : A) : A :=
  match o with
  | Some a => a
  | None => dflt
  end.

(** [selected_weapon_slot(g)] *)
Definition selected_weapon_slot (g : game_vars) : Z :=
  or_default (SELECTED_WEAPON g) 2.

(** ** The recorder [T0] *)

(** The two sinks (an open file is named by its path, [None] is a disabled
    sink) and the baseline of the delta tracker. *)
Record T0 : Type := mkT0 {
  jsonl : option string;
  fbin : option string;
  prev_health : option Z;
  prev_dmg_out : Z;
  prev_kills : Z
}.

(** [open(path, "ab") if path else None]: no path and the empty path both
    leave the sink disabled. *)
Definition open_sink (path : option string) : io (option string) :=
  match path with
  | None => ret None
  | Some "" => ret None
  | Some p => (emit (IoOpen p) ;;; ret (Some p))%io
  end.

(** [T0.__init__] *)
Definition T0_init (jsonl_path fprime_path : option string) : io T0 :=
  (j <- open_sink jsonl_path ;;
   f <- open_sink fprime_path ;;
   ret (mkT0 j f None 0 0))%io.

Definition close_sink (h : option string) : io unit :=
  match h with
  | None => ret tt
  | Some p => emit (IoClose p)
  end.

(** [T0.close] *)
Definition T0_close (t : T0) : io unit :=
  (close_sink (jsonl t) ;;; close_sink (fbin t))%io.

(** The deltas section of [write_jsonl]: [(dmg_in_delta, dmg_out_delta,
    kills_delta)] against the stored baseline. *)
Definition deltas (t : T0) (h dmg_out_total kills : Z) : Z * Z * Z :=
  let dmg_in_delta :=
    match prev_health t with
    | None => 0
    | Some ph => Z.max 0 (ph - h)
    end in
  let dmg_out_delta := Z.max 0 (dmg_out_total - prev_dmg_out t) in
  let kills_delta := Z.max 0 (kills - prev_kills t) in
  (dmg_in_delta, dmg_out_delta, kills_delta).

(** The three assignments that follow: the current values become the
    baseline; the sinks are untouched. *)
Definition store_baseline (t : T0) (h dmg_out_total kills : Z) : T0 :=
  mkT0 (jsonl t) (fbin t) (Some h) dmg_out_total kills.

(** A dict of counters as a JSON object. *)
Definition counters (c : list (string * Z)) : json :=
  JObj (map (fun kv => (fst kv, JInt (snd kv))) c).

Definition zeros (ks : list string) : json :=
  JObj (map (fun k => (k, JInt 0)) ks).

(** The dict display [rec = {...}] of [write_jsonl], before the checksum. *)
Definition tick_record `{PyFloat} (base_meta : dict) (now : Q)
           (g : game_vars) (d : Z * Z * Z) (ammo_used : list (string * Z))
           (step : Z) : dict :=
  let '(dmg_in_delta, dmg_out_delta, kills_delta) := d in
  dict_update
    (dict_update
       (dict_of_items
          [("type", JStr "tier0_telemetry");
           ("schema", JStr "v1");
           ("unix_time", JInt (py_int now));
           ("unix_time_ms", JInt (py_int (fmul now 1000)));
           ("step", JInt step)])
       base_meta)
    [("level", dict_get_default base_meta "level_start" (JStr "E1M1"));
     ("health", JInt (HEALTH g));
     ("armor", JInt (or_default (ARMOR g) 0));
     ("selected_weapon", JInt (or_default (SELECTED_WEAPON g) 2));
     ("pose", JObj [("x", JFloat (or_default (POSITION_X g) 0%Q));
                    ("y", JFloat (or_default (POSITION_Y g) 0%Q));
                    ("yaw_deg", JFloat (or_default (ANGLE g) 0%Q))]);
     ("keys", zeros ["red"; "blue"; "yellow"]);
     ("secrets_found", JInt 0);
     ("resources", JObj [("ammo_used", counters ammo_used);
                         ("medkits_used", JInt 0);
                         ("armor_picked", JInt 0)]);
     ("combat", JObj [("dmg_in_delta", JInt dmg_in_delta);
                      ("dmg_out_delta", JInt dmg_out_delta);
                      ("kills_delta", JInt kills_delta)]);
     ("performance", zeros ["avg_fps"; "avg_frame_ms"; "cpu_pct"; "rss_mb";
                            "gc_events"]);
     ("faults", zeros ["ecc_corrected"; "bitflips_injected";
                       "watchdog_resets"]);
     ("outcome", JStr "ALIVE")].

Section Recorder.
Context `{PyFloat}.

(** The line [write_jsonl] appends: [(json.dumps(rec) + "\n").encode()]. *)
Definition jsonl_line (rec : dict) : list byte :=
  str_encode (dumps_default (JObj rec) +++ String (ascii_of_nat 10) "").

(** [T0.write_jsonl(base_meta, g, dmg_out_total, ammo_used, step)]; [now]
    is what [time.time()] returns. The updated recorder is returned. *)
Definition write_jsonl (t : T0) (base_meta : dict) (now : Q) (g : game_vars)
           (dmg_out_total : Z) (ammo_used : list (string * Z)) (step : Z)
  : io T0 :=
  let h := HEALTH g in
  let kills := or_default (KILLCOUNT g) 0 in
  let d := deltas t h dmg_out_total kills in
  let t' := store_baseline t h dmg_out_total kills in
  let rec := attach_crc (tick_record base_meta now g d ammo_used step) in
  match jsonl t' with
  | Some f =>
    (emit (IoWrite f (jsonl_line rec)) ;;; emit (IoFlush f) ;;; ret t')%io
  | None => ret t'
  end.
End Recorder.

(** [T0.write_fprime(g)]; [now] is what [time.time()] returns. *)
Definition write_fprime (t : T0) (now : Q) (g : game_vars) : io unit :=
  match fbin t with
  | None => ret tt
  | Some f =>
    (pkt <- lift_exn (struct_pack_4sIHHH magic (py_int now)
                        (clamp (HEALTH g) 0 65535)
                        (clamp (or_default (ARMOR g) 0) 0 65535)
                        (clamp (or_default (KILLCOUNT g) 0) 0 65535)) ;;
     emit (IoWrite f pkt) ;;; emit (IoFlush f))%io
  end.

(** ** The step loops *)

(** What one iteration of a step loop gets from its surroundings. Console
    commands sent to the engine (debug aids, weapon selection) act on the
    engine only; their effect is in the readings. *)
Record tick : Type := mkTick {
  episode_finished : bool;  (* g.is_episode_finished() at the loop head *)
  attack_pressed : bool;    (* manual play: SPACE or the left mouse button *)
  quit_requested : bool;    (* manual play: a QUIT or ESCAPE event *)
  vars : game_vars;         (* the game variables after g.make_action *)
  clock_jsonl : Q;          (* time.time() inside write_jsonl *)
  clock_fprime : Q          (* time.time() inside write_fprime *)
}.

(** The command-line options the loops read, and the engine's buttons. *)
Record run_config : Type := mkConfig {
  steps : Z;
  slow_ms : Z;
  t0_every : Z;
  t0_jsonl : option string;
  fprime_frames : option string;
  auto_restart : bool;
  buttons : list string     (* names of g.get_available_buttons() *)
}.

(** The local variables of a loop. *)
Record loop_state : Type := mkLoop {
  step : Z;
  dmg_out_total : Z;
  ammo_used : list (string * Z);
  path_len : Q;
  last_pos : option (Q * Q);
  t0 : T0
}.

(** [name in amap] *)
Definition has_button (cfg : run_config) (name : string) : bool :=
  existsb (String.eqb name) (buttons cfg).

(** [{k: 0 for k in ["PISTOL", ...]}] *)
Definition ammo_zero : list (string * Z) :=
  map (fun k => (k, 0))
      ["PISTOL"; "SHOTGUN"; "CHAINGUN"; "ROCKET"; "PLASMA"; "BFG"].

(** The bookkeeping of one shot: the ammunition counter of the selected
    weapon and the nominal damage dealt. *)
Definition count_attack (g : game_vars) (s : loop_state) : loop_state :=
  let slot := selected_weapon_slot g in
  let name := zdict_get SLOT2NAME slot "PISTOL" in
  mkLoop (step s)
         (dmg_out_total s + zdict_get NOMINAL_DMG slot 10)
         (dict_set (ammo_used s) name
                   (dict_get_default (ammo_used s) name 0 + 1))
         (path_len s) (last_pos s) (t0 s).

(** [t0_every and step % t0_every == 0] *)
Definition cadence_hit (every st : Z) : bool :=
  negb (every =? 0) && (st mod every =? 0).

Section Loops.
Context `{PyFloat}.

(** The recording of one step: [t0.write_jsonl(...); t0.write_fprime(g)]
    when the cadence is hit. *)
Definition record_step (cfg : run_config) (meta : dict) (tk : tick)
           (s : loop_state) : io loop_state :=
  if cadence_hit (t0_every cfg) (step s) then
    (t' <- write_jsonl (t0 s) meta (clock_jsonl tk) (vars tk)
                       (dmg_out_total s) (ammo_used s) (step s) ;;
     write_fprime t' (clock_fprime tk) (vars tk) ;;;
     ret (mkLoop (step s) (dmg_out_total s) (ammo_used s) (path_len s)
                 (last_pos s) t'))%io
  else ret s.

(** The path length accumulated from successive positions. *)
Definition track_path (g : game_vars) (s : loop_state) : loop_state :=
  match POSITION_X g with
  | None => s
  | Some x =>
    let y := or_default (POSITION_Y g) 0%Q in
    let len :=
      match last_pos s with
      | None => path_len s
      | Some (lx, ly) => fadd (path_len s) (hypot (fsub x lx) (fsub y ly))
      end in
    mkLoop (step s) (dmg_out_total s) (ammo_used s) len (Some (x, y)) (t0 s)
  end.

Definition meta_episode : dict :=
  dict_of_items
    [("run_id", JStr "42"); ("episode_id", JStr "7");
     ("algo_id", JStr "linear-policy"); ("git", JStr "a1b2c3d");
     ("rng_seed", JInt 123456); ("level_start", JStr "E1M1")].

Definition meta_manual : dict :=
  dict_of_items
    [("run_id", JStr "42"); ("episode_id", JStr "manual");
     ("algo_id", JStr "manual"); ("git", JStr "a1b2c3d");
     ("rng_seed", JInt 123456); ("level_start", JStr "E1M1")].

(** The [while] loop of [run_episode], one iteration for each element of
    the engine's answers; when they run out the loop is interrupted
    ([KeyboardInterrupt], which the caller passes over). *)
Fixpoint episode_loop (cfg : run_config) (ticks : list tick)
         (s : loop_state) : io loop_state :=
  match ticks with
  | [] => ret s
  | tk :: rest =>
    if episode_finished tk then ret s
    else if negb (steps cfg =? 0) && (step s >=? steps cfg) then ret s
    else
      let s1 := mkLoop (step s + 1) (dmg_out_total s) (ammo_used s)
                       (path_len s) (last_pos s) (t0 s) in
      let s2 := track_path (vars tk) s1 in
      let s3 := if has_button cfg "ATTACK" then count_attack (vars tk) s2
                else s2 in
      (s4 <- record_step cfg meta_episode tk s3 ;;
       episode_loop cfg rest s4)%io
  end.

(** The [while True] loop of [play_manual]. A quit event raises
    [KeyboardInterrupt] after the step counter was advanced and before
    the action is made. *)
Fixpoint manual_loop (cfg : run_config) (ticks : list tick)
         (s : loop_state) : io loop_state :=
  match ticks with
  | [] => ret s
  | tk :: rest =>
    if episode_finished tk && negb (auto_restart cfg) then ret s
    else if negb (steps cfg =? 0) && (step s >=? steps cfg) then ret s
    else
      let s1 := mkLoop (step s + 1) (dmg_out_total s) (ammo_used s)
                       (path_len s) (last_pos s) (t0 s) in
      if quit_requested tk then ret s1
      else
        let s2 := if has_button cfg "ATTACK" && attack_pressed tk
                  then count_attack (vars tk) s1 else s1 in
        (s3 <- record_step cfg meta_manual tk s2 ;;
         manual_loop cfg rest s3)%io
  end.

Definition loop_start (t : T0) : loop_state :=
  mkLoop 0 0 ammo_zero 0%Q None t.

(** [random.choice(seq)]: the element at an index below [len(seq)],
    obtained from a draw of the generator. *)
Definition random_choice (seq : list Z) (draw : nat) : Z :=
  nth (draw mod List.length seq)%nat seq 0.

(** [round(max(0.01, step/300.0), 2)] *)
Definition duration_s (st : Z) : Q :=
  py_round2 (py_max (1 # 100) (inject_Z st / 300)).

(** The dict display [summary = {...}] of [run_episode]. *)
Definition episode_summary (cfg : run_config) (s : loop_state) (now : Q)
           (draw : nat) : dict :=
  dict_of_items
    [("type", JStr "episode_summary"); ("schema", JStr "v1");
     ("unix_time", JInt (py_int now));
     ("run_id", JStr "42"); ("episode_id", JStr "7");
     ("algo_id", JStr "linear-policy"); ("git", JStr "a1b2c3d");
     ("rng_seed", JInt 123456);
     ("level_start", JStr "E1M1"); ("levels_completed", JInt 1);
     ("result", JStr "UNKNOWN");
     ("duration_s", JFloat (duration_s (step s)));
     ("deaths", JInt 0);
     ("damage", JObj [("taken_total",
                       JInt (random_choice [60; 72; 84; 90; 96] draw));
                      ("dealt_total", JInt (dmg_out_total s));
                      ("dealt_by_enemy", JObj [])]);
     ("resources", JObj [("ammo_used", counters (ammo_used s));
                         ("medkits_used", JInt 0);
                         ("armor_picked", JInt 0)]);
     ("efficiency", JObj [("dmg_per_ammo", JObj []);
                          ("strong_targeting_pct", JFloat 0);
                          ("overkill_pct", JFloat 0)]);
     ("performance",
      JObj [("avg_fps",
             JFloat (if slow_ms cfg =? 0 then 300%Q
                     else py_round2
                            (fdiv 1000 (py_max 1 (inject_Z (slow_ms cfg))))));
            ("avg_frame_ms",
             if slow_ms cfg =? 0 then JFloat (7 # 2)
             else JInt (slow_ms cfg));
            ("cpu_pct", JInt 0); ("rss_mb", JInt 0); ("gc_events", JInt 0)]);
     ("faults", zeros ["ecc_corrected"; "bitflips_injected";
                       "watchdog_resets"]);
     ("nav", JObj [("path_len_m", JFloat (py_round2 (path_len s)));
                   ("backtrack_pct", JFloat 0);
                   ("stuck_events", JInt 0)]);
     ("kills", JInt 0)].

(** [run_episode]: the recorder is opened, the loop runs, the recorder is
    closed on every exit, and the summary with its checksum is the
    result (the source prints it). [now] and [draw] are [time.time()]
    and the random draw at the end of the episode. *)
Definition run_episode (cfg : run_config) (ticks : list tick) (now : Q)
           (draw : nat) : io dict :=
  (t <- T0_init (t0_jsonl cfg) (fprime_frames cfg) ;;
   s <- finally (episode_loop cfg ticks (loop_start t)) (T0_close t) ;;
   ret (attach_crc (episode_summary cfg s now draw)))%io.

(** [play_manual]: the result is the step count of the
    [manual_session_done] message. *)
Definition play_manual (cfg : run_config) (ticks : list tick) : io Z :=
  (t <- T0_init (t0_jsonl cfg) (fprime_frames cfg) ;;
   s <- finally (manual_loop cfg ticks (loop_start t)) (T0_close t) ;;
   ret (step s))%io.
End Loops.

(** ** Buttons and actions *)

(** [ensure_movement_buttons]: the buttons of the game after the call,
    from those the scenario's config gave it; [set_available_buttons]
    replaces them. *)
Definition movement_buttons : list string :=
  ["TURN_LEFT"; "TURN_RIGHT"; "MOVE_FORWARD"; "MOVE_BACKWARD";
   "MOVE_LEFT"; "MOVE_RIGHT"; "ATTACK"].

Definition ensure_movement_buttons (available : list string) (enable : bool)
  : list string :=
  if negb enable then available else movement_buttons.

(** [enumerate(names)] *)
Definition enumerate {A : Type} (l : list A) : list (nat * A) :=
  combine (seq 0 (List.length l)) l.

(** [make_action_map]: [idx = {name: i for i, name in enumerate(names)}]
    and the names. *)
Definition make_action_map (buttons : list string)
  : list (string * nat) * list string :=
  let names := buttons in
  let idx := fold_left (fun acc ix => dict_set acc (snd ix) (fst ix))
                       (enumerate names) [] in
  (idx, names).

(** [[0] * n] *)
Definition empty_action (n : nat) : list Z := repeat 0 n.

(** [k in d] *)
Definition dict_mem {V : Type} (d : list (string * V)) (k : string) : bool :=
  match dict_get d k with
  | Some _ => true
  | None => false
  end.

(** [l[i] = v] for an index that is not negative; [None] stands for
    [IndexError]. *)
Fixpoint list_assign (l : list Z) (i : nat) (v : Z) : option (list Z) :=
  match l, i with
  | [], _ => None
  | _ :: t, O => Some (v :: t)
  | x :: t, S j =>
    match list_assign t j v with
    | Some t' => Some (x :: t')
    | None => None
    end
  end.

(** [action[amap[name]] = 1]; [None] stands for [KeyError] and
    [IndexError]. *)
Definition assign_button (amap : list (string * nat)) (name : string)
           (action : list Z) : option (list Z) :=
  match dict_get amap name with
  | Some i => list_assign action i 1
  | None => None
  end.

(** [if name in amap and cond: action[amap[name]] = 1] *)
Definition press (amap : list (string * nat)) (name : string) (cond : bool)
           (action : list Z) : option (list Z) :=
  if dict_mem amap name && cond then assign_button amap name action
  else Some action.

(** The action of one step of [run_episode]; [phase_negative] is
    [phase < 0] for the sine of the sweep. *)
Definition scripted_action (amap : list (string * nat)) (names : list string)
           (phase_negative : bool) : option (list Z) :=
  let action := empty_action (List.length names) in
  match (if dict_mem amap "TURN_LEFT" && dict_mem amap "TURN_RIGHT"
         then if phase_negative then assign_button amap "TURN_LEFT" action
              else assign_button amap "TURN_RIGHT" action
         else Some action) with
  | None => None
  | Some a1 =>
    match press amap "MOVE_FORWARD" true a1 with
    | None => None
    | Some a2 => press amap "ATTACK" true a2
    end
  end.

(** What [pygame] reports of the keyboard and the mouse at one step of
    [play_manual]. *)
Record key_state : Type := mkKeys {
  K_w : bool; K_UP : bool; K_s : bool; K_DOWN : bool;
  K_a : bool; K_d : bool; K_LEFT : bool; K_RIGHT : bool;
  K_SPACE : bool; mouse_left : bool
}.

(** The action of one step of [play_manual]. *)
Definition manual_action (amap : list (string * nat)) (names : list string)
           (keys : key_state) : option (list Z) :=
  let action := empty_action (List.length names) in
  match press amap "MOVE_FORWARD" (K_w keys || K_UP keys) action with
  | None => None
  | Some a1 =>
  match press amap "MOVE_BACKWARD" (K_s keys || K_DOWN keys) a1 with
  | None => None
  | Some a2 =>
  match press amap "MOVE_LEFT" (K_a keys) a2 with
  | None => None
  | Some a3 =>
  match press amap "MOVE_RIGHT" (K_d keys) a3 with
  | None => None
  | Some a4 =>
  match press amap "TURN_LEFT" (K_LEFT keys) a4 with
  | None => None
  | Some a5 =>
  match press amap "TURN_RIGHT" (K_RIGHT keys) a5 with
  | None => None
  | Some a6 =>
    press amap "ATTACK" (K_SPACE keys || mouse_left keys) a6
  end end end end end end.

(** ["ATTACK" in amap and action[amap["ATTACK"]]], the test before the
    bookkeeping of a shot; [None] stands for [IndexError]. *)
Definition attack_fired (amap : list (string * nat)) (action : list Z)
  : option bool :=
  match dict_get amap "ATTACK" with
  | None => Some false
  | Some i =>
    match nth_error action i with
    | Some v => Some (negb (v =? 0))
    | None => None
    end
  end.

(** ** The command line *)

(** The options of [argparse] that reach the recorder and the loops. *)
Record cli_args : Type := mkArgs {
  args_manual : bool;
  args_steps : Z;
  args_slow_ms : Z;
  args_force_movement : bool;
  args_episode_seconds : option Q;
  args_auto_restart : bool;
  args_t0_every : Z;
  args_t0_sink : string;
  args_t0_jsonl : string;
  args_fprime_frames : option string
}.

(** The defaults of the parser. *)
Definition default_args : cli_args :=
  mkArgs false 0 0 false None false 0 "file" "t0.jsonl" None.



(** [args.t0_jsonl if (args.t0_every and args.t0_sink == "file") else None] *)
Definition main_t0_jsonl (args : cli_args) : option string :=
  if negb (args_t0_every args =? 0) && String.eqb (args_t0_sink args) "file"
  then Some (args_t0_jsonl args) else None.

(** The options as the loops read them, for a game whose scenario gives
    the buttons [scenario_buttons]. *)
Definition main_config (args : cli_args) (scenario_buttons : list string)
  : run_config :=
  mkConfig (args_steps args) (args_slow_ms args) (args_t0_every args)
           (main_t0_jsonl args) (args_fprime_frames args)
           (args_auto_restart args)
           (snd (make_action_map
                   (ensure_movement_buttons scenario_buttons
                                            (args_force_movement args)))).

Section Main.
Context `{PyFloat}.

(** [main]: manual play or the scripted episode; the result is what the
    chosen function prints at its end. *)
Definition main (args : cli_args) (scenario_buttons : list string)
           (ticks : list tick) (now : Q) (draw : nat) : io (Z + dict) :=
  let cfg := main_config args scenario_buttons in
  if args_manual args then
    (r <- play_manual cfg ticks ;; ret (inl r))%io
  else
    (summary <- run_episode cfg ticks now draw ;; ret (inr summary))%io.
End Main.


(** * Vocabulary of the properties

    Definitions the statements below are written with: runs of the
    recorder over sequences of calls, the events a run leaves in a trace,
    and the shapes of records and of their text. *)

Section Vocabulary.
Context `{PyFloat}.

(** The frame [write_fprime] builds for a timestamp and a reading. *)
Definition frame_bytes (now : Z) (g : game_vars) : list byte :=
  magic ++ pack_be 4 now
        ++ pack_be 2 (clamp (HEALTH g) 0 65535)
        ++ pack_be 2 (clamp (or_default (ARMOR g) 0) 0 65535)
        ++ pack_be 2 (clamp (or_default (KILLCOUNT g) 0) 0 65535).

(** The reading [write_jsonl] feeds to the tracker: health, cumulative
    damage dealt, cumulative kills. *)
Definition reading (g : game_vars) (dmg_out_total : Z) : Z * Z * Z :=
  (HEALTH g, dmg_out_total, or_default (KILLCOUNT g) 0).

(** The baseline as a triple, [None] before the first call. *)
Definition baseline (t : T0) : option Z * Z * Z :=
  (prev_health t, prev_dmg_out t, prev_kills t).

(** One call of [write_jsonl] by its arguments other than the recorder and
    the session metadata. *)
Record call : Type := mkCall {
  c_now : Q;
  c_vars : game_vars;
  c_dmg_out_total : Z;
  c_ammo_used : list (string * Z);
  c_step : Z
}.

Definition call_reading (c : call) : Z * Z * Z :=
  reading (c_vars c) (c_dmg_out_total c).

(** The delta section of [write_jsonl] over a sequence of readings: the
    deltas of every call, and the recorder after the last one. *)
Fixpoint tracker_run (t : T0) (rs : list (Z * Z * Z)) : list (Z * Z * Z) * T0 :=
  match rs with
  | [] => ([], t)
  | (h, d, k) :: rest =>
    let (ds, t') := tracker_run (store_baseline t h d k) rest in
    (deltas t h d k :: ds, t')
  end.

(** A sequence of calls of [write_jsonl] on one recorder. *)
Fixpoint write_calls (t : T0) (meta : dict) (cs : list call) : io T0 :=
  match cs with
  | [] => ret t
  | c :: rest =>
    (t' <- write_jsonl t meta (c_now c) (c_vars c) (c_dmg_out_total c)
                       (c_ammo_used c) (c_step c) ;;
     write_calls t' meta rest)%io
  end.

(** What a call with deltas [d] appends to the line sink [j]. *)
Definition line_events (j : option string) (meta : dict)
           (cd : call * (Z * Z * Z)) : list io_event :=
  match j with
  | Some f =>
    [IoWrite f (jsonl_line
                  (attach_crc (tick_record meta (c_now (fst cd))
                                 (c_vars (fst cd)) (snd cd)
                                 (c_ammo_used (fst cd)) (c_step (fst cd)))));
     IoFlush f]
  | None => []
  end.

(** A timestamp that fits the 4-byte field of a frame. *)
Definition frame_clock_ok (tk : tick) : Prop :=
  0 <= py_int (clock_fprime tk) < 2 ^ 32.

(** The arguments [record_step] calls [write_jsonl] with. *)
Definition call_of (tk : tick) (s : loop_state) : call :=
  mkCall (clock_jsonl tk) (vars tk) (dmg_out_total s) (ammo_used s) (step s).

(** What a call of [write_fprime] appends to the frame sink [f]. *)
Definition frame_events (f : option string) (tk : tick) : list io_event :=
  match f with
  | Some p => [IoWrite p (frame_bytes (py_int (clock_fprime tk)) (vars tk));
               IoFlush p]
  | None => []
  end.

(** The loop state with another recorder. *)
Definition with_t0 (s : loop_state) (t : T0) : loop_state :=
  mkLoop (step s) (dmg_out_total s) (ammo_used s) (path_len s) (last_pos s) t.

(** [a; a + 1; ...], [n] numbers. *)
Fixpoint zrange (a : Z) (n : nat) : list Z :=
  match n with
  | O => []
  | S m => a :: zrange (a + 1) m
  end.

(** The number of iterations the loop of [run_episode] makes when the step
    counter is [st] at its head. *)
Fixpoint episode_iterations (cfg : run_config) (ticks : list tick) (st : Z)
  : nat :=
  match ticks with
  | [] => O
  | tk :: rest =>
    if episode_finished tk then O
    else if negb (steps cfg =? 0) && (st >=? steps cfg) then O
    else S (episode_iterations cfg rest (st + 1))
  end.

(** The number of iterations of the loop of [play_manual] that reach
    [g.make_action]. *)
Fixpoint manual_iterations (cfg : run_config) (ticks : list tick) (st : Z)
  : nat :=
  match ticks with
  | [] => O
  | tk :: rest =>
    if episode_finished tk && negb (auto_restart cfg) then O
    else if negb (steps cfg =? 0) && (st >=? steps cfg) then O
    else if quit_requested tk then O
    else S (manual_iterations cfg rest (st + 1))
  end.

(** The step counter [play_manual] reports: a quit event advances it
    once more. *)
Fixpoint manual_final_step (cfg : run_config) (ticks : list tick) (st : Z)
  : Z :=
  match ticks with
  | [] => st
  | tk :: rest =>
    if episode_finished tk && negb (auto_restart cfg) then st
    else if negb (steps cfg =? 0) && (st >=? steps cfg) then st
    else if quit_requested tk then st + 1
    else manual_final_step cfg rest (st + 1)
  end.

(** What one recording appends: the line, then the frame. *)
Definition emission_events `{PyFloat} (j f : option string) (meta : dict)
           (e : call * tick * (Z * Z * Z)) : list io_event :=
  line_events j meta (fst (fst e), snd e) ++ frame_events f (snd (fst e)).

(** A recorded call [x] of a loop that entered with step counter [st] was
    made at a later step, with the readings and the clock of the tick of
    that step. *)
Definition made_at (ticks : list tick) (st : Z) (x : call * tick) : Prop :=
  st < c_step (fst x)
  /\ nth_error ticks (Z.to_nat (c_step (fst x) - st - 1)) = Some (snd x)
  /\ c_vars (fst x) = vars (snd x)
  /\ c_now (fst x) = clock_jsonl (snd x).

(** The shape of a loop run from the state [s]: the recorded calls with
    their ticks, the trace, the recorder and the step counter at the
    end, and the steps at which the calls were made. *)
Definition loop_run_spec (cfg : run_config) (meta : dict) (n : nat)
           (ticks : list tick) (s : loop_state) (tr : list io_event)
           (out : (exn + loop_state) * list io_event) (last_step : Z) : Prop :=
  exists (ct : list (call * tick)) (s' : loop_state),
    out = (inr s',
           tr ++ flat_map
                   (emission_events (jsonl (t0 s)) (fbin (t0 s)) meta)
                   (combine ct (fst (tracker_run (t0 s)
                                       (map call_reading (map fst ct))))))
    /\ t0 s' = snd (tracker_run (t0 s) (map call_reading (map fst ct)))
    /\ step s' = last_step
    /\ map c_step (map fst ct)
       = filter (cadence_hit (t0_every cfg)) (zrange (step s + 1) n)
    /\ Forall (made_at ticks (step s)) ct.

(** Either the frame sink is disabled or every timestamp fits. *)
Definition frames_ok (t : T0) (ticks : list tick) : Prop :=
  fbin t = None \/ Forall frame_clock_ok ticks.

(** The handle [T0.__init__] stores for a destination. *)
Definition sink_of (path : option string) : option string :=
  match path with
  | None => None
  | Some "" => None
  | Some p => Some p
  end.

Definition open_events (h : option string) : list io_event :=
  match h with
  | Some p => [IoOpen p]
  | None => []
  end.

Definition close_events (h : option string) : list io_event :=
  match h with
  | Some p => [IoClose p]
  | None => []
  end.

(** The trace of a whole run: the sinks are opened, every recording
    appends its line and its frame, the sinks are closed. *)
Definition run_trace (cfg : run_config) (meta : dict)
           (ct : list (call * tick)) : list io_event :=
  let j := sink_of (t0_jsonl cfg) in
  let f := sink_of (fprime_frames cfg) in
  (open_events j ++ open_events f)
    ++ flat_map (emission_events j f meta)
         (combine ct (fst (tracker_run (mkT0 j f None 0 0)
                             (map call_reading (map fst ct)))))
    ++ close_events j ++ close_events f.

(** The health sequence of the end-to-end scenario of the specification. *)
Definition scenario_health : list Z :=
  [100; 100; 95; 95; 90; 85; 85; 85; 80; 80; 75; 70].

(** The records a run of [n] steps leaves in the line sink [p], read off
    the trace [tr] of the run: one line for every step of [1..n] that the
    cadence hits and for no other; each made from the readings of the
    tick of its step; the first with a damage-in of 0 and every later
    one with the health lost since the record before it. *)
Definition records_on_cadence (cfg : run_config) (meta : dict)
           (ticks : list tick) (n : nat) (p : string)
           (tr : list io_event) : Prop :=
  exists ct : list (call * tick),
    let cs := map fst ct in
    let ds := fst (tracker_run
                     (mkT0 (Some p) (sink_of (fprime_frames cfg)) None 0 0)
                     (map call_reading cs)) in
    events_on p tr
    = IoOpen p :: flat_map (line_events (Some p) meta) (combine cs ds)
             ++ [IoClose p]
    /\ map c_step cs = filter (cadence_hit (t0_every cfg)) (zrange 1 n)
    /\ (forall st, In st (map c_step cs)
                   <-> 1 <= st <= Z.of_nat n /\ t0_every cfg <> 0
                       /\ st mod t0_every cfg = 0)
    /\ Forall (made_at ticks 0) ct
    /\ List.length ds = List.length cs
    /\ (forall dmg_in dmg_out kills,
           nth_error ds 0 = Some (dmg_in, dmg_out, kills) -> dmg_in = 0)
    /\ (forall i a b dmg_in dmg_out kills,
           nth_error cs i = Some a -> nth_error cs (S i) = Some b ->
           nth_error ds (S i) = Some (dmg_in, dmg_out, kills) ->
           dmg_in = Z.max 0 (HEALTH (c_vars a) - HEALTH (c_vars b)))
    /\ (t0_every cfg = 0 -> events_on p tr = [IoOpen p; IoClose p])
    /\ (t0_every cfg = 5 -> n = 12%nat ->
        map (fun tk => HEALTH (vars tk)) ticks = scenario_health ->
        exists c5 c10 o5 k5 o10 k10,
          cs = [c5; c10] /\ c_step c5 = 5 /\ c_step c10 = 10
          /\ HEALTH (c_vars c5) = 90 /\ HEALTH (c_vars c10) = 80
          /\ ds = [(0, o5, k5); (10, o10, k10)]).

(** The ticks of the end-to-end scenario: no event ends the session and the
    health follows [scenario_health]. *)
Definition scenario_ticks : list tick :=
  map (fun h => mkTick false false false
                       (mkVars h None None None None None None) 0 0)
      scenario_health.

(** The six identifiers of the session metadata. *)
Definition identifiers : list string :=
  ["run_id"; "episode_id"; "algo_id"; "git"; "rng_seed"; "level_start"].

(** The keys [write_jsonl] assigns after it has spread the metadata into
    the record, the checksum included. *)
Definition tick_own_keys : list string :=
  ["level"; "health"; "armor"; "selected_weapon"; "pose"; "keys";
   "secrets_found"; "resources"; "combat"; "performance"; "faults";
   "outcome"; "crc32c"].

(** The keys it assigns before. *)
Definition tick_head_keys : list string :=
  ["type"; "schema"; "unix_time"; "unix_time_ms"; "step"].

(** A run with no sink, over the ticks of the scenario, with draw 7. *)
Definition quiet_config : run_config :=
  mkConfig 0 0 5 None None false ["ATTACK"].



(** Two records hold the same field values when they differ only in the
    order of the members of their objects, at any depth. *)
Inductive json_equiv : json -> json -> Prop :=
| JE_same (v : json) : json_equiv v v
| JE_obj (ms ms' : list (string * json)) :
    members_equiv ms ms' -> json_equiv (JObj ms) (JObj ms')
with members_equiv : list (string * json) -> list (string * json) -> Prop :=
| ME_nil : members_equiv [] []
| ME_skip (k : string) (v v' : json) (l l' : list (string * json)) :
    json_equiv v v' -> members_equiv l l' ->
    members_equiv ((k, v) :: l) ((k, v') :: l')
| ME_swap (x y : string * json) (l : list (string * json)) :
    members_equiv (x :: y :: l) (y :: x :: l)
| ME_trans (l1 l2 l3 : list (string * json)) :
    members_equiv l1 l2 -> members_equiv l2 l3 -> members_equiv l1 l3.

Scheme json_equiv_min := Minimality for json_equiv Sort Prop
  with members_equiv_min := Minimality for members_equiv Sort Prop.

Combined Scheme json_equiv_mutind from json_equiv_min, members_equiv_min.

(** The members of an object with their values encoded. *)
Definition encode_members (item_sep key_sep : string) (sort_keys : bool)
           (ms : list (string * json)) : list (string * string) :=
  map (fun kx => (fst kx, json_dumps item_sep key_sep sort_keys (snd kx))) ms.

(** The text of an object from its encoded members. *)
Definition object_text (item_sep key_sep : string)
           (items : list (string * string)) : string :=
  "{" +++ String.concat item_sep
            (map (fun kv => encode_basestring_ascii (fst kv) +++ key_sep
                            +++ snd kv) items)
      +++ "}".






(** A write followed by the flush of the same file. *)
Definition write_flush (pd : string * list byte) : list io_event :=
  [IoWrite (fst pd) (snd pd); IoFlush (fst pd)].

(** A stretch of a trace made of writes, each flushed at once, on the open
    sinks [j] and [f] only. *)
Definition flushed_writes (j f : option string) (evs : list io_event) : Prop :=
  exists l : list (string * list byte),
    evs = flat_map write_flush l
    /\ Forall (fun pd => j = Some (fst pd) \/ f = Some (fst pd)) l.

(** The trace of a whole run from the trace [tr] before it: the sinks are
    opened, then come flushed writes, then the sinks are closed. *)
Definition bracketed_trace (cfg : run_config) (tr tr' : list io_event) : Prop :=
  exists body : list io_event,
    tr' = tr ++ (open_events (sink_of (t0_jsonl cfg))
                   ++ open_events (sink_of (fprime_frames cfg)))
             ++ body
             ++ (close_events (sink_of (t0_jsonl cfg))
                   ++ close_events (sink_of (fprime_frames cfg)))
    /\ flushed_writes (sink_of (t0_jsonl cfg)) (sink_of (fprime_frames cfg))
                      body.


(** The shots counted in a dict of ammunition counters. *)
Definition ammo_total (a : list (string * Z)) : Z :=
  fold_right (fun kv acc => snd kv + acc) 0 a.

(** The weapon names of [SLOT2NAME], the keys [ammo_used] starts with. *)
Definition weapon_names : list string :=
  ["PISTOL"; "SHOTGUN"; "CHAINGUN"; "ROCKET"; "PLASMA"; "BFG"].

(** How the bookkeeping of a loop moves from the state [s] to a later state
    [s'], with [shots] shots counted in between: the step counter does not
    go back, every shot is in exactly one counter of the known weapons and
    deals between 10 and 250 points of nominal damage. *)
Definition bookkeeping (s s' : loop_state) (shots : Z) : Prop :=
  step s <= step s'
  /\ 0 <= shots <= step s' - step s
  /\ ammo_total (ammo_used s') = ammo_total (ammo_used s) + shots
  /\ dmg_out_total s + 10 * shots <= dmg_out_total s'
     <= dmg_out_total s + 250 * shots
  /\ (incl weapon_names (keys (ammo_used s)) ->
      keys (ammo_used s') = keys (ammo_used s)).


(** What the statements about a loop say of its result [out], reached from
    the state [s] with [shots s'] shots counted. *)
Definition loop_result_ok (cfg : run_config) (s : loop_state)
           (out : exn + loop_state) (shots : loop_state -> Z) : Prop :=
  match out with
  | inl e => e = StructError
  | inr s' =>
    jsonl (t0 s') = jsonl (t0 s) /\ fbin (t0 s') = fbin (t0 s)
    /\ bookkeeping s s' (shots s')
    /\ (0 < steps cfg -> step s <= steps cfg -> step s' <= steps cfg)
  end.

(** The bytes a trace appends to the file [p], in order. *)
Definition written (p : string) (tr : list io_event) : list byte :=
  flat_map (fun e => match e with
                     | IoWrite q d => if String.eqb q p then d else []
                     | _ => []
                     end) tr.

(** The reader of a frame file: [n] frames of 14 bytes and nothing after
    them. *)
Fixpoint unpack_frames (n : nat) (bs : list byte) : option (list frame) :=
  match n with
  | O => match bs with
         | [] => Some []
         | _ :: _ => None
         end
  | S k =>
    match unpack_frame (firstn 14 bs), unpack_frames k (skipn 14 bs) with
    | Some fr, Some frs => Some (fr :: frs)
    | _, _ => None
    end
  end.

(** Framing by fixed size: the file is cut every 14 bytes. *)
Definition read_frames (bs : list byte) : option (list frame) :=
  unpack_frames (List.length bs / 14) bs.

(** The frame a recording made at the tick [tk] holds. *)
Definition frame_of_tick (tk : tick) : frame :=
  mkFrame magic (py_int (clock_fprime tk))
          (clamp (HEALTH (vars tk)) 0 65535)
          (clamp (or_default (ARMOR (vars tk)) 0) 0 65535)
          (clamp (or_default (KILLCOUNT (vars tk)) 0) 0 65535).


(** Printable ASCII: the characters from the space to the tilde. *)
Definition printable (c : ascii) : Prop :=
  32 <= Z.of_nat (nat_of_ascii c) <= 126.

Definition printable_text (s : string) : Prop :=
  Forall printable (list_ascii_of_string s).

(** The bytes of printable ASCII. *)
Definition printable_byte (b : byte) : Prop := 32 <= Z_of_byte b <= 126.



(** A tick at which the loop of [play_manual] goes on: no quit event, and
    the episode is not over or is restarted. *)
Definition manual_goes_on (cfg : run_config) (tk : tick) : Prop :=
  quit_requested tk = false
  /\ (episode_finished tk && negb (auto_restart cfg)) = false.


(** The last place of [name] in [l], counted from [a]. *)
Fixpoint last_index (name : string) (l : list string) (a : nat) : option nat :=
  match l with
  | [] => None
  | x :: t =>
    match last_index name t (S a) with
    | Some i => Some i
    | None => if String.eqb name x then Some a else None
    end
  end.

(** An action: one entry for each button, each 0 or 1. *)
Definition action_for (names : list string) (action : list Z) : Prop :=
  List.length action = List.length names
  /\ Forall (fun v => v = 0 \/ v = 1) action.


(** The options with another cadence. *)
Definition with_t0_every (args : cli_args) (every : Z) : cli_args :=
  mkArgs (args_manual args) (args_steps args) (args_slow_ms args)
         (args_force_movement args) (args_episode_seconds args)
         (args_auto_restart args) every (args_t0_sink args)
         (args_t0_jsonl args) (args_fprime_frames args).

(** The configuration of a run with another cadence. *)
Definition config_with_every (cfg : run_config) (every : Z) : run_config :=
  mkConfig (steps cfg) (slow_ms cfg) every (t0_jsonl cfg) (fprime_frames cfg)
           (auto_restart cfg) (buttons cfg).


(** The keys of a dict after the keys [new] were assigned in turn: a key
    that is there keeps its place, another goes last. *)
Definition add_keys (ks new : list string) : list string :=
  fold_left (fun acc k => if in_dec string_dec k acc then acc else acc ++ [k])
            new ks.


(** The buttons the scripted policy presses. *)
Definition scripted_press (amap : list (string * nat)) (phase_negative : bool)
           (name : string) : Prop :=
  name = "ATTACK" \/ name = "MOVE_FORWARD"
  \/ (dict_mem amap "TURN_LEFT" && dict_mem amap "TURN_RIGHT" = true
      /\ name = if phase_negative then "TURN_LEFT" else "TURN_RIGHT").

(** The buttons the held keys stand for in manual play. *)
Definition key_held (keys : key_state) (name : string) : Prop :=
  (name = "MOVE_FORWARD" /\ K_w keys || K_UP keys = true)
  \/ (name = "MOVE_BACKWARD" /\ K_s keys || K_DOWN keys = true)
  \/ (name = "MOVE_LEFT" /\ K_a keys = true)
  \/ (name = "MOVE_RIGHT" /\ K_d keys = true)
  \/ (name = "TURN_LEFT" /\ K_LEFT keys = true)
  \/ (name = "TURN_RIGHT" /\ K_RIGHT keys = true)
  \/ (name = "ATTACK" /\ K_SPACE keys || mouse_left keys = true).


(** The components of a reading [(health, damage dealt, kills)] and of the
    deltas [(damage in, damage out, kills)] of a call. *)
Definition first_of (x : Z * Z * Z) : Z := fst (fst x).
Definition second_of (x : Z * Z * Z) : Z := snd (fst x).
Definition third_of (x : Z * Z * Z) : Z := snd x.

(** The sum of one component over the calls. *)
Definition total (f : Z * Z * Z -> Z) (ds : list (Z * Z * Z)) : Z :=
  fold_right (fun d acc => f d + acc) 0 ds.

(** The health the damage-in deltas start from: the baseline, or the
    first reading on a fresh recorder. *)
Definition start_health (t : T0) (rs : list (Z * Z * Z)) : option Z :=
  match prev_health t, rs with
  | Some h, _ => Some h
  | None, r :: _ => Some (first_of r)
  | None, [] => None
  end.


(** The nominal damage of a shot booked under a weapon name. *)
Definition nominal_of_name (name : string) : Z :=
  if String.eqb name "SHOTGUN" then 35
  else if String.eqb name "CHAINGUN" then 12
  else if String.eqb name "ROCKET" then 100
  else if String.eqb name "PLASMA" then 20
  else if String.eqb name "BFG" then 250
  else 10.

(** The damage a dict of ammunition counters stands for. *)
Definition priced (a : list (string * Z)) : Z :=
  fold_right (fun kv acc => snd kv * nominal_of_name (fst kv) + acc) 0 a.




(** A loop run of [n] iterations from the state [s] by the calls of
    [write_jsonl] it makes: the trace, the steps the calls are made at, and
    the balance of every call between the damage dealt and the counters of
    ammunition it is made with. *)
Definition loop_calls_spec (cfg : run_config) (meta : dict) (n : nat)
           (ticks : list tick) (s : loop_state)
           (tr : list io_event) (out : (exn + loop_state) * list io_event)
  : Prop :=
  exists (ct : list (call * tick)) (s' : loop_state),
    out = (inr s',
           tr ++ flat_map
                   (emission_events (jsonl (t0 s)) (fbin (t0 s)) meta)
                   (combine ct (fst (tracker_run (t0 s)
                                       (map call_reading (map fst ct))))))
    /\ map c_step (map fst ct)
       = filter (cadence_hit (t0_every cfg)) (zrange (step s + 1) n)
    /\ Forall (made_at ticks (step s)) ct
    /\ Sorted Z.le (dmg_out_total s :: map c_dmg_out_total (map fst ct))
    /\ Forall (fun x =>
                 c_dmg_out_total (fst x) - priced (c_ammo_used (fst x))
                 = dmg_out_total s - priced (ammo_used s)
                 /\ c_dmg_out_total (fst x) <= dmg_out_total s') ct
    /\ dmg_out_total s <= dmg_out_total s'.

(** The records of a run balance: the call of every record is made with a
    damage dealt that is the priced ammunition of the record, and that is
    what the damage-out deltas of the records up to it add up to. *)
Definition records_balance (cfg : run_config) (ct : list (call * tick))
  : Prop :=
  let ds := fst (tracker_run
                   (mkT0 (sink_of (t0_jsonl cfg))
                         (sink_of (fprime_frames cfg)) None 0 0)
                   (map call_reading (map fst ct))) in
  forall (i : nat) (c : call),
    nth_error (map fst ct) i = Some c ->
    c_dmg_out_total c = priced (c_ammo_used c)
    /\ total second_of (firstn (S i) ds) = priced (c_ammo_used c).





End Vocabulary.

(** * Properties *)

(** ** Bytes *)

Lemma Z_of_byte_of_Z (z : Z) : Z_of_byte (byte_of_Z z) = z mod 256.
Proof.
  unfold Z_of_byte, byte_of_Z.
  assert (Hr : 0 <= z mod 256 < 256) by (apply Z.mod_pos_bound; lia).
  destruct (Byte.of_N (Z.to_N (z mod 256))) as [b|] eqn:E.
  - apply Byte.to_of_N in E. rewrite E. lia.
  - apply Byte.of_N_None_iff in E. lia.
Qed.


Lemma pack_be_length (n : nat) (v : Z) : List.length (pack_be n v) = n.
Proof. induction n; simpl; congruence. Qed.

Lemma unpack_be_acc (bs : list byte) (acc : Z) :
  fold_left (fun a b => a * 256 + Z_of_byte b) bs acc
  = acc * 256 ^ Z.of_nat (List.length bs) + unpack_be bs.
Proof.
  unfold unpack_be. revert acc.
  induction bs as [|b bs IH]; intros acc.
  - simpl. lia.
  - cbn [fold_left List.length]. rewrite IH, (IH (0 * 256 + Z_of_byte b)).
    rewrite Nat2Z.inj_succ, Z.pow_succ_r by lia. ring.
Qed.

(** Reading back the [n] bytes of [v] gives [v] modulo [256 ^ n]. *)
Lemma unpack_pack_be (n : nat) (v : Z) :
  unpack_be (pack_be n v) = v mod 256 ^ Z.of_nat n.
Proof.
  induction n as [|k IH].
  - simpl. now rewrite Z.mod_1_r.
  - cbn [pack_be]. unfold unpack_be. cbn [fold_left].
    rewrite unpack_be_acc, pack_be_length, IH, Z_of_byte_of_Z.
    rewrite Nat2Z.inj_succ, Z.pow_succ_r by lia.
    assert (Hp : 0 < 256 ^ Z.of_nat k) by (apply Z.pow_pos_nonneg; lia).
    rewrite (Z.mul_comm 256), Z.rem_mul_r by lia. ring.
Qed.

Lemma unpack_pack_be_small (n : nat) (v : Z) :
  0 <= v < 256 ^ Z.of_nat n -> unpack_be (pack_be n v) = v.
Proof.
  intros Hv. rewrite unpack_pack_be. now apply Z.mod_small.
Qed.

Lemma pack_uint_ok (n : nat) (v : Z) :
  0 <= v < 256 ^ Z.of_nat n -> pack_uint n v = inr (pack_be n v).
Proof.
  intros [H0 H1]. unfold pack_uint.
  apply Z.leb_le in H0. apply Z.ltb_lt in H1. now rewrite H0, H1.
Qed.

Lemma pack_uint_out_of_range (n : nat) (v : Z) :
  ~ 0 <= v < 256 ^ Z.of_nat n -> pack_uint n v = inl StructError.
Proof.
  intros Hv. unfold pack_uint.
  destruct (0 <=? v) eqn:E0; [|reflexivity].
  destruct (v <? 256 ^ Z.of_nat n) eqn:E1; [|reflexivity].
  apply Z.leb_le in E0. apply Z.ltb_lt in E1. lia.
Qed.

(** ** [clamp] *)

Lemma clamp_range (v lo hi : Z) : lo <= hi -> lo <= clamp v lo hi <= hi.
Proof.
  intros Hle. unfold clamp.
  destruct (Z.ltb_spec v lo); [lia|].
  destruct (v >? hi) eqn:E; [lia|].
  rewrite Z.gtb_ltb in E. apply Z.ltb_ge in E. lia.
Qed.

Lemma clamp_saturates (v lo hi : Z) :
  lo <= hi -> clamp v lo hi = Z.max lo (Z.min hi v).
Proof.
  intros Hle. unfold clamp.
  destruct (Z.ltb_spec v lo); [lia|].
  destruct (v >? hi) eqn:E; rewrite Z.gtb_ltb in E.
  - apply Z.ltb_lt in E. lia.
  - apply Z.ltb_ge in E. lia.
Qed.

Lemma clamp_id (v lo hi : Z) : lo <= v <= hi -> clamp v lo hi = v.
Proof.
  intros Hv. rewrite clamp_saturates by lia. lia.
Qed.

(** ** The frame sink *)

Lemma struct_pack_frame_ok (now : Z) (g : game_vars) :
  0 <= now < 2 ^ 32 ->
  struct_pack_4sIHHH magic now
    (clamp (HEALTH g) 0 65535)
    (clamp (or_default (ARMOR g) 0) 0 65535)
    (clamp (or_default (KILLCOUNT g) 0) 0 65535)
  = inr (frame_bytes now g).
Proof.
  intros Hnow. unfold struct_pack_4sIHHH, frame_bytes.
  rewrite (pack_uint_ok 4 now) by (simpl; lia).
  pose proof (clamp_range (HEALTH g) 0 65535 ltac:(lia)).
  pose proof (clamp_range (or_default (ARMOR g) 0) 0 65535 ltac:(lia)).
  pose proof (clamp_range (or_default (KILLCOUNT g) 0) 0 65535 ltac:(lia)).
  rewrite !(pack_uint_ok 2) by (simpl; lia).
  reflexivity.
Qed.

Lemma write_fprime_enabled (t : T0) (f : string) (now : Q) (g : game_vars)
      (tr : list io_event) :
  fbin t = Some f -> 0 <= py_int now < 2 ^ 32 ->
  write_fprime t now g tr
  = (inr tt, tr ++ [IoWrite f (frame_bytes (py_int now) g); IoFlush f]).
Proof.
  intros Hf Hnow. unfold write_fprime. rewrite Hf.
  rewrite struct_pack_frame_ok by exact Hnow.
  unfold bind, lift_exn, ret, emit. cbn. now rewrite <- app_assoc.
Qed.

Lemma write_fprime_disabled (t : T0) (now : Q) (g : game_vars)
      (tr : list io_event) :
  fbin t = None -> write_fprime t now g tr = (inr tt, tr).
Proof.
  intros Hf. unfold write_fprime. now rewrite Hf.
Qed.

Lemma frame_bytes_length (now : Z) (g : game_vars) :
  List.length (frame_bytes now g) = 14%nat.
Proof.
  unfold frame_bytes. rewrite !length_app, !pack_be_length. reflexivity.
Qed.

Lemma frame_bytes_fields (now : Z) (g : game_vars) :
  firstn 4 (frame_bytes now g) = magic
  /\ firstn 4 (skipn 4 (frame_bytes now g)) = pack_be 4 now
  /\ firstn 2 (skipn 8 (frame_bytes now g))
     = pack_be 2 (clamp (HEALTH g) 0 65535)
  /\ firstn 2 (skipn 10 (frame_bytes now g))
     = pack_be 2 (clamp (or_default (ARMOR g) 0) 0 65535)
  /\ firstn 2 (skipn 12 (frame_bytes now g))
     = pack_be 2 (clamp (or_default (KILLCOUNT g) 0) 0 65535).
Proof. repeat split; reflexivity. Qed.

Lemma clamp_u16 (v : Z) : 0 <= clamp v 0 65535 < 256 ^ Z.of_nat 2.
Proof.
  pose proof (clamp_range v 0 65535 ltac:(lia)).
  change (256 ^ Z.of_nat 2) with 65536. lia.
Qed.

Lemma unpack_frame_bytes (now : Z) (g : game_vars) :
  0 <= now < 2 ^ 32 ->
  unpack_frame (frame_bytes now g)
  = Some (mkFrame magic now
                  (clamp (HEALTH g) 0 65535)
                  (clamp (or_default (ARMOR g) 0) 0 65535)
                  (clamp (or_default (KILLCOUNT g) 0) 0 65535)).
Proof.
  intros Hnow. unfold unpack_frame.
  rewrite frame_bytes_length. cbn [Nat.eqb].
  destruct (frame_bytes_fields now g) as (Fm & Ft & Fh & Fa & Fk).
  rewrite Fm, Ft, Fh, Fa, Fk.
  rewrite (unpack_pack_be_small 4 now) by exact Hnow.
  rewrite !(unpack_pack_be_small 2) by apply clamp_u16.
  reflexivity.
Qed.

(** C4. Every frame the frame sink writes is 14 bytes long: the tag
    ["DSF0"], the timestamp on 4 bytes, then health, armor and kill count
    on 2 bytes each, most significant byte first; [unpack_frame] reads back
    the tag, the timestamp and the three encoded values. With health 57,
    armor 32 and 4 kills at a timestamp [T] it reads back
    [("DSF0", T, 57, 32, 4)]. *)
Theorem C4_frame_layout_roundtrip :
  forall (t : T0) (f : string) (now : Q) (g : game_vars) (tr : list io_event),
    fbin t = Some f ->
    0 <= py_int now < 2 ^ 32 ->
    exists pkt : list byte,
      write_fprime t now g tr = (inr tt, tr ++ [IoWrite f pkt; IoFlush f])
      /\ List.length pkt = 14%nat
      /\ firstn 4 pkt = list_byte_of_string "DSF0"
      /\ firstn 4 (skipn 4 pkt) = pack_be 4 (py_int now)
      /\ firstn 2 (skipn 8 pkt) = pack_be 2 (clamp (HEALTH g) 0 65535)
      /\ firstn 2 (skipn 10 pkt)
         = pack_be 2 (clamp (or_default (ARMOR g) 0) 0 65535)
      /\ skipn 12 pkt
         = pack_be 2 (clamp (or_default (KILLCOUNT g) 0) 0 65535)
      /\ unpack_frame pkt
         = Some (mkFrame (list_byte_of_string "DSF0") (py_int now)
                         (clamp (HEALTH g) 0 65535)
                         (clamp (or_default (ARMOR g) 0) 0 65535)
                         (clamp (or_default (KILLCOUNT g) 0) 0 65535))
      /\ (HEALTH g = 57 -> ARMOR g = Some 32 -> KILLCOUNT g = Some 4 ->
          unpack_frame pkt
          = Some (mkFrame (list_byte_of_string "DSF0") (py_int now) 57 32 4)).
Proof.
  intros t f now g tr Hf Hnow.
  exists (frame_bytes (py_int now) g).
  split; [now apply write_fprime_enabled|].
  split; [apply frame_bytes_length|].
  repeat split; try reflexivity.
  - now apply unpack_frame_bytes.
  - intros Hh Ha Hk. rewrite unpack_frame_bytes by exact Hnow.
    rewrite Hh, Ha, Hk. reflexivity.
Qed.

Lemma C4_frame_layout_roundtrip_witness :
  exists pkt : list byte,
    write_fprime (mkT0 None (Some "frames.bin") None 0 0) (1700000000 # 1)
                 (mkVars 57 (Some 32) (Some 4) None None None None) []
    = (inr tt, [] ++ [IoWrite "frames.bin" pkt; IoFlush "frames.bin"])
    /\ pkt = [x44; x53; x46; x30; x65; x53; xf1; x00;
              x00; x39; x00; x20; x00; x04]
    /\ unpack_frame pkt
       = Some (mkFrame (list_byte_of_string "DSF0") 1700000000 57 32 4).
Proof.
  destruct (C4_frame_layout_roundtrip
              (mkT0 None (Some "frames.bin") None 0 0) "frames.bin"
              (1700000000 # 1)
              (mkVars 57 (Some 32) (Some 4) None None None None) []
              eq_refl)
    as [pkt (Hw & _ & _ & _ & _ & _ & _ & _ & Hex)].
  - change (0 <= 1700000000 < 2 ^ 32). lia.
  - exists pkt. split; [exact Hw|]. split.
    + vm_compute in Hw. now inversion Hw.
    + now apply Hex.
Defined.

(** C5. The 16-bit fields of a written frame hold the saturating clamp of
    health, armor and kill count into [0, 65535]; a health of 70000 is
    written as 65535 ([ff ff]), neither as 70000 modulo 65536 nor as an
    error. *)
Theorem C5_frame_fields_saturate :
  forall (t : T0) (f : string) (now : Q) (g : game_vars) (tr : list io_event),
    fbin t = Some f ->
    0 <= py_int now < 2 ^ 32 ->
    exists pkt : list byte,
      write_fprime t now g tr = (inr tt, tr ++ [IoWrite f pkt; IoFlush f])
      /\ unpack_be (firstn 2 (skipn 8 pkt)) = Z.max 0 (Z.min 65535 (HEALTH g))
      /\ unpack_be (firstn 2 (skipn 10 pkt))
         = Z.max 0 (Z.min 65535 (or_default (ARMOR g) 0))
      /\ unpack_be (firstn 2 (skipn 12 pkt))
         = Z.max 0 (Z.min 65535 (or_default (KILLCOUNT g) 0))
      /\ (HEALTH g = 70000 ->
          firstn 2 (skipn 8 pkt) = [xff; xff]
          /\ unpack_be (firstn 2 (skipn 8 pkt)) = 65535
          /\ unpack_be (firstn 2 (skipn 8 pkt)) <> 70000 mod 65536).
Proof.
  intros t f now g tr Hf Hnow.
  exists (frame_bytes (py_int now) g).
  split; [now apply write_fprime_enabled|].
  destruct (frame_bytes_fields (py_int now) g) as (_ & _ & Fh & Fa & Fk).
  rewrite Fh, Fa, Fk.
  rewrite !(unpack_pack_be_small 2) by apply clamp_u16.
  rewrite !clamp_saturates by lia.
  split; [reflexivity|]. split; [reflexivity|]. split; [reflexivity|].
  intros Hh. rewrite Hh. split; [reflexivity|].
  split; [reflexivity|]. vm_compute. discriminate.
Qed.

Lemma C5_frame_fields_saturate_witness :
  exists pkt : list byte,
    write_fprime (mkT0 None (Some "frames.bin") None 0 0) (1700000000 # 1)
                 (mkVars 70000 (Some (-3)) (Some 4) None None None None) []
    = (inr tt, [] ++ [IoWrite "frames.bin" pkt; IoFlush "frames.bin"])
    /\ unpack_be (firstn 2 (skipn 8 pkt)) = 65535
    /\ unpack_be (firstn 2 (skipn 10 pkt)) = 0
    /\ unpack_be (firstn 2 (skipn 12 pkt)) = 4.
Proof.
  destruct (C5_frame_fields_saturate
              (mkT0 None (Some "frames.bin") None 0 0) "frames.bin"
              (1700000000 # 1)
              (mkVars 70000 (Some (-3)) (Some 4) None None None None) []
              eq_refl)
    as [pkt (Hw & Hh & Ha & Hk & _)].
  - change (0 <= 1700000000 < 2 ^ 32). lia.
  - exists pkt. repeat split; assumption.
Defined.

(** ** Dicts *)

Lemma dict_get_set_same {V : Type} (d : list (string * V)) (k : string) (v : V) :
  dict_get (dict_set d k v) k = Some v.
Proof.
  induction d as [|[k' v'] d IH]; simpl.
  - now rewrite String.eqb_refl.
  - destruct (String.eqb_spec k k') as [->|Hne]; simpl.
    + now rewrite String.eqb_refl.
    + destruct (String.eqb_spec k k'); [contradiction|exact IH].
Qed.

Lemma dict_get_set_other {V : Type} (d : list (string * V)) (k k' : string)
      (v : V) :
  k <> k' -> dict_get (dict_set d k' v) k = dict_get d k.
Proof.
  intros Hne. induction d as [|[k0 v0] d IH]; simpl.
  - destruct (String.eqb_spec k k'); [contradiction|reflexivity].
  - destruct (String.eqb_spec k' k0) as [->|Hne0]; simpl.
    + destruct (String.eqb_spec k k0); [contradiction|reflexivity].
    + destruct (String.eqb_spec k k0); [reflexivity|exact IH].
Qed.

Lemma dict_get_None_notin {V : Type} (d : list (string * V)) (k : string) :
  dict_get d k = None <-> ~ In k (keys d).
Proof.
  induction d as [|[k' v'] d IH]; simpl.
  - tauto.
  - destruct (String.eqb_spec k k') as [->|Hne].
    + split; [discriminate|]. intros Hn. exfalso. apply Hn. now left.
    + rewrite IH. split.
      * intros Hn [He|Hi]; [now apply Hne|now apply Hn].
      * intros Hn Hi. apply Hn. now right.
Qed.

(** Item assignment adds the key when it is new and changes no other key. *)
Lemma keys_dict_set {V : Type} (d : list (string * V)) (k : string) (v : V) :
  keys (dict_set d k v) = if in_dec string_dec k (keys d) then keys d
                          else keys d ++ [k].
Proof.
  induction d as [|[k' v'] d IH]; simpl.
  - reflexivity.
  - destruct (String.eqb_spec k k') as [->|Hne].
    + destruct (string_dec k' k'); [reflexivity|contradiction].
    + destruct (string_dec k' k) as [E|E]; [now symmetry in E|].
      unfold keys in *. simpl. rewrite IH.
      now destruct (in_dec string_dec k (map fst d)).
Qed.



(** Looks a key up through a chain of assignments of literal keys. *)
Ltac dict_lookup :=
  repeat first
    [ rewrite dict_get_set_same
    | rewrite dict_get_set_other by discriminate ].

(** ** The delta tracker *)

Section RecorderFacts.
Context `{PyFloat}.

(** What [write_jsonl] does, whatever the sink: the trace grows by the
    line and its flush when the sink is enabled, and the recorder that
    comes back has the new baseline. *)
Lemma write_jsonl_unfold (t : T0) (meta : dict) (now : Q) (g : game_vars)
      (d : Z) (ammo : list (string * Z)) (st : Z) (tr : list io_event) :
  let h := HEALTH g in
  let k := or_default (KILLCOUNT g) 0 in
  let rec := attach_crc (tick_record meta now g (deltas t h d k) ammo st) in
  write_jsonl t meta now g d ammo st tr
  = (inr (store_baseline t h d k),
     tr ++ match jsonl t with
           | Some f => [IoWrite f (jsonl_line rec); IoFlush f]
           | None => []
           end).
Proof.
  unfold write_jsonl. cbn [jsonl store_baseline].
  destruct (jsonl t) as [f|].
  - unfold bind, emit, ret. cbn. now rewrite <- app_assoc.
  - unfold ret. now rewrite app_nil_r.
Qed.

(** The [combat] section of a tick record holds the three deltas,
    whatever the session metadata contains. *)
Lemma tick_record_combat (meta : dict) (now : Q) (g : game_vars)
      (din dout dk : Z) (ammo : list (string * Z)) (st : Z) :
  dict_get (attach_crc (tick_record meta now g (din, dout, dk) ammo st))
           "combat"
  = Some (JObj [("dmg_in_delta", JInt din); ("dmg_out_delta", JInt dout);
                ("kills_delta", JInt dk)]).
Proof.
  unfold attach_crc, tick_record.
  unfold dict_update at 1. cbn [fold_left fst snd].
  now dict_lookup.
Qed.
End RecorderFacts.

Section Tracker.
Context `{PyFloat}.

Lemma tracker_run_cons (t : T0) (h d k : Z) (rs : list (Z * Z * Z)) :
  fst (tracker_run t ((h, d, k) :: rs))
  = deltas t h d k :: fst (tracker_run (store_baseline t h d k) rs).
Proof.
  simpl. now destruct (tracker_run (store_baseline t h d k) rs).
Qed.

Lemma tracker_run_length (rs : list (Z * Z * Z)) (t : T0) :
  List.length (fst (tracker_run t rs)) = List.length rs.
Proof.
  revert t. induction rs as [|[[h d] k] rs IH]; intros t; simpl.
  - reflexivity.
  - specialize (IH (store_baseline t h d k)).
    destruct (tracker_run (store_baseline t h d k) rs). simpl in *.
    now rewrite IH.
Qed.

Lemma tracker_run_sinks (rs : list (Z * Z * Z)) (t : T0) :
  jsonl (snd (tracker_run t rs)) = jsonl t
  /\ fbin (snd (tracker_run t rs)) = fbin t.
Proof.
  revert t. induction rs as [|[[h d] k] rs IH]; intros t; simpl.
  - now split.
  - specialize (IH (store_baseline t h d k)).
    destruct (tracker_run (store_baseline t h d k) rs). exact IH.
Qed.

(** The deltas depend on the baseline only, not on the sinks. *)
Lemma tracker_run_baseline_only (rs : list (Z * Z * Z)) (t u : T0) :
  baseline t = baseline u ->
  fst (tracker_run t rs) = fst (tracker_run u rs)
  /\ baseline (snd (tracker_run t rs)) = baseline (snd (tracker_run u rs)).
Proof.
  revert t u. induction rs as [|[[h d] k] rs IH]; intros t u Hb; simpl.
  - now split.
  - specialize (IH (store_baseline t h d k) (store_baseline u h d k) eq_refl).
    destruct (tracker_run (store_baseline t h d k) rs) as [ds t'].
    destruct (tracker_run (store_baseline u h d k) rs) as [es u'].
    simpl in *. destruct IH as [-> ->]. split; [|reflexivity].
    f_equal. unfold deltas. unfold baseline in Hb.
    now injection Hb as -> -> ->.
Qed.

(** After a non-empty sequence the baseline is the last reading. *)
Lemma tracker_run_last (rs : list (Z * Z * Z)) (t : T0) (h d k : Z) :
  baseline (snd (tracker_run t (rs ++ [(h, d, k)]))) = (Some h, d, k).
Proof.
  revert t. induction rs as [|[[h0 d0] k0] rs IH]; intros t; simpl.
  - reflexivity.
  - specialize (IH (store_baseline t h0 d0 k0)).
    now destruct (tracker_run (store_baseline t h0 d0 k0) (rs ++ [(h, d, k)])).
Qed.

(** Every call after the first reports the clamped differences with the
    call before it. *)
Lemma tracker_run_consecutive (rs : list (Z * Z * Z)) (t : T0) (i : nat)
      (ph pd pk h d k : Z) :
  nth_error rs i = Some (ph, pd, pk) ->
  nth_error rs (S i) = Some (h, d, k) ->
  nth_error (fst (tracker_run t rs)) (S i)
  = Some (Z.max 0 (ph - h), Z.max 0 (d - pd), Z.max 0 (k - pk)).
Proof.
  revert t rs. induction i as [|i IH]; intros t rs Hp Hc.
  - destruct rs as [|[[h0 d0] k0] [|[[h1 d1] k1] rs]]; try discriminate.
    simpl in Hp, Hc. injection Hp as -> -> ->. injection Hc as -> -> ->.
    simpl. destruct (tracker_run _ rs). reflexivity.
  - destruct rs as [|[[h0 d0] k0] rs]; [discriminate|].
    simpl in Hp. change (nth_error rs (S i) = Some (h, d, k)) in Hc.
    specialize (IH (store_baseline t h0 d0 k0) rs Hp Hc).
    simpl. destruct (tracker_run (store_baseline t h0 d0 k0) rs).
    exact IH.
Qed.

Lemma write_calls_run (meta : dict) (cs : list call) (t : T0)
      (tr : list io_event) :
  write_calls t meta cs tr
  = (inr (snd (tracker_run t (map call_reading cs))),
     tr ++ flat_map (line_events (jsonl t) meta)
                    (combine cs (fst (tracker_run t (map call_reading cs))))).
Proof.
  revert t tr. induction cs as [|c cs IH]; intros t tr.
  - simpl. unfold ret. now rewrite app_nil_r.
  - cbn [write_calls]. unfold bind. rewrite write_jsonl_unfold.
    rewrite IH. cbn [map tracker_run call_reading reading].
    destruct (tracker_run _ (map call_reading cs)) as [ds t'] eqn:E.
    cbn [fst snd combine flat_map]. f_equal.
    rewrite <- app_assoc. reflexivity.
Qed.
End Tracker.

(** C2. On a fresh recorder, for every sequence of calls of [write_jsonl]:
    the first call reports a damage-in of 0 whatever the health is; every
    later call reports [max 0 (previous health - health)],
    [max 0 (damage dealt - previous damage dealt)] and
    [max 0 (kills - previous kills)], the previous values being those of the
    call before; the baseline after the calls is the reading of the last
    one; and these deltas are what the [combat] section of each written
    record holds. *)
Theorem C2_delta_tracker :
  forall `{PyFloat} (jp fp : option string) (meta : dict) (cs : list call)
         (tr : list io_event),
    let t := mkT0 jp fp None 0 0 in
    let rs := map call_reading cs in
    let ds := fst (tracker_run t rs) in
    let t' := snd (tracker_run t rs) in
    write_calls t meta cs tr
    = (inr t', tr ++ flat_map (line_events jp meta) (combine cs ds))
    /\ List.length ds = List.length cs
    /\ (forall h d k,
           nth_error rs 0 = Some (h, d, k) ->
           nth_error ds 0 = Some (0, Z.max 0 (d - 0), Z.max 0 (k - 0)))
    /\ (forall i ph pd pk h d k,
           nth_error rs i = Some (ph, pd, pk) ->
           nth_error rs (S i) = Some (h, d, k) ->
           nth_error ds (S i)
           = Some (Z.max 0 (ph - h), Z.max 0 (d - pd), Z.max 0 (k - pk)))
    /\ (forall rs' h d k,
           rs = rs' ++ [(h, d, k)] -> baseline t' = (Some h, d, k))
    /\ (forall c din dout dk,
           In (c, (din, dout, dk)) (combine cs ds) ->
           dict_get (attach_crc (tick_record meta (c_now c) (c_vars c)
                                   (din, dout, dk) (c_ammo_used c) (c_step c)))
                    "combat"
           = Some (JObj [("dmg_in_delta", JInt din);
                         ("dmg_out_delta", JInt dout);
                         ("kills_delta", JInt dk)])).
Proof.
  intros F jp fp meta cs tr t rs ds t'.
  split; [apply (write_calls_run meta cs t tr)|].
  split; [unfold ds, rs; now rewrite tracker_run_length, length_map|].
  split.
  { intros h d k Hn. unfold ds.
    destruct rs as [|[[h0 d0] k0] rs0]; [discriminate|].
    simpl in Hn. injection Hn as -> -> ->.
    simpl. now destruct (tracker_run _ rs0). }
  split; [intros; now apply tracker_run_consecutive|].
  split; [intros rs' h d k ->; apply tracker_run_last|].
  intros; apply tick_record_combat.
Qed.

(** C10. Every call of [write_jsonl] returns the recorder with the current
    health, damage dealt and kills as its baseline and with its sinks as
    they were, also when the line sink is disabled, in which case nothing
    is written; and over any sequence of calls a recorder with other sinks
    and the same baseline computes the same deltas and ends with the same
    baseline. *)
Theorem C10_tracker_independent_of_sink :
  forall `{PyFloat} (t : T0) (jp' fp' : option string) (meta : dict)
         (c : call) (cs : list call) (tr : list io_event),
    let u := mkT0 jp' fp' (prev_health t) (prev_dmg_out t) (prev_kills t) in
    (exists t' tr',
        write_jsonl t meta (c_now c) (c_vars c) (c_dmg_out_total c)
                    (c_ammo_used c) (c_step c) tr = (inr t', tr')
        /\ baseline t' = (Some (HEALTH (c_vars c)), c_dmg_out_total c,
                          or_default (KILLCOUNT (c_vars c)) 0)
        /\ jsonl t' = jsonl t /\ fbin t' = fbin t
        /\ (jsonl t = None -> tr' = tr))
    /\ (exists t' u' tr' tr'',
           write_calls t meta cs tr = (inr t', tr')
           /\ write_calls u meta cs tr = (inr u', tr'')
           /\ baseline t' = baseline u'
           /\ fst (tracker_run t (map call_reading cs))
              = fst (tracker_run u (map call_reading cs))).
Proof.
  intros F t jp' fp' meta c cs tr u. split.
  - eexists. eexists. split; [apply write_jsonl_unfold|].
    repeat split. intros ->. now rewrite app_nil_r.
  - destruct (tracker_run_baseline_only (map call_reading cs) t u eq_refl)
      as [Hd Hb].
    eexists. eexists. eexists. eexists.
    split; [apply write_calls_run|].
    split; [apply write_calls_run|].
    split; assumption.
Qed.

(** ** The step loops *)

Lemma In_zrange (a : Z) (n : nat) (x : Z) :
  In x (zrange a n) <-> a <= x < a + Z.of_nat n.
Proof.
  revert a. induction n as [|n IH]; intros a.
  - simpl. lia.
  - cbn [zrange In]. rewrite IH. lia.
Qed.

Lemma events_on_app (p : string) (tr1 tr2 : list io_event) :
  events_on p (tr1 ++ tr2) = events_on p tr1 ++ events_on p tr2.
Proof. apply filter_app. Qed.

Lemma events_on_frame_other (p : string) (f : option string) (tk : tick) :
  f <> Some p -> events_on p (frame_events f tk) = [].
Proof.
  intros Hne. destruct f as [q|]; [|reflexivity].
  unfold events_on. simpl.
  destruct (String.eqb_spec q p) as [->|_]; [now elim Hne|reflexivity].
Qed.

Section LoopFacts.
Context `{PyFloat}.

Lemma events_on_line_same (p : string) (meta : dict)
      (cd : call * (Z * Z * Z)) :
  events_on p (line_events (Some p) meta cd) = line_events (Some p) meta cd.
Proof.
  unfold events_on. simpl. now rewrite String.eqb_refl.
Qed.

(** One recording step: nothing off the cadence; on it, the line (if the
    line sink is enabled), then the frame (if the frame sink is), and
    the baseline moves to the reading of this step. *)
Lemma record_step_spec (cfg : run_config) (meta : dict) (tk : tick)
      (s : loop_state) (tr : list io_event) :
  fbin (t0 s) = None \/ frame_clock_ok tk ->
  record_step cfg meta tk s tr
  = if cadence_hit (t0_every cfg) (step s) then
      (inr (with_t0 s (store_baseline (t0 s) (HEALTH (vars tk))
                         (dmg_out_total s)
                         (or_default (KILLCOUNT (vars tk)) 0))),
       tr ++ line_events (jsonl (t0 s)) meta
               (call_of tk s,
                deltas (t0 s) (HEALTH (vars tk)) (dmg_out_total s)
                       (or_default (KILLCOUNT (vars tk)) 0))
          ++ frame_events (fbin (t0 s)) tk)
    else (inr s, tr).
Proof.
  intros Hok. unfold record_step.
  destruct (cadence_hit (t0_every cfg) (step s)); [|reflexivity].
  unfold bind at 1. rewrite write_jsonl_unfold.
  unfold bind at 1.
  destruct (fbin (t0 s)) as [f|] eqn:Ef.
  - destruct Hok as [Hno|Hok]; [discriminate|].
    rewrite (write_fprime_enabled _ f) by (assumption || exact Ef).
    unfold ret, with_t0, line_events, call_of, frame_events. cbn.
    now rewrite <- !app_assoc.
  - rewrite write_fprime_disabled by exact Ef.
    unfold ret, with_t0, line_events, call_of, frame_events. cbn.
    now rewrite app_nil_r.
Qed.
End LoopFacts.

Lemma made_at_later (tk : tick) (ticks : list tick) (st : Z) (x : call * tick) :
  made_at ticks (st + 1) x -> made_at (tk :: ticks) st x.
Proof.
  intros (Hlt & Hn & Hv & Hc). unfold made_at. repeat split; try assumption.
  - lia.
  - replace (c_step (fst x) - st - 1)
      with (Z.succ (c_step (fst x) - (st + 1) - 1)) by lia.
    rewrite Z2Nat.inj_succ by lia. exact Hn.
Qed.

Section LoopRuns.
Context `{PyFloat}.

Lemma track_path_frame (g : game_vars) (s : loop_state) :
  step (track_path g s) = step s /\ t0 (track_path g s) = t0 s
  /\ dmg_out_total (track_path g s) = dmg_out_total s
  /\ ammo_used (track_path g s) = ammo_used s.
Proof.
  unfold track_path. destruct (POSITION_X g); repeat split.
Qed.

Lemma count_attack_frame (g : game_vars) (s : loop_state) :
  step (count_attack g s) = step s /\ t0 (count_attack g s) = t0 s.
Proof. split; reflexivity. Qed.

(** A loop that stops at its head records nothing. *)
Lemma loop_run_stop (cfg : run_config) (meta : dict) (ticks : list tick)
      (s s' : loop_state) (tr : list io_event) (st : Z) :
  t0 s' = t0 s -> step s' = st ->
  loop_run_spec cfg meta 0 ticks s tr (inr s', tr) st.
Proof.
  intros Ht Hst. exists [], s'. simpl. rewrite app_nil_r.
  repeat split; [exact Ht | exact Hst | constructor].
Qed.

(** One iteration that records (or not) in the state [s3], followed by a
    run of the rest of the loop. *)
Lemma loop_run_step (cfg : run_config) (meta : dict) (n : nat)
      (tk : tick) (rest : list tick) (s s3 : loop_state)
      (tr : list io_event) (k : loop_state -> io loop_state) (last_step : Z) :
  step s3 = step s + 1 -> t0 s3 = t0 s ->
  fbin (t0 s) = None \/ frame_clock_ok tk ->
  (forall s4 tr4, step s4 = step s3 -> jsonl (t0 s4) = jsonl (t0 s) ->
                  fbin (t0 s4) = fbin (t0 s) ->
                  loop_run_spec cfg meta n rest s4 tr4 (k s4 tr4) last_step) ->
  loop_run_spec cfg meta (S n) (tk :: rest) s tr
                (bind (record_step cfg meta tk s3) k tr) last_step.
Proof.
  intros Hstep Ht0 Hok Hrest.
  unfold bind. rewrite record_step_spec by (now rewrite Ht0).
  cbn [zrange filter]. rewrite Hstep, Ht0.
  destruct (cadence_hit (t0_every cfg) (step s + 1)) eqn:Ehit.
  - set (rd := store_baseline (t0 s) (HEALTH (vars tk)) (dmg_out_total s3)
                 (or_default (KILLCOUNT (vars tk)) 0)).
    destruct (Hrest (with_t0 s3 rd) 
                (tr ++ line_events (jsonl (t0 s)) meta
                   (call_of tk s3,
                    deltas (t0 s) (HEALTH (vars tk)) (dmg_out_total s3)
                           (or_default (KILLCOUNT (vars tk)) 0))
                    ++ frame_events (fbin (t0 s)) tk)
                eq_refl eq_refl eq_refl)
      as (ct & s' & Hout & Ht & Hs & Hsteps & Hmade).
    exists ((call_of tk s3, tk) :: ct), s'.
    cbn [map fst snd tracker_run call_reading reading call_of c_vars
             c_dmg_out_total].
    cbn [with_t0 t0 step jsonl fbin store_baseline] in Hout, Ht, Hsteps, Hmade.
    fold rd.
    destruct (tracker_run rd (map call_reading (map fst ct))) as [ds t'] eqn:E.
    cbn [fst snd combine flat_map] in *.
    split.
    { rewrite Hout. f_equal. unfold emission_events at 2. cbn [fst snd].
      now rewrite <- !app_assoc. }
    split; [exact Ht|]. split; [exact Hs|].
    split.
    { cbn [zrange filter c_step call_of]. rewrite Hstep, Ehit. f_equal.
      rewrite Hsteps, Hstep. reflexivity. }
    constructor.
    + unfold made_at. cbn [fst snd call_of c_step c_vars c_now].
      rewrite Hstep. repeat split; [lia|].
      replace (step s + 1 - step s - 1) with 0 by lia. reflexivity.
    + rewrite Hstep in Hmade.
      eapply Forall_impl; [|exact Hmade]. intros x. apply made_at_later.
  - destruct (Hrest s3 tr eq_refl (f_equal jsonl Ht0) (f_equal fbin Ht0))
      as (ct & s' & Hout & Ht & Hs & Hsteps & Hmade).
    exists ct, s'. rewrite Ht0, Hstep in *.
    split; [exact Hout|]. split; [exact Ht|]. split; [exact Hs|].
    split; [cbn [zrange filter]; rewrite Ehit; exact Hsteps|].
    eapply Forall_impl; [|exact Hmade]. intros x. apply made_at_later.
Qed.

Lemma frames_ok_head (t : T0) (tk : tick) (rest : list tick) :
  frames_ok t (tk :: rest) -> fbin t = None \/ frame_clock_ok tk.
Proof.
  intros [Hn|Hf]; [now left | right; now inversion Hf].
Qed.

Lemma frames_ok_tail (t t' : T0) (tk : tick) (rest : list tick) :
  fbin t' = fbin t -> frames_ok t (tk :: rest) -> frames_ok t' rest.
Proof.
  intros E [Hn|Hf]; [left; congruence | right; now inversion Hf].
Qed.

Lemma episode_loop_run (cfg : run_config) (ticks : list tick) :
  forall (s : loop_state) (tr : list io_event),
    frames_ok (t0 s) ticks ->
    loop_run_spec cfg meta_episode
                  (episode_iterations cfg ticks (step s)) ticks s tr
                  (episode_loop cfg ticks s tr)
                  (step s + Z.of_nat (episode_iterations cfg ticks (step s))).
Proof.
  induction ticks as [|tk rest IH]; intros s tr Hok.
  - apply loop_run_stop; [reflexivity | simpl; lia].
  - cbn [episode_loop episode_iterations].
    destruct (episode_finished tk);
      [apply loop_run_stop; [reflexivity | simpl; lia]|].
    destruct (negb (steps cfg =? 0) && (step s >=? steps cfg));
      [apply loop_run_stop; [reflexivity | simpl; lia]|].
    rewrite Nat2Z.inj_succ.
    replace (step s + Z.succ (Z.of_nat (episode_iterations cfg rest (step s + 1))))
      with (step s + 1 + Z.of_nat (episode_iterations cfg rest (step s + 1)))
      by lia.
    apply loop_run_step; [| |exact (frames_ok_head _ _ _ Hok)|].
    + destruct (has_button cfg "ATTACK"); cbn [count_attack step];
        now rewrite (proj1 (track_path_frame _ _)).
    + destruct (has_button cfg "ATTACK"); cbn [count_attack t0];
        now rewrite (proj1 (proj2 (track_path_frame _ _))).
    + intros s4 tr4 Hs4 _ Hfb.
      assert (E : step s4 = step s + 1).
      { rewrite Hs4. destruct (has_button cfg "ATTACK");
          cbn [count_attack step];
          now rewrite (proj1 (track_path_frame _ _)). }
      rewrite <- E. apply IH. exact (frames_ok_tail _ _ _ _ Hfb Hok).
Qed.

Lemma manual_loop_run (cfg : run_config) (ticks : list tick) :
  forall (s : loop_state) (tr : list io_event),
    frames_ok (t0 s) ticks ->
    loop_run_spec cfg meta_manual
                  (manual_iterations cfg ticks (step s)) ticks s tr
                  (manual_loop cfg ticks s tr)
                  (manual_final_step cfg ticks (step s)).
Proof.
  induction ticks as [|tk rest IH]; intros s tr Hok.
  - now apply loop_run_stop.
  - cbn [manual_loop manual_iterations manual_final_step].
    destruct (episode_finished tk && negb (auto_restart cfg));
      [now apply loop_run_stop|].
    destruct (negb (steps cfg =? 0) && (step s >=? steps cfg));
      [now apply loop_run_stop|].
    destruct (quit_requested tk); [now apply loop_run_stop|].
    apply loop_run_step; [| |exact (frames_ok_head _ _ _ Hok)|].
    + now destruct (has_button cfg "ATTACK" && attack_pressed tk).
    + now destruct (has_button cfg "ATTACK" && attack_pressed tk).
    + intros s4 tr4 Hs4 _ Hfb.
      assert (E : step s4 = step s + 1).
      { rewrite Hs4.
        now destruct (has_button cfg "ATTACK" && attack_pressed tk). }
      rewrite <- E. apply IH. exact (frames_ok_tail _ _ _ _ Hfb Hok).
Qed.
End LoopRuns.

(** ** Whole runs *)

Lemma open_sink_spec (path : option string) (tr : list io_event) :
  open_sink path tr = (inr (sink_of path), tr ++ open_events (sink_of path)).
Proof.
  destruct path as [[|c p]|]; cbn; unfold ret; now rewrite ?app_nil_r.
Qed.

Lemma T0_init_spec (jp fp : option string) (tr : list io_event) :
  T0_init jp fp tr
  = (inr (mkT0 (sink_of jp) (sink_of fp) None 0 0),
     tr ++ open_events (sink_of jp) ++ open_events (sink_of fp)).
Proof.
  unfold T0_init, bind. rewrite !open_sink_spec. unfold ret.
  now rewrite <- app_assoc.
Qed.

Lemma T0_close_spec (t : T0) (tr : list io_event) :
  T0_close t tr
  = (inr tt, tr ++ close_events (jsonl t) ++ close_events (fbin t)).
Proof.
  unfold T0_close, bind, close_sink.
  destruct (jsonl t), (fbin t); cbn; unfold ret, emit;
    now rewrite <- ?app_assoc, ?app_nil_r.
Qed.

Lemma sink_of_Some (path : option string) (p : string) :
  sink_of path = Some p <-> path = Some p /\ p <> "".
Proof.
  destruct path as [[|c q]|]; simpl; split.
  - discriminate.
  - intros [E Hne]. injection E as <-. now elim Hne.
  - intros E. injection E as <-. split; [reflexivity|discriminate].
  - intros [E _]. exact E.
  - discriminate.
  - intros [E _]. discriminate.
Qed.

Section RunFacts.
Context `{PyFloat}.

Lemma run_episode_shape (cfg : run_config) (ticks : list tick) (now : Q)
      (draw : nat) (tr : list io_event) :
  sink_of (fprime_frames cfg) = None \/ Forall frame_clock_ok ticks ->
  exists (ct : list (call * tick)) (s' : loop_state),
    run_episode cfg ticks now draw tr
    = (inr (attach_crc (episode_summary cfg s' now draw)),
       tr ++ run_trace cfg meta_episode ct)
    /\ step s' = Z.of_nat (episode_iterations cfg ticks 0)
    /\ map c_step (map fst ct)
       = filter (cadence_hit (t0_every cfg))
                (zrange 1 (episode_iterations cfg ticks 0))
    /\ Forall (made_at ticks 0) ct.
Proof.
  intros Hok.
  set (t := mkT0 (sink_of (t0_jsonl cfg)) (sink_of (fprime_frames cfg))
                 None 0 0).
  destruct (episode_loop_run cfg ticks (loop_start t)
              (tr ++ open_events (sink_of (t0_jsonl cfg))
                  ++ open_events (sink_of (fprime_frames cfg))) Hok)
    as (ct & s' & Hout & Ht & Hs & Hsteps & Hmade).
  exists ct, s'.
  split; [|split; [exact Hs | split; [exact Hsteps | exact Hmade]]].
  unfold run_episode. unfold bind at 1. rewrite T0_init_spec. fold t.
  unfold bind, finally. rewrite Hout, T0_close_spec.
  unfold ret, run_trace. cbn [loop_start t0 t jsonl fbin].
  now rewrite <- !app_assoc.
Qed.

Lemma play_manual_shape (cfg : run_config) (ticks : list tick)
      (tr : list io_event) :
  sink_of (fprime_frames cfg) = None \/ Forall frame_clock_ok ticks ->
  exists ct : list (call * tick),
    play_manual cfg ticks tr
    = (inr (manual_final_step cfg ticks 0),
       tr ++ run_trace cfg meta_manual ct)
    /\ map c_step (map fst ct)
       = filter (cadence_hit (t0_every cfg))
                (zrange 1 (manual_iterations cfg ticks 0))
    /\ Forall (made_at ticks 0) ct.
Proof.
  intros Hok.
  set (t := mkT0 (sink_of (t0_jsonl cfg)) (sink_of (fprime_frames cfg))
                 None 0 0).
  destruct (manual_loop_run cfg ticks (loop_start t)
              (tr ++ open_events (sink_of (t0_jsonl cfg))
                  ++ open_events (sink_of (fprime_frames cfg))) Hok)
    as (ct & s' & Hout & Ht & Hs & Hsteps & Hmade).
  exists ct.
  split; [|split; [exact Hsteps | exact Hmade]].
  unfold play_manual. unfold bind at 1. rewrite T0_init_spec. fold t.
  unfold bind, finally. rewrite Hout, T0_close_spec.
  unfold ret, run_trace. cbn [loop_start t0 t jsonl fbin].
  rewrite Hs. now rewrite <- !app_assoc.
Qed.
End RunFacts.

(** ** The cadence of the records *)

Lemma combine_map_fst {A B C : Type} (l : list (A * B)) (ds : list C) :
  map (fun e => (fst (fst e), snd e)) (combine l ds) = combine (map fst l) ds.
Proof.
  revert ds. induction l as [|[a b] l IH]; intros [|d ds]; simpl;
    try reflexivity.
  now rewrite IH.
Qed.

Lemma cadence_hit_zero (st : Z) : cadence_hit 0 st = false.
Proof. reflexivity. Qed.

Lemma cadence_hit_iff (every st : Z) :
  cadence_hit every st = true <-> every <> 0 /\ st mod every = 0.
Proof.
  unfold cadence_hit. rewrite andb_true_iff, negb_true_iff.
  rewrite Z.eqb_neq, Z.eqb_eq. reflexivity.
Qed.

Section Cadence.
Context `{PyFloat}.

Lemma events_on_emissions (p : string) (f : option string) (meta : dict)
      (l : list (call * tick * (Z * Z * Z))) :
  f <> Some p ->
  events_on p (flat_map (emission_events (Some p) f meta) l)
  = flat_map (line_events (Some p) meta)
             (map (fun e => (fst (fst e), snd e)) l).
Proof.
  intros Hne. induction l as [|e l IH]; [reflexivity|].
  cbn [flat_map map]. rewrite events_on_app, IH.
  unfold emission_events at 1.
  rewrite events_on_app, events_on_line_same, events_on_frame_other
    by exact Hne.
  now rewrite app_nil_r.
Qed.

Lemma made_at_health (ticks : list tick) (x : call * tick) (i : nat) (h : Z) :
  made_at ticks 0 x -> c_step (fst x) = Z.of_nat (S i) ->
  nth_error (map (fun tk => HEALTH (vars tk)) ticks) i = Some h ->
  HEALTH (c_vars (fst x)) = h.
Proof.
  intros (_ & Hn & Hv & _) Hs Hh. rewrite Hs in Hn.
  replace (Z.to_nat (Z.of_nat (S i) - 0 - 1)) with i in Hn by lia.
  rewrite nth_error_map, Hn in Hh. simpl in Hh. rewrite Hv. congruence.
Qed.

Lemma records_on_cadence_intro (cfg : run_config) (meta : dict)
      (ticks : list tick) (n : nat) (p : string) (tr : list io_event)
      (ct : list (call * tick)) :
  sink_of (t0_jsonl cfg) = Some p ->
  sink_of (fprime_frames cfg) <> Some p ->
  tr = run_trace cfg meta ct ->
  map c_step (map fst ct) = filter (cadence_hit (t0_every cfg)) (zrange 1 n) ->
  Forall (made_at ticks 0) ct ->
  records_on_cadence cfg meta ticks n p tr.
Proof.
  intros Hj Hf -> Hsteps Hmade. exists ct. cbv zeta.
  set (cs := map fst ct) in *.
  set (t := mkT0 (Some p) (sink_of (fprime_frames cfg)) None 0 0).
  set (ds := fst (tracker_run t (map call_reading cs))).
  assert (Htrace : events_on p (run_trace cfg meta ct)
                   = IoOpen p :: flat_map (line_events (Some p) meta)
                                          (combine cs ds) ++ [IoClose p]).
  { unfold run_trace. cbv zeta. rewrite Hj. fold cs t ds.
    rewrite !events_on_app, events_on_emissions by exact Hf.
    rewrite combine_map_fst. fold cs.
    assert (Ho : events_on p (open_events (sink_of (fprime_frames cfg))) = []).
    { destruct (sink_of (fprime_frames cfg)) as [q|]; [|reflexivity].
      unfold events_on. simpl.
      destruct (String.eqb_spec q p) as [->|_]; [now elim Hf|reflexivity]. }
    assert (Hc : events_on p (close_events (sink_of (fprime_frames cfg))) = []).
    { destruct (sink_of (fprime_frames cfg)) as [q|]; [|reflexivity].
      unfold events_on. simpl.
      destruct (String.eqb_spec q p) as [->|_]; [now elim Hf|reflexivity]. }
    rewrite Ho, Hc. unfold events_on. simpl. rewrite String.eqb_refl.
    now rewrite app_nil_r. }
  split; [exact Htrace|]. split; [exact Hsteps|].
  split.
  { intros st. rewrite Hsteps, filter_In, In_zrange, cadence_hit_iff. lia. }
  split; [exact Hmade|].
  split; [unfold ds; now rewrite tracker_run_length, length_map|].
  split.
  { intros din dout dk. unfold ds.
    destruct cs as [|c cs']; [discriminate|].
    cbn [map]. unfold call_reading at 1, reading.
    rewrite tracker_run_cons. cbn. intros E. now injection E as <- _ _. }
  split.
  { intros i a b din dout dk Ha Hb.
    pose proof (tracker_run_consecutive (map call_reading cs) t i
                  (HEALTH (c_vars a)) (c_dmg_out_total a)
                  (or_default (KILLCOUNT (c_vars a)) 0)
                  (HEALTH (c_vars b)) (c_dmg_out_total b)
                  (or_default (KILLCOUNT (c_vars b)) 0)) as Hcons.
    rewrite !nth_error_map, Ha, Hb in Hcons. fold ds in Hcons.
    rewrite (Hcons eq_refl eq_refl). intros E. now injection E as <- _ _. }
  split.
  { intros H0. rewrite H0 in Hsteps.
    assert (Hnil : cs = []).
    { destruct cs; [reflexivity|]. exfalso.
      assert (Hin : In (c_step c) (filter (cadence_hit 0) (zrange 1 n)))
        by (rewrite <- Hsteps; now left).
      apply filter_In in Hin. destruct Hin as [_ Hin]. discriminate. }
    rewrite Htrace, Hnil. reflexivity. }
  intros H5 Hn Hh. rewrite H5, Hn in Hsteps.
  change (filter (cadence_hit 5) (zrange 1 12)) with [5; 10] in Hsteps.
  unfold cs in *.
  destruct ct as [|x5 [|x10 [|x ct]]]; try discriminate.
  cbn [map] in Hsteps. injection Hsteps as H5s H10s.
  inversion Hmade as [|? ? M5 Hmade']; subst.
  inversion Hmade' as [|? ? M10 _]; subst.
  pose proof (made_at_health ticks x5 4 90 M5 H5s) as E5.
  pose proof (made_at_health ticks x10 9 80 M10 H10s) as E10.
  rewrite Hh in E5, E10. specialize (E5 eq_refl). specialize (E10 eq_refl).
  exists (fst x5), (fst x10).
  exists (Z.max 0 (c_dmg_out_total (fst x5) - 0)),
         (Z.max 0 (or_default (KILLCOUNT (c_vars (fst x5))) 0 - 0)),
         (Z.max 0 (c_dmg_out_total (fst x10) - c_dmg_out_total (fst x5))),
         (Z.max 0 (or_default (KILLCOUNT (c_vars (fst x10))) 0
                   - or_default (KILLCOUNT (c_vars (fst x5))) 0)).
  repeat split; try assumption.
  unfold ds. cbn [map]. unfold call_reading, reading.
  rewrite !tracker_run_cons. cbn. rewrite E5, E10. reflexivity.
Qed.
End Cadence.

(** C3, as the code has it. With the line sink enabled (and, when the
    frame sink is enabled too, timestamps that fit a frame), a run leaves
    one record for every step
    of the run at which the cadence is non-zero and divides the step
    counter, and for no other step; with cadence 0 it leaves none. The
    first record has a damage-in of 0 and every later one the health lost
    since the record before it. With cadence 5 and the 12 ticks of the
    scenario the records are those of steps 5 and 10, with a damage-in of 0
    and of 10 (health 90 at step 5, 80 at step 10). This holds for
    [run_episode] and for [play_manual]. *)
Theorem C3_records_on_cadence :
  forall `{PyFloat} (cfg : run_config) (ticks : list tick) (now : Q)
         (draw : nat) (p : string),
    t0_jsonl cfg = Some p -> p <> "" ->
    fprime_frames cfg <> Some p ->
    sink_of (fprime_frames cfg) = None \/ Forall frame_clock_ok ticks ->
    records_on_cadence cfg meta_episode ticks
                       (episode_iterations cfg ticks 0) p
                       (snd (run_episode cfg ticks now draw []))
    /\ records_on_cadence cfg meta_manual ticks
                          (manual_iterations cfg ticks 0) p
                          (snd (play_manual cfg ticks [])).
Proof.
  intros F cfg ticks now draw p Hj Hp Hf Hok.
  assert (Hsj : sink_of (t0_jsonl cfg) = Some p)
    by (apply sink_of_Some; now split).
  assert (Hsf : sink_of (fprime_frames cfg) <> Some p).
  { intros E. apply sink_of_Some in E. now apply Hf. }
  split.
  - destruct (run_episode_shape cfg ticks now draw [] Hok)
      as (ct & s' & Hrun & _ & Hsteps & Hmade).
    apply (records_on_cadence_intro cfg meta_episode ticks _ p _ ct);
      try assumption.
    now rewrite Hrun.
  - destruct (play_manual_shape cfg ticks [] Hok)
      as (ct & Hrun & Hsteps & Hmade).
    apply (records_on_cadence_intro cfg meta_manual ticks _ p _ ct);
      try assumption.
    now rewrite Hrun.
Qed.

Lemma C3_records_on_cadence_witness :
  let F := sample_float in
  let p := "t0.jsonl" in
  let cfg := mkConfig 0 0 5 (Some p) None false ["ATTACK"] in
  exists c5 c10 o5 k5 o10 k10,
    events_on p (snd (run_episode cfg scenario_ticks 0 0%nat []))
    = [IoOpen p;
       IoWrite p (jsonl_line (attach_crc
                    (tick_record meta_episode (c_now c5) (c_vars c5)
                                 (0, o5, k5) (c_ammo_used c5) 5)));
       IoFlush p;
       IoWrite p (jsonl_line (attach_crc
                    (tick_record meta_episode (c_now c10) (c_vars c10)
                                 (10, o10, k10) (c_ammo_used c10) 10)));
       IoFlush p;
       IoClose p]
    /\ HEALTH (c_vars c5) = 90 /\ HEALTH (c_vars c10) = 80.
Proof.
  intros F p cfg.
  destruct (C3_records_on_cadence cfg scenario_ticks 0 0%nat p eq_refl
              ltac:(discriminate) ltac:(discriminate) (or_introl eq_refl))
    as [(ct & Htrace & _ & _ & _ & _ & _ & _ & _ & Hscen) _].
  destruct (Hscen eq_refl eq_refl eq_refl)
    as (c5 & c10 & o5 & k5 & o10 & k10 & Hcs & H5 & H10 & Hh5 & Hh10 & Hds).
  exists c5, c10, o5, k5, o10, k10.
  rewrite Htrace. rewrite Hcs in Hds |- *. rewrite Hds.
  cbn [combine flat_map line_events fst snd app].
  rewrite H5, H10. repeat split; assumption.
Defined.

(** C3, as the specification states it, fails for the first record: in
    the scenario the health falls from 100 to 90 over the five ticks
    before the record of step 5, and that record reports a damage-in of
    0, since the tracker has no baseline before its first call. *)
Lemma C3_counterexample_first_record :
  let F := sample_float in
  let p := "t0.jsonl" in
  let cfg := mkConfig 0 0 5 (Some p) None false ["ATTACK"] in
  map (fun tk => HEALTH (vars tk)) (firstn 5 scenario_ticks)
  = [100; 100; 95; 95; 90]
  /\ exists c5 c10 o5 k5 o10 k10,
      events_on p (snd (run_episode cfg scenario_ticks 0 0%nat []))
      = [IoOpen p;
         IoWrite p (jsonl_line (attach_crc
                      (tick_record meta_episode (c_now c5) (c_vars c5)
                                   (0, o5, k5) (c_ammo_used c5) 5)));
         IoFlush p;
         IoWrite p (jsonl_line (attach_crc
                      (tick_record meta_episode (c_now c10) (c_vars c10)
                                   (10, o10, k10) (c_ammo_used c10) 10)));
         IoFlush p;
         IoClose p]
      /\ HEALTH (c_vars c5) = 90
      /\ dict_get (attach_crc
                     (tick_record meta_episode (c_now c5) (c_vars c5)
                                  (0, o5, k5) (c_ammo_used c5) 5))
                  "combat"
         = Some (JObj [("dmg_in_delta", JInt 0); ("dmg_out_delta", JInt o5);
                       ("kills_delta", JInt k5)]).
Proof.
  intros F p cfg. split; [reflexivity|].
  destruct (@run_episode_shape F cfg scenario_ticks 0 0%nat []
              (or_introl eq_refl))
    as (ct & s' & Hrun & _ & Hsteps & Hmade).
  assert (Hrec : records_on_cadence cfg meta_episode scenario_ticks
                   (episode_iterations cfg scenario_ticks 0) p
                   (snd (run_episode cfg scenario_ticks 0 0%nat []))).
  { apply (records_on_cadence_intro cfg meta_episode scenario_ticks _ p _ ct);
      [reflexivity | discriminate | now rewrite Hrun | exact Hsteps
       | exact Hmade]. }
  clear Hrun Hsteps Hmade.
  destruct Hrec as (ct' & Htrace & _ & _ & _ & _ & _ & _ & _ & Hscen).
  destruct (Hscen eq_refl eq_refl eq_refl)
    as (c5 & c10 & o5 & k5 & o10 & k10 & Hcs & H5 & H10 & Hh5 & Hh10 & Hds).
  exists c5, c10, o5, k5, o10, k10.
  rewrite Htrace. rewrite Hcs in Hds |- *. rewrite Hds.
  cbn [combine flat_map line_events fst snd app].
  rewrite H5, H10.
  split; [reflexivity|]. split; [exact Hh5|]. apply tick_record_combat.
Qed.

(** ** Disabled sinks *)

Section DisabledSinks.
Context `{PyFloat}.

Lemma write_calls_line_disabled (meta : dict) (cs : list call) (t : T0)
      (tr : list io_event) :
  jsonl t = None ->
  exists t', write_calls t meta cs tr = (inr t', tr)
             /\ jsonl t' = None /\ fbin t' = fbin t.
Proof.
  intros Hj. rewrite write_calls_run, Hj.
  destruct (tracker_run_sinks (map call_reading cs) t) as [Ej Ef].
  eexists. split; [|split; [now rewrite Ej | exact Ef]].
  f_equal. rewrite <- (app_nil_r tr) at 2. f_equal.
  induction (combine cs (fst (tracker_run t (map call_reading cs))));
    [reflexivity | exact IHl].
Qed.

(** With the frame sink disabled a run writes lines only. *)
Lemma run_trace_lines_only (cfg : run_config) (meta : dict)
      (ct : list (call * tick)) :
  sink_of (fprime_frames cfg) = None ->
  exists cds : list (call * (Z * Z * Z)),
    run_trace cfg meta ct
    = open_events (sink_of (t0_jsonl cfg))
        ++ flat_map (line_events (sink_of (t0_jsonl cfg)) meta) cds
        ++ close_events (sink_of (t0_jsonl cfg)).
Proof.
  intros Hf. unfold run_trace. cbv zeta. rewrite Hf.
  exists (map (fun e => (fst (fst e), snd e))
              (combine ct (fst (tracker_run
                                  (mkT0 (sink_of (t0_jsonl cfg)) None None 0 0)
                                  (map call_reading (map fst ct)))))).
  cbn [open_events close_events]. rewrite !app_nil_r. f_equal. f_equal.
  induction (combine ct _) as [|e l IH]; [reflexivity|].
  cbn [flat_map map]. rewrite IH. unfold emission_events at 1.
  cbn [frame_events]. now rewrite app_nil_r.
Qed.

(** With the line sink disabled a run writes frames only. *)
Lemma run_trace_frames_only (cfg : run_config) (meta : dict)
      (ct : list (call * tick)) :
  sink_of (t0_jsonl cfg) = None ->
  run_trace cfg meta ct
  = open_events (sink_of (fprime_frames cfg))
      ++ flat_map (frame_events (sink_of (fprime_frames cfg))) (map snd ct)
      ++ close_events (sink_of (fprime_frames cfg)).
Proof.
  intros Hj. unfold run_trace. cbv zeta. rewrite Hj.
  cbn [open_events close_events app]. f_equal. f_equal.
  set (ds := fst (tracker_run _ _)).
  assert (Hlen : List.length ds = List.length ct)
    by (unfold ds; now rewrite tracker_run_length, !length_map).
  clearbody ds. revert ds Hlen.
  induction ct as [|x ct IH]; intros [|d ds] Hlen; try discriminate;
    [reflexivity|].
  cbn [combine flat_map map]. rewrite IH by (simpl in Hlen; lia).
  reflexivity.
Qed.

Lemma flat_map_frame_events_None (tks : list tick) :
  flat_map (frame_events None) tks = [].
Proof. induction tks; [reflexivity | exact IHtks]. Qed.
End DisabledSinks.

(** C6. A recorder made with no destination for a sink does nothing to that
    sink and raises nothing. With no line destination, [write_jsonl] leaves
    the trace of file operations as it was, over any sequence of calls.
    With no frame destination, [write_fprime] leaves it as it was, also for
    a timestamp [struct.pack] would refuse. A whole run with neither
    destination performs no file operation at all and ends normally; with
    one destination only, every file operation of the run is on that
    sink. *)
Theorem C6_disabled_sink_is_noop :
  forall `{PyFloat} (other : option string) (ph : option Z) (pd pk : Z)
         (meta : dict) (cs : list call) (now : Q) (g : game_vars)
         (cfg : run_config) (ticks : list tick) (end_now : Q) (draw : nat)
         (tr : list io_event),
    (exists t, T0_init None other tr = (inr t, tr ++ open_events (sink_of other))
               /\ jsonl t = None)
    /\ (exists t, T0_init other None tr
                  = (inr t, tr ++ open_events (sink_of other))
                  /\ fbin t = None)
    /\ (exists t', write_calls (mkT0 None other ph pd pk) meta cs tr
                   = (inr t', tr)
                   /\ jsonl t' = None /\ fbin t' = other)
    /\ write_fprime (mkT0 other None ph pd pk) now g tr = (inr tt, tr)
    /\ (t0_jsonl cfg = None -> fprime_frames cfg = None ->
        (exists summary, run_episode cfg ticks end_now draw tr
                         = (inr summary, tr))
        /\ play_manual cfg ticks tr = (inr (manual_final_step cfg ticks 0), tr))
    /\ (fprime_frames cfg = None ->
        exists summary cds,
          run_episode cfg ticks end_now draw tr
          = (inr summary,
             tr ++ open_events (sink_of (t0_jsonl cfg))
                ++ flat_map (line_events (sink_of (t0_jsonl cfg)) meta_episode)
                            cds
                ++ close_events (sink_of (t0_jsonl cfg))))
    /\ (t0_jsonl cfg = None -> Forall frame_clock_ok ticks ->
        exists summary tks,
          run_episode cfg ticks end_now draw tr
          = (inr summary,
             tr ++ open_events (sink_of (fprime_frames cfg))
                ++ flat_map (frame_events (sink_of (fprime_frames cfg))) tks
                ++ close_events (sink_of (fprime_frames cfg)))).
Proof.
  intros F other ph pd pk meta cs now g cfg ticks end_now draw tr.
  split.
  { eexists. rewrite T0_init_spec. split; reflexivity. }
  split.
  { eexists. rewrite T0_init_spec. cbn [sink_of open_events].
    rewrite app_nil_r. split; reflexivity. }
  split; [now apply write_calls_line_disabled|].
  split; [now apply write_fprime_disabled|].
  split.
  { intros Hj Hf.
    assert (Hsf : sink_of (fprime_frames cfg) = None) by now rewrite Hf.
    assert (Hsj : sink_of (t0_jsonl cfg) = None) by now rewrite Hj.
    split.
    - destruct (run_episode_shape cfg ticks end_now draw tr (or_introl Hsf))
        as (ct & s' & Hrun & _).
      eexists. rewrite Hrun. f_equal.
      rewrite run_trace_frames_only, Hsf by exact Hsj.
      rewrite flat_map_frame_events_None. cbn. now rewrite app_nil_r.
    - destruct (play_manual_shape cfg ticks tr (or_introl Hsf))
        as (ct & Hrun & _).
      rewrite Hrun. f_equal.
      rewrite run_trace_frames_only, Hsf by exact Hsj.
      rewrite flat_map_frame_events_None. cbn. now rewrite app_nil_r. }
  split.
  { intros Hf.
    assert (Hsf : sink_of (fprime_frames cfg) = None) by now rewrite Hf.
    destruct (run_episode_shape cfg ticks end_now draw tr (or_introl Hsf))
      as (ct & s' & Hrun & _).
    destruct (run_trace_lines_only cfg meta_episode ct Hsf) as [cds Hcds].
    eexists. exists cds. rewrite Hrun, Hcds. reflexivity. }
  intros Hj Hok.
  assert (Hsj : sink_of (t0_jsonl cfg) = None) by now rewrite Hj.
  destruct (run_episode_shape cfg ticks end_now draw tr (or_intror Hok))
    as (ct & s' & Hrun & _).
  eexists. exists (map snd ct). rewrite Hrun.
  now rewrite run_trace_frames_only by exact Hsj.
Qed.

(** ** Session metadata *)

Lemma dict_get_update (m d : dict) (k : string) :
  NoDup (keys m) ->
  dict_get (dict_update d m) k
  = match dict_get m k with
    | Some v => Some v
    | None => dict_get d k
    end.
Proof.
  unfold dict_update. revert d.
  induction m as [|[k' v'] m IH]; intros d Hnd; [reflexivity|].
  inversion Hnd as [|? ? Hnotin Hnd']; subst.
  cbn [fold_left fst snd dict_get]. rewrite IH by exact Hnd'.
  destruct (String.eqb_spec k k') as [->|Hne].
  - apply dict_get_None_notin in Hnotin. rewrite Hnotin.
    apply dict_get_set_same.
  - now rewrite dict_get_set_other by exact Hne.
Qed.

Section Metadata.
Context `{PyFloat}.

(** A key of the metadata that [write_jsonl] does not assign itself
    reaches the record with the value the metadata gives it. *)
Lemma tick_record_meta_item (meta : dict) (now : Q) (g : game_vars)
      (d : Z * Z * Z) (ammo : list (string * Z)) (st : Z)
      (k : string) (v : json) :
  NoDup (keys meta) -> dict_get meta k = Some v -> ~ In k tick_own_keys ->
  dict_get (attach_crc (tick_record meta now g d ammo st)) k = Some v.
Proof.
  intros Hnd Hk Hown. destruct d as [[din dout] dk].
  unfold attach_crc. rewrite dict_get_set_other
    by (intros ->; apply Hown; unfold tick_own_keys; simpl; tauto).
  unfold tick_record.
  rewrite dict_get_update
    by (cbn; repeat constructor; simpl; intuition discriminate).
  match goal with
  | |- match dict_get ?post k with _ => _ end = _ =>
    assert (Hpost : dict_get post k = None)
  end.
  { apply dict_get_None_notin. cbn. intros Hin. apply Hown.
    unfold tick_own_keys. simpl. tauto. }
  rewrite Hpost, dict_get_update, Hk by exact Hnd. reflexivity.
Qed.

(** A key that neither the metadata nor [write_jsonl] provides is not in
    the record. *)
Lemma tick_record_missing (meta : dict) (now : Q) (g : game_vars)
      (d : Z * Z * Z) (ammo : list (string * Z)) (st : Z) (k : string) :
  NoDup (keys meta) -> dict_get meta k = None ->
  ~ In k tick_own_keys -> ~ In k tick_head_keys ->
  dict_get (attach_crc (tick_record meta now g d ammo st)) k = None.
Proof.
  intros Hnd Hk Hown Hhead. destruct d as [[din dout] dk].
  unfold attach_crc. rewrite dict_get_set_other
    by (intros ->; apply Hown; unfold tick_own_keys; simpl; tauto).
  unfold tick_record.
  rewrite dict_get_update
    by (cbn; repeat constructor; simpl; intuition discriminate).
  match goal with
  | |- match dict_get ?post k with _ => _ end = _ =>
    assert (Hpost : dict_get post k = None)
  end.
  { apply dict_get_None_notin. cbn. intros Hin. apply Hown.
    unfold tick_own_keys. simpl. tauto. }
  rewrite Hpost, dict_get_update, Hk by exact Hnd.
  apply dict_get_None_notin. cbn. intros Hin. apply Hhead.
  unfold tick_head_keys. simpl. tauto.
Qed.
End Metadata.

(** C7, as the code has it. No code checks session metadata for its
    identifiers: [write_jsonl] builds the record from the metadata as it is
    given and, on an enabled line sink, writes that record; every item of
    the metadata that the recorder does not assign itself is in the record
    with the metadata's value, and an identifier the metadata lacks is
    missing from the record. The metadata of [run_episode] and of
    [play_manual] is a literal of the code that holds all six identifiers,
    and every record made from it carries them. *)
Theorem C7_metadata_is_not_validated :
  forall `{PyFloat} (t : T0) (meta : dict) (now : Q) (g : game_vars)
         (dmg : Z) (ammo : list (string * Z)) (st : Z) (d : Z * Z * Z)
         (tr : list io_event),
    (forall f,
        jsonl t = Some f ->
        snd (write_jsonl t meta now g dmg ammo st tr)
        = tr ++ [IoWrite f
                   (jsonl_line
                      (attach_crc
                         (tick_record meta now g
                            (deltas t (HEALTH g) dmg
                                    (or_default (KILLCOUNT g) 0))
                            ammo st)));
                 IoFlush f])
    /\ (forall k v,
           NoDup (keys meta) -> dict_get meta k = Some v ->
           ~ In k tick_own_keys ->
           dict_get (attach_crc (tick_record meta now g d ammo st)) k = Some v)
    /\ (forall k,
           NoDup (keys meta) -> In k identifiers -> dict_get meta k = None ->
           dict_get (attach_crc (tick_record meta now g d ammo st)) k = None)
    /\ map (dict_get meta_episode) identifiers
       = [Some (JStr "42"); Some (JStr "7"); Some (JStr "linear-policy");
          Some (JStr "a1b2c3d"); Some (JInt 123456); Some (JStr "E1M1")]
    /\ map (dict_get meta_manual) identifiers
       = [Some (JStr "42"); Some (JStr "manual"); Some (JStr "manual");
          Some (JStr "a1b2c3d"); Some (JInt 123456); Some (JStr "E1M1")]
    /\ map (dict_get (attach_crc (tick_record meta_episode now g d ammo st)))
           identifiers
       = map (dict_get meta_episode) identifiers
    /\ map (dict_get (attach_crc (tick_record meta_manual now g d ammo st)))
           identifiers
       = map (dict_get meta_manual) identifiers.
Proof.
  intros F t meta now g dmg ammo st d tr.
  split; [intros f Hf; now rewrite write_jsonl_unfold, Hf|].
  split; [intros; now apply tick_record_meta_item|].
  split.
  { intros k Hnd Hid Hk. apply tick_record_missing; try assumption.
    - unfold identifiers, tick_own_keys in *. simpl in *.
      intuition (subst; discriminate).
    - unfold identifiers, tick_head_keys in *. simpl in *.
      intuition (subst; discriminate). }
  split; [reflexivity|]. split; [reflexivity|].
  destruct d as [[din dout] dk].
  split; reflexivity.
Qed.

(** C7, as the specification states it, fails: with a line file that can
    be opened, a session whose metadata is empty starts, and its first
    recording writes a record with no [run_id]. *)
Lemma C7_counterexample_empty_metadata :
  let F := sample_float in
  let g := mkVars 100 None None None None None None in
  let rec := attach_crc (tick_record [] 0 g (0, 0, 0) ammo_zero 1) in
  T0_init (Some "t0.jsonl") None []
  = (inr (mkT0 (Some "t0.jsonl") None None 0 0), [IoOpen "t0.jsonl"])
  /\ write_jsonl (mkT0 (Some "t0.jsonl") None None 0 0) [] 0 g 0 ammo_zero 1
                 [IoOpen "t0.jsonl"]
     = (inr (mkT0 (Some "t0.jsonl") None (Some 100) 0 0),
        [IoOpen "t0.jsonl"; IoWrite "t0.jsonl" (jsonl_line rec);
         IoFlush "t0.jsonl"])
  /\ dict_get rec "run_id" = None
  /\ dict_get rec "health" = Some (JInt 100).
Proof.
  cbv zeta. split; [reflexivity|]. split.
  - rewrite write_jsonl_unfold. reflexivity.
  - split; reflexivity.
Qed.

(** ** The episode summary *)

Section Summary.
Context `{PyFloat}.

(** A run of [run_episode] that ends normally returns the summary of the
    state its loop ended in, with the checksum attached. *)
Lemma run_episode_returns (cfg : run_config) (ticks : list tick) (now : Q)
      (draw : nat) (tr tr' : list io_event) (summary : dict) :
  run_episode cfg ticks now draw tr = (inr summary, tr') ->
  exists s : loop_state,
    summary = attach_crc (episode_summary cfg s now draw).
Proof.
  unfold run_episode. unfold bind at 1. rewrite T0_init_spec.
  unfold bind, finally.
  destruct (episode_loop cfg ticks _ _) as [[e|s] tr1];
    rewrite T0_close_spec; unfold ret; intros E; [discriminate|].
  exists s. now injection E as <- _.
Qed.

Lemma summary_damage (cfg : run_config) (s : loop_state) (now : Q)
      (draw : nat) :
  dict_get (attach_crc (episode_summary cfg s now draw)) "damage"
  = Some (JObj [("taken_total",
                 JInt (random_choice [60; 72; 84; 90; 96] draw));
                ("dealt_total", JInt (dmg_out_total s));
                ("dealt_by_enemy", JObj [])]).
Proof. reflexivity. Qed.

Lemma summary_duration (cfg : run_config) (s : loop_state) (now : Q)
      (draw : nat) :
  dict_get (attach_crc (episode_summary cfg s now draw)) "duration_s"
  = Some (JFloat (duration_s (step s))).
Proof. reflexivity. Qed.
End Summary.

Lemma random_choice_In (l : list Z) (draw : nat) :
  l <> [] -> In (random_choice l draw) l.
Proof.
  intros Hne. unfold random_choice. apply nth_In.
  apply Nat.mod_upper_bound. destruct l; [contradiction|discriminate].
Qed.

(** C8. The summary of every run that prints one has a damage-taken total
    drawn from [60; 72; 84; 90; 96]: it is a member of that list, it is
    the element the random draw selects whatever happened in the run, and
    every member is the outcome of some draw. *)
Theorem C8_taken_total_is_a_random_draw :
  forall `{PyFloat} (cfg : run_config) (ticks : list tick) (now : Q)
         (draw : nat) (tr tr' : list io_event) (summary : dict),
    run_episode cfg ticks now draw tr = (inr summary, tr') ->
    exists taken dealt : Z,
      dict_get summary "damage"
      = Some (JObj [("taken_total", JInt taken); ("dealt_total", JInt dealt);
                    ("dealt_by_enemy", JObj [])])
      /\ In taken [60; 72; 84; 90; 96]
      /\ taken = random_choice [60; 72; 84; 90; 96] draw
      /\ (forall v, In v [60; 72; 84; 90; 96] ->
                    exists draw', random_choice [60; 72; 84; 90; 96] draw' = v).
Proof.
  intros F cfg ticks now draw tr tr' summary Hrun.
  destruct (run_episode_returns _ _ _ _ _ _ _ Hrun) as [s ->].
  exists (random_choice [60; 72; 84; 90; 96] draw), (dmg_out_total s).
  split; [apply summary_damage|].
  split; [apply random_choice_In; discriminate|].
  split; [reflexivity|].
  intros v Hv. simpl in Hv.
  destruct Hv as [<-|[<-|[<-|[<-|[<-|[]]]]]];
    [exists 0%nat | exists 1%nat | exists 2%nat | exists 3%nat | exists 4%nat];
    reflexivity.
Qed.

Lemma C8_taken_total_is_a_random_draw_witness :
  exists (summary : dict) (tr' : list io_event) (dealt : Z),
    @run_episode sample_float quiet_config scenario_ticks 0 7%nat []
    = (inr summary, tr')
    /\ dict_get summary "damage"
       = Some (JObj [("taken_total", JInt 84); ("dealt_total", JInt dealt);
                     ("dealt_by_enemy", JObj [])]).
Proof.
  destruct (@run_episode_shape sample_float quiet_config scenario_ticks 0
              7%nat [] (or_introl eq_refl))
    as (ct & s' & Hrun & _).
  destruct (@C8_taken_total_is_a_random_draw sample_float quiet_config
              scenario_ticks 0 7%nat [] _ _ Hrun)
    as (taken & dealt & Hd & _ & Ht & _).
  eexists. eexists. exists dealt. split; [exact Hrun|].
  rewrite Hd, Ht. reflexivity.
Defined.

(** ** The duration *)

(** Rounding a number of thirds: the fraction is never one half. *)
Lemma round_half_even_thirds (st : Z) :
  round_half_even (inject_Z st / 300 * 100) = (st + 1) / 3.
Proof.
  unfold round_half_even.
  assert (Ef : Qfloor (inject_Z st / 300 * 100) = st / 3).
  { unfold Qfloor, Qdiv, Qmult, Qinv, inject_Z. cbn [Qnum Qden].
    change (Z.pos (1 * 300 * 1)) with (3 * 100).
    rewrite Z.mul_1_r. apply Z.div_mul_cancel_r; lia. }
  rewrite Ef. cbv zeta.
  pose proof (Z.div_mod st 3 ltac:(lia)) as Hdm.
  pose proof (Z.mod_pos_bound st 3 ltac:(lia)) as Hmb.
  assert (Hr : (st + 1) / 3 = if st mod 3 =? 2 then st / 3 + 1 else st / 3).
  { destruct (Z.eqb_spec (st mod 3) 2) as [E|E].
    - symmetry. apply Z.div_unique with (r := 0); lia.
    - symmetry. apply Z.div_unique with (r := st mod 3 + 1); lia. }
  rewrite Hr.
  unfold Qcompare, Qminus, Qplus, Qopp, Qdiv, Qmult, Qinv, inject_Z.
  cbn [Qnum Qden].
  change (Z.pos (1 * 300 * 1 * 1)) with 300.
  change (Z.pos (1 * 300 * 1)) with 300.
  change (Z.pos 2) with 2.
  destruct (Z.eqb_spec (st mod 3) 2) as [E|E].
  - assert (Hc : ((st * 1 * 100 * 1 + - (st / 3) * 300) * 2 ?= 1 * 300) = Gt)
      by (apply Z.compare_gt_iff; lia).
    now rewrite Hc.
  - assert (Hc : ((st * 1 * 100 * 1 + - (st / 3) * 300) * 2 ?= 1 * 300) = Lt)
      by (apply Z.compare_lt_iff; lia).
    now rewrite Hc.
Qed.

(** The duration in hundredths of a second is the step count over 3,
    rounded to the nearest integer, and at least 1. *)
Lemma duration_s_closed (st : Z) :
  duration_s st = (inject_Z (Z.max 1 ((st + 1) / 3)) / 100)%Q.
Proof.
  unfold duration_s, py_max, py_round2.
  assert (Hle : Qle_bool (inject_Z st / 300) (1 # 100) = (st <=? 3)).
  { unfold Qle_bool, Qdiv, Qmult, Qinv, inject_Z. cbn [Qnum Qden].
    change (Z.pos (1 * 300)) with 300. change (Z.pos 100) with 100.
    destruct (Z.leb_spec (st * 1 * 100) (1 * 300)), (Z.leb_spec st 3);
      try reflexivity; lia. }
  rewrite Hle.
  destruct (Z.leb_spec st 3) as [Hs|Hs].
  - change (round_half_even ((1 # 100) * 100)) with 1.
    assert (Hd : (st + 1) / 3 <= 1).
    { change 1 with (4 / 3) at 2. apply Z.div_le_mono; lia. }
    now rewrite Z.max_l by exact Hd.
  - rewrite round_half_even_thirds.
    assert (Hd : 1 <= (st + 1) / 3).
    { change 1 with (4 / 3) at 1. apply Z.div_le_mono; lia. }
    now rewrite Z.max_r by exact Hd.
Qed.

(** The duration is the step count over 300 only for a positive multiple
    of 3. *)
Lemma duration_s_exact_iff (st : Z) :
  (duration_s st == inject_Z st / 300)%Q <-> 0 < st /\ st mod 3 = 0.
Proof.
  rewrite duration_s_closed.
  unfold Qeq, Qdiv, Qmult, Qinv, inject_Z. cbn [Qnum Qden].
  change (Z.pos (1 * 300)) with 300. change (Z.pos (1 * 100)) with 100.
  pose proof (Z.div_mod (st + 1) 3 ltac:(lia)) as Hdm.
  pose proof (Z.mod_pos_bound (st + 1) 3 ltac:(lia)) as Hmb.
  pose proof (Z.div_mod st 3 ltac:(lia)) as Hdm'.
  pose proof (Z.mod_pos_bound st 3 ltac:(lia)) as Hmb'.
  split.
  - intros E. lia.
  - intros [Hpos Hmod].
    assert (Hq : (st + 1) / 3 = st / 3).
    { symmetry. apply Z.div_unique with (r := 1); lia. }
    lia.
Qed.

(** C9, as the code has it. The [duration_s] of the summary is
    [round(max(0.01, step/300.0), 2)] for the step count [step] of the run:
    the step count over 300, raised to at least 0.01 and rounded to two
    decimals, that is [max 1 ((step + 1) / 3)] hundredths. It equals
    [step/300] only when the step count is a positive multiple of 3. *)
Theorem C9_duration_is_floored_and_rounded :
  forall `{PyFloat} (cfg : run_config) (ticks : list tick) (now : Q)
         (draw : nat) (tr : list io_event),
    sink_of (fprime_frames cfg) = None \/ Forall frame_clock_ok ticks ->
    exists (summary : dict) (tr' : list io_event),
      let st := Z.of_nat (episode_iterations cfg ticks 0) in
      run_episode cfg ticks now draw tr = (inr summary, tr')
      /\ dict_get summary "duration_s" = Some (JFloat (duration_s st))
      /\ duration_s st
         = py_round2 (py_max (1 # 100) (inject_Z st / 300))
      /\ duration_s st = (inject_Z (Z.max 1 ((st + 1) / 3)) / 100)%Q
      /\ (1 # 100 <= duration_s st)%Q
      /\ ((duration_s st == inject_Z st / 300)%Q <-> 0 < st /\ st mod 3 = 0).
Proof.
  intros F cfg ticks now draw tr Hok.
  destruct (run_episode_shape cfg ticks now draw tr Hok)
    as (ct & s' & Hrun & Hstep & _).
  eexists. eexists. cbv zeta.
  split; [exact Hrun|].
  split; [now rewrite summary_duration, Hstep|].
  split; [reflexivity|].
  split; [apply duration_s_closed|].
  split; [|apply duration_s_exact_iff].
  rewrite duration_s_closed.
  unfold Qle, Qdiv, Qmult, Qinv, inject_Z. cbn [Qnum Qden].
  change (Z.pos (1 * 100)) with 100. change (Z.pos 100) with 100. lia.
Qed.

Lemma C9_duration_is_floored_and_rounded_witness :
  exists (summary : dict) (tr' : list io_event),
    @run_episode sample_float quiet_config scenario_ticks 0 7%nat []
    = (inr summary, tr')
    /\ dict_get summary "duration_s" = Some (JFloat (duration_s 12))
    /\ (duration_s 12 == 4 # 100)%Q.
Proof.
  destruct (@C9_duration_is_floored_and_rounded sample_float quiet_config
              scenario_ticks 0 7%nat [] (or_introl eq_refl))
    as (summary & tr' & Hrun & Hd & _ & Hc & _).
  exists summary, tr'. split; [exact Hrun|]. split; [exact Hd|].
  change (Z.of_nat (episode_iterations quiet_config scenario_ticks 0))
    with 12 in Hc.
  rewrite Hc. reflexivity.
Defined.

(** C9, as the specification states it, fails: a run whose episode is
    finished before the first step reports a duration of 0.01, not 0; a
    run of 100 steps reports 0.33, not 100/300. *)
Lemma C9_counterexample_zero_steps :
  (exists (summary : dict) (tr' : list io_event),
      @run_episode sample_float quiet_config
                   [mkTick true false false
                           (mkVars 100 None None None None None None) 0 0]
                   0 7%nat []
      = (inr summary, tr')
      /\ dict_get summary "duration_s" = Some (JFloat (duration_s 0)))
  /\ (duration_s 0 == 1 # 100)%Q
  /\ ~ (duration_s 0 == inject_Z 0 / 300)%Q
  /\ (duration_s 100 == 33 # 100)%Q
  /\ ~ (duration_s 100 == inject_Z 100 / 300)%Q.
Proof.
  split.
  { eexists. eexists. split; reflexivity. }
  split; [reflexivity|]. split; [discriminate|].
  split; [reflexivity|]. discriminate.
Qed.

(** ** The order of keys *)

Lemma ltb_irrefl (a : string) : String.ltb a a = false.
Proof.
  unfold String.ltb. pose proof (String.compare_antisym a a) as E.
  destruct (String.compare a a); try reflexivity; discriminate.
Qed.






Lemma insert_item_permutation {V : Type} (x : string * V)
      (l : list (string * V)) :
  Permutation (x :: l) (insert_item x l).
Proof.
  induction l as [|h l IH]; [reflexivity|].
  cbn [insert_item]. destruct (String.ltb (fst h) (fst x)); [|reflexivity].
  rewrite perm_swap. now apply perm_skip.
Qed.

Lemma sort_items_permutation {V : Type} (l : list (string * V)) :
  Permutation l (sort_items l).
Proof.
  induction l as [|x l IH]; [reflexivity|].
  cbn [sort_items fold_right]. fold (sort_items l).
  rewrite <- insert_item_permutation. now apply perm_skip.
Qed.




(** ** Canonical serialization *)



Section Canonical.
Context `{PyFloat}.

Lemma json_dumps_obj (item_sep key_sep : string) (sort_keys : bool)
      (ms : list (string * json)) :
  json_dumps item_sep key_sep sort_keys (JObj ms)
  = object_text item_sep key_sep
      (if sort_keys
       then sort_items (encode_members item_sep key_sep sort_keys ms)
       else encode_members item_sep key_sep sort_keys ms).
Proof.
  cbn [json_dumps]. unfold object_text, encode_members.
  assert (E : forall l : list (string * json),
             (fix encode_members (ms : list (string * json)) :
                list (string * string) :=
                match ms with
                | [] => []
                | (k, x) :: r =>
                  (k, json_dumps item_sep key_sep sort_keys x)
                    :: encode_members r
                end) l
             = map (fun kx => (fst kx,
                               json_dumps item_sep key_sep sort_keys (snd kx)))
                   l).
  { induction l as [|[k x] l IH]; [reflexivity|]. now rewrite IH. }
  now rewrite E.
Qed.



End Canonical.

(** ** The text of the checksum *)


Lemma chars_append (a b : string) :
  list_ascii_of_string (a +++ b)
  = list_ascii_of_string a ++ list_ascii_of_string b.
Proof. induction a as [|c a IH]; simpl; [reflexivity | now rewrite IH]. Qed.












Lemma land_u32 (x : Z) : 0 <= Z.land x 0xffffffff < 2 ^ 32.
Proof.
  change 0xffffffff with (Z.ones 32). rewrite Z.land_ones by lia.
  apply Z.mod_pos_bound. lia.
Qed.

(** ** The CRC *)








(** ** Records before and after the checksum *)








Section RecordShape.
Context `{PyFloat}.





End RecordShape.

(** ** No whitespace between tokens *)


(** Induction on records that reaches the values of the members. *)
Lemma json_nested_ind (P : json -> Prop) :
  (forall n, P (JInt n)) -> (forall q, P (JFloat q)) -> (forall s, P (JStr s)) ->
  (forall ms, Forall (fun kx => P (snd kx)) ms -> P (JObj ms)) ->
  forall v, P v.
Proof.
  intros Hint Hfloat Hstr Hobj.
  fix IH 1. intros [n|q|s|ms].
  - apply Hint.
  - apply Hfloat.
  - apply Hstr.
  - apply Hobj. induction ms as [|[k x] ms IHms]; constructor.
    + apply IH.
    + exact IHms.
Qed.











Section Compact.
Context `{PyFloat}.

End Compact.



(** * Further properties of the code *)

(** ** Opening, flushing and closing *)

Lemma flushed_writes_nil (j f : option string) : flushed_writes j f [].
Proof. exists []. split; [reflexivity|constructor]. Qed.

Lemma flushed_writes_app (j f : option string) (e1 e2 : list io_event) :
  flushed_writes j f e1 -> flushed_writes j f e2 ->
  flushed_writes j f (e1 ++ e2).
Proof.
  intros (l1 & -> & H1) (l2 & -> & H2). exists (l1 ++ l2).
  split; [now rewrite flat_map_app | now apply Forall_app].
Qed.

Lemma flushed_writes_frame (j f : option string) (tk : tick) :
  flushed_writes j f (frame_events f tk).
Proof.
  destruct f as [p|]; [|apply flushed_writes_nil].
  exists [(p, frame_bytes (py_int (clock_fprime tk)) (vars tk))].
  split; [reflexivity|]. constructor; [now right|constructor].
Qed.

(** [write_fprime] on an enabled sink with a timestamp that does not fit
    the 4-byte field raises and writes nothing. *)
Lemma write_fprime_out_of_range (t : T0) (f : string) (now : Q)
      (g : game_vars) (tr : list io_event) :
  fbin t = Some f -> ~ 0 <= py_int now < 2 ^ 32 ->
  write_fprime t now g tr = (inl StructError, tr).
Proof.
  intros Hf Hnow. unfold write_fprime. rewrite Hf.
  unfold struct_pack_4sIHHH.
  rewrite (pack_uint_out_of_range 4 (py_int now)) by (simpl; exact Hnow).
  reflexivity.
Qed.

Lemma frame_clock_dec (tk : tick) : {frame_clock_ok tk} + {~ frame_clock_ok tk}.
Proof.
  unfold frame_clock_ok.
  destruct (Z_le_dec 0 (py_int (clock_fprime tk)));
    destruct (Z_lt_dec (py_int (clock_fprime tk)) (2 ^ 32));
    [left; now split | right; lia | right; lia | right; lia].
Qed.

Section Brackets.
Context `{PyFloat}.

Lemma flushed_writes_line (j f : option string) (meta : dict)
      (cd : call * (Z * Z * Z)) :
  flushed_writes j f (line_events j meta cd).
Proof.
  destruct j as [p|]; [|apply flushed_writes_nil].
  eexists [(p, _)]. split; [reflexivity|].
  constructor; [now left|constructor].
Qed.

(** One recording step, whatever its outcome: it appends flushed writes on
    the sinks of the recorder; when it returns, only the recorder of the
    loop state has changed, and its sinks have not; when it raises, the
    exception is [struct.error]. *)
Lemma record_step_any (cfg : run_config) (meta : dict) (tk : tick)
      (s : loop_state) (tr tr' : list io_event) (out : exn + loop_state) :
  record_step cfg meta tk s tr = (out, tr') ->
  (exists evs, tr' = tr ++ evs
               /\ flushed_writes (jsonl (t0 s)) (fbin (t0 s)) evs)
  /\ match out with
     | inr s4 =>
       step s4 = step s /\ dmg_out_total s4 = dmg_out_total s
       /\ ammo_used s4 = ammo_used s /\ path_len s4 = path_len s
       /\ last_pos s4 = last_pos s
       /\ jsonl (t0 s4) = jsonl (t0 s) /\ fbin (t0 s4) = fbin (t0 s)
     | inl e => e = StructError
     end.
Proof.
  destruct (frame_clock_dec tk) as [Hok|Hbad].
  - rewrite record_step_spec by now right.
    destruct (cadence_hit (t0_every cfg) (step s)); intros E;
      injection E as <- <-.
    + split; [|now repeat split].
      eexists. split; [reflexivity|].
      apply flushed_writes_app;
        [apply flushed_writes_line | apply flushed_writes_frame].
    + split; [|now repeat split].
      exists []. split; [now rewrite app_nil_r | apply flushed_writes_nil].
  - destruct (fbin (t0 s)) as [f|] eqn:Ef.
    + unfold record_step.
      destruct (cadence_hit (t0_every cfg) (step s)).
      * unfold bind at 1. rewrite write_jsonl_unfold. unfold bind at 1.
        rewrite (write_fprime_out_of_range _ f) by (assumption || exact Ef).
        intros E. injection E as <- <-. split; [|reflexivity].
        eexists. split; [reflexivity|].
        rewrite <- (app_nil_r (match jsonl (t0 s) with _ => _ end)).
        apply flushed_writes_app; [|apply flushed_writes_nil].
        apply (flushed_writes_line (jsonl (t0 s)) (Some f) meta
                 (call_of tk s,
                  deltas (t0 s) (HEALTH (vars tk)) (dmg_out_total s)
                         (or_default (KILLCOUNT (vars tk)) 0))).
      * intros E. injection E as <- <-. split; [|now repeat split].
        exists []. split; [now rewrite app_nil_r | apply flushed_writes_nil].
    + rewrite record_step_spec by now left.
      destruct (cadence_hit (t0_every cfg) (step s)); intros E;
        injection E as <- <-.
      * split; [|now repeat split].
        eexists. split; [reflexivity|].
        apply flushed_writes_app;
          [apply flushed_writes_line | rewrite Ef; apply flushed_writes_nil].
      * split; [|now repeat split].
        exists []. split; [now rewrite app_nil_r | apply flushed_writes_nil].
Qed.
End Brackets.

(** ** The bookkeeping of the loops *)

Lemma ammo_total_dict_set (a : list (string * Z)) (name : string) :
  ammo_total (dict_set a name (dict_get_default a name 0 + 1))
  = ammo_total a + 1.
Proof.
  unfold dict_get_default.
  induction a as [|[k v] a IH]; [reflexivity|].
  cbn [dict_get dict_set].
  destruct (String.eqb name k) eqn:E.
  - cbn [ammo_total fold_right snd]. lia.
  - cbn [ammo_total fold_right snd]. fold (ammo_total (dict_set a name
      (match dict_get a name with Some v0 => v0 | None => 0 end + 1))).
    fold (ammo_total a). rewrite IH. lia.
Qed.

Lemma slot_name_known (slot : Z) :
  In (zdict_get SLOT2NAME slot "PISTOL") weapon_names.
Proof.
  unfold SLOT2NAME, weapon_names. cbn [zdict_get].
  repeat (match goal with |- context [?a =? ?b] => destruct (a =? b) end;
          [simpl; tauto|]).
  simpl. tauto.
Qed.

Lemma nominal_damage_bounds (slot : Z) :
  10 <= zdict_get NOMINAL_DMG slot 10 <= 250.
Proof.
  unfold NOMINAL_DMG. cbn [zdict_get].
  repeat (match goal with |- context [?a =? ?b] => destruct (a =? b) end;
          [lia|]).
  lia.
Qed.

(** One shot: one more in the counters, between 10 and 250 points more of
    damage, no new key. *)
Lemma count_attack_bookkeeping (g : game_vars) (s : loop_state) :
  step (count_attack g s) = step s
  /\ t0 (count_attack g s) = t0 s
  /\ ammo_total (ammo_used (count_attack g s)) = ammo_total (ammo_used s) + 1
  /\ dmg_out_total s + 10 <= dmg_out_total (count_attack g s)
     <= dmg_out_total s + 250
  /\ (incl weapon_names (keys (ammo_used s)) ->
      keys (ammo_used (count_attack g s)) = keys (ammo_used s)).
Proof.
  unfold count_attack. cbn [step t0 ammo_used dmg_out_total].
  split; [reflexivity|]. split; [reflexivity|].
  split; [apply ammo_total_dict_set|].
  split; [pose proof (nominal_damage_bounds (selected_weapon_slot g)); lia|].
  intros Hincl. rewrite keys_dict_set.
  destruct (in_dec string_dec _ (keys (ammo_used s))) as [_|Hn];
    [reflexivity|].
  exfalso. apply Hn. apply Hincl. apply slot_name_known.
Qed.

Lemma bookkeeping_refl (s s' : loop_state) :
  step s' = step s -> ammo_used s' = ammo_used s ->
  dmg_out_total s' = dmg_out_total s -> bookkeeping s s' 0.
Proof.
  intros Hs Ha Hd. unfold bookkeeping. rewrite Hs, Ha, Hd.
  repeat split; try lia. 
Qed.

Lemma bookkeeping_trans (s s1 s' : loop_state) (n m : Z) :
  bookkeeping s s1 n -> bookkeeping s1 s' m -> bookkeeping s s' (n + m).
Proof.
  intros (H1 & H2 & H3 & H4 & H5) (K1 & K2 & K3 & K4 & K5).
  unfold bookkeeping. repeat split; try lia.
  intros Hincl. rewrite K5; [now apply H5|]. rewrite H5; assumption.
Qed.

(** One iteration up to the recording: the step counter advances by one
    and at most one shot is counted. *)
Lemma bookkeeping_one (s s3 : loop_state) (shot : bool) :
  step s3 = step s + 1 ->
  ammo_total (ammo_used s3)
  = ammo_total (ammo_used s) + (if shot then 1 else 0) ->
  dmg_out_total s + 10 * (if shot then 1 else 0) <= dmg_out_total s3
  <= dmg_out_total s + 250 * (if shot then 1 else 0) ->
  (incl weapon_names (keys (ammo_used s)) ->
   keys (ammo_used s3) = keys (ammo_used s)) ->
  bookkeeping s s3 (if shot then 1 else 0).
Proof.
  intros Hs Ha Hd Hk. unfold bookkeeping. rewrite Hs.
  destruct shot; repeat split; try lia; exact Hk.
Qed.

Section LoopsAnyOutcome.
Context `{PyFloat}.

Lemma pre_record_episode (cfg : run_config) (tk : tick) (s : loop_state) :
  let s3 := if has_button cfg "ATTACK"
            then count_attack (vars tk)
                   (track_path (vars tk)
                      (mkLoop (step s + 1) (dmg_out_total s) (ammo_used s)
                              (path_len s) (last_pos s) (t0 s)))
            else track_path (vars tk)
                   (mkLoop (step s + 1) (dmg_out_total s) (ammo_used s)
                           (path_len s) (last_pos s) (t0 s)) in
  step s3 = step s + 1 /\ t0 s3 = t0 s
  /\ bookkeeping s s3 (if has_button cfg "ATTACK" then 1 else 0).
Proof.
  cbv zeta.
  set (s1 := mkLoop (step s + 1) (dmg_out_total s) (ammo_used s)
                    (path_len s) (last_pos s) (t0 s)).
  destruct (track_path_frame (vars tk) s1) as (Hs & Ht & Hd & Ha).
  destruct (count_attack_bookkeeping (vars tk) (track_path (vars tk) s1))
    as (Cs & Ct & Ca & Cd & Ck).
  destruct (has_button cfg "ATTACK").
  - split; [now rewrite Cs, Hs|]. split; [now rewrite Ct, Ht|].
    apply (bookkeeping_one s _ true).
    + now rewrite Cs, Hs.
    + now rewrite Ca, Ha.
    + rewrite Hd in Cd. cbn [dmg_out_total s1] in Cd. lia.
    + rewrite Ha in Ck. exact Ck.
  - split; [exact Hs|]. split; [exact Ht|].
    apply (bookkeeping_one s _ false).
    + exact Hs.
    + rewrite Ha. cbn [ammo_used s1]. lia.
    + rewrite Hd. cbn [dmg_out_total s1]. lia.
    + intros _. now rewrite Ha.
Qed.

(** The loop of [run_episode], whatever its outcome. *)
Lemma episode_loop_any (cfg : run_config) (ticks : list tick) :
  forall (s : loop_state) (tr tr' : list io_event) (out : exn + loop_state),
    episode_loop cfg ticks s tr = (out, tr') ->
    (exists evs, tr' = tr ++ evs
                 /\ flushed_writes (jsonl (t0 s)) (fbin (t0 s)) evs)
    /\ loop_result_ok cfg s out
         (fun s' => if has_button cfg "ATTACK" then step s' - step s else 0).
Proof.
  assert (Hstop : forall (s : loop_state) (tr : list io_event),
             (exists evs, tr = tr ++ evs
                          /\ flushed_writes (jsonl (t0 s)) (fbin (t0 s)) evs)
             /\ loop_result_ok cfg s (inr s)
                  (fun s' => if has_button cfg "ATTACK"
                             then step s' - step s else 0)).
  { intros s tr. split.
    - exists []. split; [now rewrite app_nil_r | apply flushed_writes_nil].
    - cbn [loop_result_ok]. split; [reflexivity|]. split; [reflexivity|].
      split; [|intros _ Hle; exact Hle].
      replace (if has_button cfg "ATTACK" then step s - step s else 0)
        with 0 by (destruct (has_button cfg "ATTACK"); lia).
      now apply bookkeeping_refl. }
  induction ticks as [|tk rest IH]; intros s tr tr' out E.
  - cbn in E. unfold ret in E. injection E as <- <-. apply Hstop.
  - cbn [episode_loop] in E.
    destruct (episode_finished tk);
      [unfold ret in E; injection E as <- <-; apply Hstop|].
    destruct (negb (steps cfg =? 0) && (step s >=? steps cfg)) eqn:Ebound;
      [unfold ret in E; injection E as <- <-; apply Hstop|].
    destruct (pre_record_episode cfg tk s) as (Hs3 & Ht3 & Hb3).
    cbv zeta in Hs3, Ht3, Hb3.
    set (s3 := if has_button cfg "ATTACK" then _ else _) in *.
    unfold bind in E.
    destruct (record_step cfg meta_episode tk s3 tr) as [[e|s4] tr4] eqn:Er.
    + injection E as <- <-.
      destruct (record_step_any _ _ _ _ _ _ _ Er) as ((evs & -> & Hevs) & He).
      split; [|exact He].
      exists evs. split; [reflexivity|]. now rewrite <- Ht3.
    + destruct (record_step_any _ _ _ _ _ _ _ Er)
        as ((evs & -> & Hevs) & Hs4 & Hd4 & Ha4 & _ & _ & Hj4 & Hf4).
      destruct (IH _ _ _ _ E) as ((evs' & -> & Hevs') & Hres).
      rewrite Hj4, Hf4, Ht3 in Hevs'. rewrite Ht3 in Hevs.
      split.
      { exists (evs ++ evs'). split; [now rewrite app_assoc|].
        now apply flushed_writes_app. }
      destruct out as [e|s']; [exact Hres|].
      cbn [loop_result_ok] in Hres |- *.
      destruct Hres as (Hj & Hf & Hb & Hsteps).
      split; [now rewrite Hj, Hj4, Ht3|]. split; [now rewrite Hf, Hf4, Ht3|].
      assert (Hb4 : bookkeeping s s4 (if has_button cfg "ATTACK" then 1 else 0)).
      { unfold bookkeeping in Hb3 |- *. rewrite Hs4, Ha4, Hd4. exact Hb3. }
      split.
      * replace (if has_button cfg "ATTACK" then step s' - step s else 0)
          with ((if has_button cfg "ATTACK" then 1 else 0)
                + (if has_button cfg "ATTACK" then step s' - step s4 else 0))
          by (rewrite Hs4, Hs3; destruct (has_button cfg "ATTACK"); lia).
        exact (bookkeeping_trans _ _ _ _ _ Hb4 Hb).
      * intros Hpos Hle. apply Hsteps; [exact Hpos|].
        rewrite Hs4, Hs3.
        apply andb_false_iff in Ebound. destruct Ebound as [E0|E1].
        -- apply negb_false_iff, Z.eqb_eq in E0. lia.
        -- rewrite Z.geb_leb in E1. apply Z.leb_gt in E1. lia.
Qed.

(** The loop of [play_manual], whatever its outcome: the shots counted
    are at most one for each step. *)
Lemma manual_loop_any (cfg : run_config) (ticks : list tick) :
  forall (s : loop_state) (tr tr' : list io_event) (out : exn + loop_state),
    manual_loop cfg ticks s tr = (out, tr') ->
    (exists evs, tr' = tr ++ evs
                 /\ flushed_writes (jsonl (t0 s)) (fbin (t0 s)) evs)
    /\ exists shots : Z, loop_result_ok cfg s out (fun _ => shots).
Proof.
  assert (Hstop : forall (s s' : loop_state) (tr : list io_event),
             t0 s' = t0 s -> ammo_used s' = ammo_used s ->
             dmg_out_total s' = dmg_out_total s ->
             step s <= step s' ->
             (0 < steps cfg -> step s <= steps cfg -> step s' <= steps cfg) ->
             (exists evs, tr = tr ++ evs
                          /\ flushed_writes (jsonl (t0 s)) (fbin (t0 s)) evs)
             /\ exists shots : Z, loop_result_ok cfg s (inr s') (fun _ => shots)).
  { intros s s' tr Ht Ha Hd Hle Hb. split.
    - exists []. split; [now rewrite app_nil_r | apply flushed_writes_nil].
    - exists 0. cbn [loop_result_ok]. rewrite Ht.
      split; [reflexivity|]. split; [reflexivity|]. split; [|exact Hb].
      unfold bookkeeping. rewrite Ha, Hd. repeat split; lia. }
  induction ticks as [|tk rest IH]; intros s tr tr' out E.
  - cbn in E. unfold ret in E. injection E as <- <-.
    apply Hstop; try reflexivity; try lia; intros _ Hle; exact Hle.
  - cbn [manual_loop] in E.
    destruct (episode_finished tk && negb (auto_restart cfg));
      [unfold ret in E; injection E as <- <-;
       apply Hstop; try reflexivity; try lia; intros _ Hle; exact Hle|].
    destruct (negb (steps cfg =? 0) && (step s >=? steps cfg)) eqn:Ebound;
      [unfold ret in E; injection E as <- <-;
       apply Hstop; try reflexivity; try lia; intros _ Hle; exact Hle|].
    assert (Hlt : 0 < steps cfg -> step s + 1 <= steps cfg).
    { intros Hpos. apply andb_false_iff in Ebound. destruct Ebound as [E0|E1].
      - apply negb_false_iff, Z.eqb_eq in E0. lia.
      - rewrite Z.geb_leb in E1. apply Z.leb_gt in E1. lia. }
    destruct (quit_requested tk).
    { unfold ret in E. injection E as <- <-.
      apply Hstop; try reflexivity; cbn [step]; try lia;
        intros Hpos _; now apply Hlt. }
    set (s1 := mkLoop (step s + 1) (dmg_out_total s) (ammo_used s)
                      (path_len s) (last_pos s) (t0 s)) in *.
    set (shot := has_button cfg "ATTACK" && attack_pressed tk) in *.
    set (s2 := if shot then count_attack (vars tk) s1 else s1) in *.
    assert (Hs2 : step s2 = step s + 1 /\ t0 s2 = t0 s
                  /\ bookkeeping s s2 (if shot then 1 else 0)).
    { destruct (count_attack_bookkeeping (vars tk) s1)
        as (Cs & Ct & Ca & Cd & Ck).
      unfold s2. destruct shot.
      - split; [exact Cs|]. split; [exact Ct|].
        apply (bookkeeping_one s _ true);
          [exact Cs | exact Ca | cbn [dmg_out_total s1] in Cd; lia | exact Ck].
      - split; [reflexivity|]. split; [reflexivity|].
        apply (bookkeeping_one s _ false); cbn [step ammo_used dmg_out_total s1];
          try lia; intros _; reflexivity. }
    destruct Hs2 as (Hs2 & Ht2 & Hb2).
    unfold bind in E.
    destruct (record_step cfg meta_manual tk s2 tr) as [[e|s4] tr4] eqn:Er.
    + injection E as <- <-.
      destruct (record_step_any _ _ _ _ _ _ _ Er) as ((evs & -> & Hevs) & He).
      split; [|exists 0; exact He].
      exists evs. split; [reflexivity|]. now rewrite <- Ht2.
    + destruct (record_step_any _ _ _ _ _ _ _ Er)
        as ((evs & -> & Hevs) & Hs4 & Hd4 & Ha4 & _ & _ & Hj4 & Hf4).
      destruct (IH _ _ _ _ E) as ((evs' & -> & Hevs') & shots & Hres).
      rewrite Hj4, Hf4, Ht2 in Hevs'. rewrite Ht2 in Hevs.
      split.
      { exists (evs ++ evs'). split; [now rewrite app_assoc|].
        now apply flushed_writes_app. }
      destruct out as [e|s']; [exists 0; exact Hres|].
      cbn [loop_result_ok] in Hres.
      destruct Hres as (Hj & Hf & Hb & Hsteps).
      exists ((if shot then 1 else 0) + shots). cbn [loop_result_ok].
      split; [now rewrite Hj, Hj4, Ht2|]. split; [now rewrite Hf, Hf4, Ht2|].
      assert (Hb4 : bookkeeping s s4 (if shot then 1 else 0)).
      { unfold bookkeeping in Hb2 |- *. rewrite Hs4, Ha4, Hd4. exact Hb2. }
      split; [exact (bookkeeping_trans _ _ _ _ _ Hb4 Hb)|].
      intros Hpos Hle. apply Hsteps; [exact Hpos|].
      rewrite Hs4, Hs2. now apply Hlt.
Qed.
End LoopsAnyOutcome.

(** ** Whole runs, whatever their outcome *)

Section RunsAnyOutcome.
Context `{PyFloat}.

(** [run_episode] through its loop: the summary is made from the state the
    loop ends in, and the sinks are closed after the loop on both exits. *)
Lemma run_episode_outcome (cfg : run_config) (ticks : list tick) (now : Q)
      (draw : nat) (tr : list io_event) :
  let j := sink_of (t0_jsonl cfg) in
  let f := sink_of (fprime_frames cfg) in
  run_episode cfg ticks now draw tr
  = match episode_loop cfg ticks (loop_start (mkT0 j f None 0 0))
                       (tr ++ open_events j ++ open_events f) with
    | (inr s, tr1) =>
      (inr (attach_crc (episode_summary cfg s now draw)),
       tr1 ++ close_events j ++ close_events f)
    | (inl e, tr1) => (inl e, tr1 ++ close_events j ++ close_events f)
    end.
Proof.
  cbv zeta. unfold run_episode. unfold bind at 1. rewrite T0_init_spec.
  unfold bind, finally.
  destruct (episode_loop cfg ticks _ _) as [[e|s] tr1];
    rewrite T0_close_spec; reflexivity.
Qed.

Lemma play_manual_outcome (cfg : run_config) (ticks : list tick)
      (tr : list io_event) :
  let j := sink_of (t0_jsonl cfg) in
  let f := sink_of (fprime_frames cfg) in
  play_manual cfg ticks tr
  = match manual_loop cfg ticks (loop_start (mkT0 j f None 0 0))
                      (tr ++ open_events j ++ open_events f) with
    | (inr s, tr1) => (inr (step s), tr1 ++ close_events j ++ close_events f)
    | (inl e, tr1) => (inl e, tr1 ++ close_events j ++ close_events f)
    end.
Proof.
  cbv zeta. unfold play_manual. unfold bind at 1. rewrite T0_init_spec.
  unfold bind, finally.
  destruct (manual_loop cfg ticks _ _) as [[e|s] tr1];
    rewrite T0_close_spec; reflexivity.
Qed.

Lemma bracketed_intro (cfg : run_config) (tr : list io_event)
      (evs : list io_event) :
  flushed_writes (sink_of (t0_jsonl cfg)) (sink_of (fprime_frames cfg)) evs ->
  bracketed_trace cfg tr
    (((tr ++ open_events (sink_of (t0_jsonl cfg))
          ++ open_events (sink_of (fprime_frames cfg))) ++ evs)
       ++ close_events (sink_of (t0_jsonl cfg))
       ++ close_events (sink_of (fprime_frames cfg))).
Proof.
  intros Hevs. exists evs. split; [|exact Hevs].
  now rewrite <- !app_assoc.
Qed.
End RunsAnyOutcome.

(** ** A frame that cannot be written *)

Section FrameErrors.
Context `{PyFloat}.

(** A recording step on the cadence, with the frame sink enabled and a
    clock that does not fit, raises. *)
Lemma record_step_frame_error (cfg : run_config) (meta : dict) (tk : tick)
      (s : loop_state) (f : string) (tr : list io_event) :
  fbin (t0 s) = Some f ->
  cadence_hit (t0_every cfg) (step s) = true ->
  ~ frame_clock_ok tk ->
  fst (record_step cfg meta tk s tr) = inl StructError.
Proof.
  intros Hf Hhit Hbad. unfold record_step. rewrite Hhit.
  unfold bind at 1. rewrite write_jsonl_unfold. unfold bind at 1.
  rewrite (write_fprime_out_of_range _ f) by (assumption || exact Hf).
  reflexivity.
Qed.

(** The loop of [run_episode] when the iteration of index [i] is on the
    cadence and its frame cannot be written. *)
Lemma episode_loop_frame_error (cfg : run_config) (ticks : list tick) :
  forall (i : nat) (tk : tick) (s : loop_state) (f : string)
         (tr : list io_event),
    fbin (t0 s) = Some f ->
    nth_error ticks i = Some tk ->
    cadence_hit (t0_every cfg) (step s + Z.of_nat i + 1) = true ->
    ~ frame_clock_ok tk ->
    (i < episode_iterations cfg ticks (step s))%nat ->
    exists evs,
      episode_loop cfg ticks s tr = (inl StructError, tr ++ evs)
      /\ flushed_writes (jsonl (t0 s)) (fbin (t0 s)) evs.
Proof.
  induction ticks as [|tk0 rest IH]; intros i tk s f tr Hf Hn Hhit Hbad Hi.
  - destruct i; discriminate Hn.
  - cbn [episode_loop episode_iterations] in *.
    destruct (episode_finished tk0); [lia|].
    destruct (negb (steps cfg =? 0) && (step s >=? steps cfg)); [lia|].
    destruct (pre_record_episode cfg tk0 s) as (Hs3 & Ht3 & _).
    cbv zeta in Hs3, Ht3.
    set (s3 := if has_button cfg "ATTACK" then _ else _) in *.
    unfold bind.
    destruct (record_step cfg meta_episode tk0 s3 tr) as [[e|s4] tr4] eqn:Er.
    + destruct (record_step_any _ _ _ _ _ _ _ Er) as ((evs & -> & Hevs) & ->).
      exists evs. split; [reflexivity|]. now rewrite <- Ht3.
    + destruct (record_step_any _ _ _ _ _ _ _ Er)
        as ((evs & -> & Hevs) & Hs4 & _ & _ & _ & _ & Hj4 & Hf4).
      destruct i as [|i].
      * exfalso. cbn [nth_error] in Hn. injection Hn as Htk. subst tk.
        cbn [Z.of_nat] in Hhit. rewrite Z.add_0_r, <- Hs3 in Hhit.
        rewrite <- Ht3 in Hf.
        pose proof (record_step_frame_error cfg meta_episode tk0 s3 f tr
                      Hf Hhit Hbad) as E'.
        rewrite Er in E'. discriminate E'.
      * cbn [nth_error] in Hn.
        destruct (IH i tk s4 f (tr ++ evs)) as (evs' & E' & Hevs').
        -- now rewrite Hf4, Ht3.
        -- exact Hn.
        -- rewrite Hs4, Hs3.
           replace (step s + 1 + Z.of_nat i + 1)
             with (step s + Z.of_nat (S i) + 1) by lia.
           exact Hhit.
        -- exact Hbad.
        -- rewrite Hs4, Hs3. lia.
        -- rewrite E'. exists (evs ++ evs').
           split; [now rewrite app_assoc|].
           rewrite Hj4, Hf4, Ht3 in Hevs'. rewrite Ht3 in Hevs.
           now apply flushed_writes_app.
Qed.

(** The same for the loop of [play_manual]. *)
Lemma manual_loop_frame_error (cfg : run_config) (ticks : list tick) :
  forall (i : nat) (tk : tick) (s : loop_state) (f : string)
         (tr : list io_event),
    fbin (t0 s) = Some f ->
    nth_error ticks i = Some tk ->
    cadence_hit (t0_every cfg) (step s + Z.of_nat i + 1) = true ->
    ~ frame_clock_ok tk ->
    (i < manual_iterations cfg ticks (step s))%nat ->
    exists evs,
      manual_loop cfg ticks s tr = (inl StructError, tr ++ evs)
      /\ flushed_writes (jsonl (t0 s)) (fbin (t0 s)) evs.
Proof.
  induction ticks as [|tk0 rest IH]; intros i tk s f tr Hf Hn Hhit Hbad Hi.
  - destruct i; discriminate Hn.
  - cbn [manual_loop manual_iterations] in *.
    destruct (episode_finished tk0 && negb (auto_restart cfg)); [lia|].
    destruct (negb (steps cfg =? 0) && (step s >=? steps cfg)); [lia|].
    destruct (quit_requested tk0); [lia|].
    set (s1 := mkLoop (step s + 1) (dmg_out_total s) (ammo_used s)
                      (path_len s) (last_pos s) (t0 s)) in *.
    set (s2 := if has_button cfg "ATTACK" && attack_pressed tk0
               then count_attack (vars tk0) s1 else s1) in *.
    assert (Hs2 : step s2 = step s + 1 /\ t0 s2 = t0 s).
    { unfold s2.
      destruct (has_button cfg "ATTACK" && attack_pressed tk0);
        split; reflexivity. }
    destruct Hs2 as (Hs2 & Ht2).
    unfold bind.
    destruct (record_step cfg meta_manual tk0 s2 tr) as [[e|s4] tr4] eqn:Er.
    + destruct (record_step_any _ _ _ _ _ _ _ Er) as ((evs & -> & Hevs) & ->).
      exists evs. split; [reflexivity|]. now rewrite <- Ht2.
    + destruct (record_step_any _ _ _ _ _ _ _ Er)
        as ((evs & -> & Hevs) & Hs4 & _ & _ & _ & _ & Hj4 & Hf4).
      destruct i as [|i].
      * exfalso. cbn [nth_error] in Hn. injection Hn as Htk. subst tk.
        cbn [Z.of_nat] in Hhit. rewrite Z.add_0_r, <- Hs2 in Hhit.
        rewrite <- Ht2 in Hf.
        pose proof (record_step_frame_error cfg meta_manual tk0 s2 f tr
                      Hf Hhit Hbad) as E'.
        rewrite Er in E'. discriminate E'.
      * cbn [nth_error] in Hn.
        destruct (IH i tk s4 f (tr ++ evs)) as (evs' & E' & Hevs').
        -- now rewrite Hf4, Ht2.
        -- exact Hn.
        -- rewrite Hs4, Hs2.
           replace (step s + 1 + Z.of_nat i + 1)
             with (step s + Z.of_nat (S i) + 1) by lia.
           exact Hhit.
        -- exact Hbad.
        -- rewrite Hs4, Hs2. lia.
        -- rewrite E'. exists (evs ++ evs').
           split; [now rewrite app_assoc|].
           rewrite Hj4, Hf4, Ht2 in Hevs'. rewrite Ht2 in Hevs.
           now apply flushed_writes_app.
Qed.
End FrameErrors.

(** X1. A frame that cannot be written ends the run, and the sinks are
    closed all the same. With the frame sink enabled, when an iteration
    the loop makes is on the cadence and the clock of its frame is outside
    the four bytes of the timestamp, [run_episode] and [play_manual] end
    with [struct.error]; by then the [finally] clause has closed the
    recorder: provided the file operations themselves succeed, the file
    operations of the run are the opening of every enabled sink, then
    writes on these sinks only, each followed at once by the flush of the
    same file, then the closing of every enabled sink. *)
Theorem X1_frame_error_closes_the_sinks :
  forall `{PyFloat} (cfg : run_config) (ticks : list tick) (now : Q)
         (draw : nat) (tr : list io_event) (f : string) (i : nat)
         (tk : tick),
    sink_of (fprime_frames cfg) = Some f ->
    nth_error ticks i = Some tk ->
    cadence_hit (t0_every cfg) (Z.of_nat i + 1) = true ->
    ~ frame_clock_ok tk ->
    ((i < episode_iterations cfg ticks 0)%nat ->
     fst (run_episode cfg ticks now draw tr) = inl StructError
     /\ bracketed_trace cfg tr (snd (run_episode cfg ticks now draw tr)))
    /\ ((i < manual_iterations cfg ticks 0)%nat ->
        fst (play_manual cfg ticks tr) = inl StructError
        /\ bracketed_trace cfg tr (snd (play_manual cfg ticks tr))).
Proof.
  intros F cfg ticks now draw tr f i tk Hf Hn Hhit Hbad.
  set (t := mkT0 (sink_of (t0_jsonl cfg)) (sink_of (fprime_frames cfg))
                 None 0 0).
  split; intros Hi.
  - destruct (episode_loop_frame_error cfg ticks i tk (loop_start t) f
                (tr ++ open_events (sink_of (t0_jsonl cfg))
                    ++ open_events (sink_of (fprime_frames cfg)))
                Hf Hn Hhit Hbad Hi) as (evs & E & Hevs).
    rewrite run_episode_outcome. cbv zeta. fold t. rewrite E.
    split; [reflexivity|]. now apply bracketed_intro.
  - destruct (manual_loop_frame_error cfg ticks i tk (loop_start t) f
                (tr ++ open_events (sink_of (t0_jsonl cfg))
                    ++ open_events (sink_of (fprime_frames cfg)))
                Hf Hn Hhit Hbad Hi) as (evs & E & Hevs).
    rewrite play_manual_outcome. cbv zeta. fold t. rewrite E.
    split; [reflexivity|]. now apply bracketed_intro.
Qed.

Lemma X1_frame_error_closes_the_sinks_witness :
  let F := sample_float in
  let g := mkVars 90 None None None None None None in
  let tk := mkTick false false false g 0 (-1) in
  let cfg := mkConfig 0 0 1 (Some "t0.jsonl") (Some "frames.bin") false
                      ["ATTACK"] in
  run_episode cfg [tk; tk] 0 0%nat []
  = (inl StructError,
     [IoOpen "t0.jsonl"; IoOpen "frames.bin";
      IoWrite "t0.jsonl"
              (jsonl_line (attach_crc (tick_record meta_episode 0 g (0, 10, 0)
                                         (dict_set ammo_zero "PISTOL" 1) 1)));
      IoFlush "t0.jsonl";
      IoClose "t0.jsonl"; IoClose "frames.bin"])
  /\ fst (run_episode cfg [tk; tk] 0 0%nat []) = inl StructError
  /\ bracketed_trace cfg [] (snd (run_episode cfg [tk; tk] 0 0%nat [])).
Proof.
  intros F g tk cfg. split; [reflexivity|].
  refine (proj1 (@X1_frame_error_closes_the_sinks F cfg [tk; tk] 0 0%nat []
                   "frames.bin" 0%nat tk eq_refl eq_refl eq_refl _) _).
  - unfold frame_clock_ok. cbn. lia.
  - cbn. lia.
Defined.

(** X2. When the frame sink is enabled and the clock does not fit the
    4-byte timestamp of a frame, [write_fprime] raises [struct.error] and
    writes nothing, not even a part of a frame; in a recording step the
    line of the step is already written and flushed by then, and the
    baseline of the tracker already moved, so the line sink holds a record
    of the step and the frame sink does not. *)
Theorem X2_frame_error_leaves_the_line :
  forall `{PyFloat} (cfg : run_config) (meta : dict) (tk : tick)
         (s : loop_state) (f : string) (tr : list io_event),
    fbin (t0 s) = Some f ->
    cadence_hit (t0_every cfg) (step s) = true ->
    ~ frame_clock_ok tk ->
    write_fprime (t0 s) (clock_fprime tk) (vars tk) tr = (inl StructError, tr)
    /\ record_step cfg meta tk s tr
       = (inl StructError,
          tr ++ line_events (jsonl (t0 s)) meta
                  (call_of tk s,
                   deltas (t0 s) (HEALTH (vars tk)) (dmg_out_total s)
                          (or_default (KILLCOUNT (vars tk)) 0))).
Proof.
  intros F cfg meta tk s f tr Hf Hhit Hbad.
  split; [now apply (write_fprime_out_of_range _ f)|].
  unfold record_step. rewrite Hhit.
  unfold bind at 1. rewrite write_jsonl_unfold. unfold bind at 1.
  rewrite (write_fprime_out_of_range _ f) by (assumption || exact Hf).
  reflexivity.
Qed.

Lemma X2_frame_error_leaves_the_line_witness :
  let F := sample_float in
  let g := mkVars 90 None None None None None None in
  let tk := mkTick false false false g 0 (-1) in
  let s := mkLoop 5 0 ammo_zero 0 None
                  (mkT0 (Some "t0.jsonl") (Some "frames.bin") None 0 0) in
  record_step quiet_config meta_episode tk s []
  = (inl StructError,
     [IoWrite "t0.jsonl"
              (jsonl_line (attach_crc (tick_record meta_episode 0 g (0, 0, 0)
                                                   ammo_zero 5)));
      IoFlush "t0.jsonl"]).
Proof.
  intros F g tk s.
  refine (proj2 (@X2_frame_error_leaves_the_line F quiet_config meta_episode
                   tk s "frames.bin" [] eq_refl eq_refl _)).
  unfold frame_clock_ok. cbn. lia.
Defined.

(** ** The frame file *)

Lemma written_app (p : string) (tr1 tr2 : list io_event) :
  written p (tr1 ++ tr2) = written p tr1 ++ written p tr2.
Proof. apply flat_map_app. Qed.

Lemma written_open_close (p : string) (h : option string) :
  written p (open_events h) = [] /\ written p (close_events h) = [].
Proof. destruct h; split; reflexivity. Qed.

Lemma written_frame_events (f : string) (tk : tick) :
  written f (frame_events (Some f) tk)
  = frame_bytes (py_int (clock_fprime tk)) (vars tk).
Proof.
  unfold written, frame_events. cbn [flat_map]. rewrite String.eqb_refl.
  now rewrite !app_nil_r.
Qed.

(** Frames laid end to end are read back one by one. *)
Lemma unpack_frames_stream (tks : list tick) :
  Forall frame_clock_ok tks ->
  unpack_frames (List.length tks)
    (flat_map (fun tk => frame_bytes (py_int (clock_fprime tk)) (vars tk)) tks)
  = Some (map frame_of_tick tks).
Proof.
  induction 1 as [|tk tks Hok _ IH]; [reflexivity|].
  cbn [List.length unpack_frames flat_map map].
  rewrite firstn_app, skipn_app, frame_bytes_length.
  rewrite firstn_all2 by (rewrite frame_bytes_length; lia).
  rewrite skipn_all2 by (rewrite frame_bytes_length; lia).
  change (14 - 14)%nat with 0%nat. cbn [firstn skipn app].
  rewrite app_nil_r, unpack_frame_bytes by exact Hok.
  now rewrite IH.
Qed.

Lemma frame_stream_length (tks : list tick) :
  List.length
    (flat_map (fun tk => frame_bytes (py_int (clock_fprime tk)) (vars tk)) tks)
  = (14 * List.length tks)%nat.
Proof.
  induction tks as [|tk tks IH]; [reflexivity|].
  cbn [flat_map List.length]. rewrite length_app, frame_bytes_length, IH. lia.
Qed.

Section FrameFile.
Context `{PyFloat}.

Lemma written_line_events_other (f : string) (j : option string) (meta : dict)
      (cd : call * (Z * Z * Z)) :
  j <> Some f -> written f (line_events j meta cd) = [].
Proof.
  intros Hne. destruct j as [p|]; [|reflexivity].
  unfold written, line_events. cbn [flat_map].
  destruct (String.eqb_spec p f) as [->|_]; [now elim Hne|reflexivity].
Qed.

Lemma written_run_trace (cfg : run_config) (meta : dict) (f : string)
      (ct : list (call * tick)) :
  sink_of (fprime_frames cfg) = Some f ->
  sink_of (t0_jsonl cfg) <> Some f ->
  written f (run_trace cfg meta ct)
  = flat_map (fun tk => frame_bytes (py_int (clock_fprime tk)) (vars tk))
             (map snd ct).
Proof.
  intros Hf Hj. unfold run_trace. cbv zeta. rewrite Hf.
  rewrite !written_app.
  rewrite (proj1 (written_open_close f _)), (proj1 (written_open_close f _)).
  rewrite (proj2 (written_open_close f _)), (proj2 (written_open_close f _)).
  cbn [app]. rewrite app_nil_r.
  set (ds := fst (tracker_run _ _)).
  assert (Hlen : List.length ds = List.length ct)
    by (unfold ds; now rewrite tracker_run_length, !length_map).
  clearbody ds. revert ds Hlen.
  induction ct as [|x ct IH]; intros [|d ds] Hlen; try discriminate;
    [reflexivity|].
  cbn [combine flat_map map]. rewrite written_app.
  rewrite IH by (simpl in Hlen; lia).
  unfold emission_events. cbn [fst snd]. rewrite written_app.
  rewrite written_line_events_other by exact Hj.
  now rewrite written_frame_events.
Qed.
End FrameFile.

(** X3. In a run of [run_episode] with the frame sink enabled (on a file
    of its own, with clocks that fit a frame), the bytes appended to the
    frame file are the 14-byte frames of the recorded steps laid end to
    end, with nothing between or around them: their number is 14 times the
    number of recordings, and a reader that cuts the file every 14 bytes
    gets, for each step the cadence hits, the tag, the clock and the
    clamped health, armor and kills of the tick of that step. *)
Theorem X3_frame_file_is_a_flat_sequence_of_frames :
  forall `{PyFloat} (cfg : run_config) (ticks : list tick) (now : Q)
         (draw : nat) (f : string),
    sink_of (fprime_frames cfg) = Some f ->
    sink_of (t0_jsonl cfg) <> Some f ->
    Forall frame_clock_ok ticks ->
    exists recorded : list (Z * tick),
      let bytes := written f (snd (run_episode cfg ticks now draw [])) in
      map fst recorded
      = filter (cadence_hit (t0_every cfg))
               (zrange 1 (episode_iterations cfg ticks 0))
      /\ Forall (fun x => nth_error ticks (Z.to_nat (fst x - 1)) = Some (snd x))
                recorded
      /\ List.length bytes = (14 * List.length recorded)%nat
      /\ read_frames bytes = Some (map (fun x => frame_of_tick (snd x)) recorded).
Proof.
  intros F cfg ticks now draw f Hf Hj Hok.
  destruct (run_episode_shape cfg ticks now draw [] (or_intror Hok))
    as (ct & s' & Hrun & _ & Hsteps & Hmade).
  exists (map (fun x => (c_step (fst x), snd x)) ct). cbv zeta.
  rewrite Hrun. cbn [snd app].
  rewrite written_run_trace by assumption.
  assert (Hoks : Forall frame_clock_ok (map snd ct)).
  { apply Forall_map. rewrite Forall_forall in *. intros x Hx.
    destruct (Hmade x Hx) as (_ & Hn & _). apply Hok.
    eapply nth_error_In. exact Hn. }
  split; [now rewrite map_map, <- Hsteps, map_map|].
  split.
  { apply Forall_map. eapply Forall_impl; [|exact Hmade].
    intros x (_ & Hn & _). cbn [fst snd].
    now replace (c_step (fst x) - 1) with (c_step (fst x) - 0 - 1) by lia. }
  split; [now rewrite frame_stream_length, !length_map|].
  unfold read_frames. rewrite frame_stream_length.
  replace (14 * List.length (map snd ct) / 14)%nat
    with (List.length (map snd ct))
    by (rewrite Nat.mul_comm, Nat.div_mul; [reflexivity|discriminate]).
  rewrite unpack_frames_stream by exact Hoks. now rewrite !map_map.
Qed.

Lemma X3_frame_file_is_a_flat_sequence_of_frames_witness :
  let cfg := mkConfig 0 0 5 None (Some "frames.bin") false ["ATTACK"] in
  read_frames
    (written "frames.bin"
             (snd (@run_episode sample_float cfg scenario_ticks 0 0%nat [])))
  = Some [mkFrame magic 0 90 0 0; mkFrame magic 0 80 0 0].
Proof.
  intros cfg.
  assert (Hok : Forall frame_clock_ok scenario_ticks).
  { unfold scenario_ticks, scenario_health. cbn [map].
    repeat constructor; discriminate. }
  destruct (@X3_frame_file_is_a_flat_sequence_of_frames sample_float cfg
              scenario_ticks 0 0%nat "frames.bin" eq_refl
              ltac:(discriminate) Hok)
    as (recorded & Hsteps & Hticks & _ & Hread).
  cbv zeta in Hread. rewrite Hread. clear Hread. f_equal.
  change (filter (cadence_hit (t0_every cfg))
                 (zrange 1 (episode_iterations cfg scenario_ticks 0)))
    with [5; 10] in Hsteps.
  destruct recorded as [|[s5 t5] [|[s10 t10] [|x r]]];
    try discriminate Hsteps.
  cbn [map fst] in Hsteps. injection Hsteps as -> ->.
  inversion Hticks as [|? ? H5 Hrest]; subst.
  inversion Hrest as [|? ? H10 _]; subst.
  cbn in H5, H10. injection H5 as <-. injection H10 as <-. reflexivity.
Defined.

(** ** One record, one line *)

Lemma printable_append (a b : string) :
  printable_text a -> printable_text b -> printable_text (a +++ b).
Proof.
  unfold printable_text. rewrite chars_append. intros Ha Hb.
  now apply Forall_app.
Qed.

Lemma printable_concat (sep : string) (l : list string) :
  printable_text sep -> Forall printable_text l ->
  printable_text (String.concat sep l).
Proof.
  intros Hsep Hl. induction Hl as [|x l Hx Hl IH]; [constructor|].
  destruct l as [|y l]; [exact Hx|].
  change (String.concat sep (x :: y :: l))
    with (x +++ sep +++ String.concat sep (y :: l)).
  now repeat apply printable_append.
Qed.

Lemma hex_digit_printable (d : Z) : 0 <= d < 16 -> printable (hex_digit d).
Proof.
  intros Hd.
  assert (Hcases : d = 0 \/ d = 1 \/ d = 2 \/ d = 3 \/ d = 4 \/ d = 5 \/ d = 6
                   \/ d = 7 \/ d = 8 \/ d = 9 \/ d = 10 \/ d = 11 \/ d = 12
                   \/ d = 13 \/ d = 14 \/ d = 15) by lia.
  unfold printable.
  repeat (destruct Hcases as [->|Hcases]; [cbn; lia|]).
  subst. cbn. lia.
Qed.

Lemma digits_loop_printable (b : Z) (fuel : nat) (n : Z) (acc : string) :
  0 < b <= 16 -> printable_text acc ->
  printable_text (digits_loop b fuel n acc).
Proof.
  intros Hb. revert n acc.
  induction fuel as [|fuel IH]; intros n acc Hacc; [exact Hacc|].
  cbn [digits_loop].
  assert (Hacc' : printable_text (String (hex_digit (n mod b)) acc)).
  { constructor; [|exact Hacc]. apply hex_digit_printable.
    pose proof (Z.mod_pos_bound n b ltac:(lia)). lia. }
  destruct (n / b =? 0); [exact Hacc'|]. now apply IH.
Qed.

Lemma int_repr_printable (n : Z) : printable_text (int_repr n).
Proof.
  unfold int_repr, digits.
  destruct (n <? 0).
  - apply printable_append.
    + constructor; [unfold printable; cbn; lia|constructor].
    + apply digits_loop_printable; [lia|constructor].
  - apply digits_loop_printable; [lia|constructor].
Qed.

Lemma hex4_printable (n : Z) : printable_text (hex4 n).
Proof.
  unfold hex4, printable_text. rewrite list_ascii_of_string_of_list_ascii.
  repeat constructor; apply hex_digit_printable; apply Z.mod_pos_bound; lia.
Qed.

(** Under [ensure_ascii] every code point is written in printable ASCII:
    itself, a short escape, a [\uxxxx] escape or a pair of them. *)
Lemma escape_char_printable (n : Z) : printable_text (escape_char n).
Proof.
  unfold escape_char.
  assert (Hbs : printable backslash) by (unfold printable; cbn; lia).
  assert (Hfix : forall d : ascii,
             32 <= Z.of_nat (nat_of_ascii d) <= 126 ->
             printable_text (String backslash (String d ""))).
  { intros d Hd. constructor; [exact Hbs|]. constructor; [exact Hd|constructor]. }
  assert (Hu : forall m, printable_text (String backslash ("u" +++ hex4 m))).
  { intros m. unfold printable_text.
    cbn [list_ascii_of_string String.append].
    constructor; [exact Hbs|].
    constructor; [unfold printable; cbn; lia|]. apply hex4_printable. }
  destruct (n =? 34); [apply Hfix; cbn; lia|].
  destruct (n =? 92); [apply Hfix; cbn; lia|].
  destruct (n =? 8); [apply Hfix; cbn; lia|].
  destruct (n =? 12); [apply Hfix; cbn; lia|].
  destruct (n =? 10); [apply Hfix; cbn; lia|].
  destruct (n =? 13); [apply Hfix; cbn; lia|].
  destruct (n =? 9); [apply Hfix; cbn; lia|].
  destruct ((n <? 32) || (126 <? n)) eqn:E.
  - destruct (n <? 65536); [apply Hu|].
    cbv zeta. apply printable_append; apply Hu.
  - apply orb_false_iff in E. destruct E as [E1 E2].
    apply Z.ltb_ge in E1. apply Z.ltb_ge in E2.
    constructor; [|constructor]. unfold printable.
    rewrite nat_ascii_embedding by lia. lia.
Qed.

Lemma encode_basestring_ascii_printable (s : string) :
  printable_text (encode_basestring_ascii s).
Proof.
  unfold encode_basestring_ascii.
  assert (Hq : printable_text (String quote_char ""))
    by (constructor; [unfold printable; cbn; lia|constructor]).
  change (String quote_char ?x) with (String quote_char "" +++ x).
  apply printable_append; [exact Hq|].
  apply printable_append; [|exact Hq].
  apply printable_concat; [constructor|].
  apply Forall_map. apply Forall_forall. intros c _.
  apply escape_char_printable.
Qed.

(** The bytes of a printable text are printable ASCII, one for each
    character. *)
Lemma str_encode_printable (s : string) :
  printable_text s ->
  List.length (str_encode s) = String.length s
  /\ Forall printable_byte (str_encode s).
Proof.
  unfold printable_text, str_encode.
  induction s as [|c s IH]; intros Hs; [split; [reflexivity|constructor]|].
  cbn [list_ascii_of_string] in Hs. inversion Hs as [|? ? Hc Hs']; subst.
  destruct (IH Hs') as [IHl IHf].
  cbn [list_ascii_of_string map String.length List.length].
  split; [now rewrite IHl|].
  constructor; [|exact IHf].
  unfold printable in Hc. unfold printable_byte.
  rewrite Z_of_byte_of_Z, Z.mod_small; lia.
Qed.

Lemma str_encode_append (a b : string) :
  str_encode (a +++ b) = str_encode a ++ str_encode b.
Proof.
  unfold str_encode. now rewrite chars_append, map_app.
Qed.

Section Lines.
Context `{PyFloat}.

(** The text [json.dumps] gives is printable ASCII, whatever the strings
    of the record contain, for separators and floats that are. *)
Lemma json_dumps_printable (item_sep key_sep : string) (sort_keys : bool) :
  printable_text item_sep -> printable_text key_sep ->
  (forall q, printable_text (float_repr q)) ->
  forall v, printable_text (json_dumps item_sep key_sep sort_keys v).
Proof.
  intros Hi Hk Hfloat.
  induction v as [n|q|s|ms IH] using json_nested_ind.
  - apply int_repr_printable.
  - apply Hfloat.
  - apply encode_basestring_ascii_printable.
  - rewrite json_dumps_obj. unfold object_text.
    assert (Hitems : Forall (fun kv => printable_text (snd kv))
                            (encode_members item_sep key_sep sort_keys ms)).
    { unfold encode_members. apply Forall_map. exact IH. }
    assert (Hsorted : Forall (fun kv => printable_text (snd kv))
                        (if sort_keys
                         then sort_items
                                (encode_members item_sep key_sep sort_keys ms)
                         else encode_members item_sep key_sep sort_keys ms)).
    { destruct sort_keys; [|exact Hitems].
      eapply Permutation_Forall; [apply sort_items_permutation|exact Hitems]. }
    apply printable_append;
      [constructor; [unfold printable; cbn; lia|constructor]|].
    apply printable_append;
      [|constructor; [unfold printable; cbn; lia|constructor]].
    apply printable_concat; [exact Hi|].
    apply Forall_map. eapply Forall_impl; [|exact Hsorted].
    intros kv Hkv.
    apply printable_append; [apply encode_basestring_ascii_printable|].
    now apply printable_append.
Qed.
End Lines.

(** X4. Whatever the strings of a record contain (line feeds, quotes,
    code points beyond ASCII or beyond [0xFFFF], lone surrogates), the line
    [write_jsonl] appends for it is printable ASCII, one byte for each
    character of the text of [json.dumps], followed by a single line feed:
    no byte of the record is a line feed or a carriage return, so the file
    has as many lines as records. The bytes the checksum is computed over
    are printable ASCII as well. (The text Python prints for a float is
    taken to be printable ASCII.) *)
Theorem X4_one_record_one_line :
  forall `{PyFloat} (rec : dict),
    (forall q, printable_text (float_repr q)) ->
    (exists body : list byte,
        jsonl_line rec = body ++ [x0a]
        /\ List.length body = String.length (dumps_default (JObj rec))
        /\ Forall printable_byte body
        /\ ~ In x0a body /\ ~ In x0d body)
    /\ List.length (str_encode (dumps_canonical (JObj rec)))
       = String.length (dumps_canonical (JObj rec))
    /\ Forall printable_byte (str_encode (dumps_canonical (JObj rec))).
Proof.
  intros F rec Hfloat.
  assert (Hsp : printable " "%char) by (unfold printable; cbn; lia).
  assert (Hd : printable_text (dumps_default (JObj rec))).
  { apply json_dumps_printable; try exact Hfloat.
    - constructor; [unfold printable; cbn; lia|].
      constructor; [exact Hsp|constructor].
    - constructor; [unfold printable; cbn; lia|].
      constructor; [exact Hsp|constructor]. }
  assert (Hc : printable_text (dumps_canonical (JObj rec))).
  { apply json_dumps_printable; try exact Hfloat;
      (constructor; [unfold printable; cbn; lia|constructor]). }
  destruct (str_encode_printable _ Hd) as [Hlen Hbytes].
  split; [|exact (str_encode_printable _ Hc)].
  exists (str_encode (dumps_default (JObj rec))).
  split; [unfold jsonl_line; now rewrite str_encode_append|].
  split; [exact Hlen|]. split; [exact Hbytes|].
  rewrite Forall_forall in Hbytes.
  split; intros Hin; apply Hbytes in Hin; unfold printable_byte in Hin;
    cbn in Hin; lia.
Qed.

(** A record whose string holds U+00E9, a line feed, U+20AC and U+1F600:
    the line has no line feed inside, and the string is written with the
    escapes of [json.dumps]. *)
Lemma X4_one_record_one_line_witness :
  let F := sample_float in
  let s := string_of_list_ascii
             (map ascii_of_nat
                  [195; 169; 10; 226; 130; 172; 240; 159; 152; 128]%nat) in
  let rec := [("k", JStr s)] in
  (exists body : list byte,
      jsonl_line rec = body ++ [x0a] /\ ~ In x0a body)
  /\ encode_basestring_ascii s
     = String quote_char
         ("\u00e9\n\u20ac\ud83d\ude00" +++ String quote_char "").
Proof.
  intros F s rec.
  assert (Hfloat : forall q, printable_text (@float_repr F q)).
  { intros q. cbn [float_repr F sample_float].
    apply printable_append; [apply int_repr_printable|].
    repeat constructor; unfold printable; cbn; lia. }
  destruct (@X4_one_record_one_line F rec Hfloat)
    as [(body & Hline & _ & _ & Hnl & _) _].
  split; [exists body; split; assumption|].
  vm_compute. reflexivity.
Defined.

(** ** The step budget and the accounts of a run *)





(** [steps and step >= steps] *)
Lemma budget_check (cfg : run_config) (st : Z) :
  negb (steps cfg =? 0) && (st >=? steps cfg)
  = negb (steps cfg =? 0) && (steps cfg <=? st).
Proof. now rewrite Z.geb_leb. Qed.

Lemma budget_spent (cfg : run_config) (st : Z) :
  steps cfg <> 0 -> steps cfg <= st ->
  negb (steps cfg =? 0) && (st >=? steps cfg) = true.
Proof.
  intros Hne Hle. rewrite budget_check.
  apply andb_true_iff. split.
  - apply negb_true_iff. now apply Z.eqb_neq.
  - now apply Z.leb_le.
Qed.

Lemma budget_left (cfg : run_config) (st : Z) :
  0 < steps cfg -> st < steps cfg ->
  negb (steps cfg =? 0) && (st >=? steps cfg) = false.
Proof.
  intros Hpos Hlt. rewrite budget_check.
  apply andb_false_iff. right. now apply Z.leb_gt.
Qed.



Lemma manual_final_step_bounds (cfg : run_config) (ticks : list tick) :
  forall st,
    st <= manual_final_step cfg ticks st
    <= st + Z.of_nat (List.length ticks).
Proof.
  induction ticks as [|tk rest IH]; intros st; cbn [manual_final_step].
  - cbn. lia.
  - cbn [List.length]. rewrite Nat2Z.inj_succ.
    destruct (episode_finished tk && negb (auto_restart cfg)); [lia|].
    destruct (negb (steps cfg =? 0) && (st >=? steps cfg)); [lia|].
    destruct (quit_requested tk); [lia|].
    specialize (IH (st + 1)). lia.
Qed.

Lemma manual_final_step_budget (cfg : run_config) (ticks : list tick) :
  forall st,
    0 < steps cfg -> st <= steps cfg ->
    manual_final_step cfg ticks st <= steps cfg.
Proof.
  induction ticks as [|tk rest IH]; intros st Hpos Hle;
    cbn [manual_final_step]; [exact Hle|].
  destruct (episode_finished tk && negb (auto_restart cfg)); [exact Hle|].
  destruct (Z.eq_dec st (steps cfg)) as [->|Hne].
  - rewrite budget_spent by lia. lia.
  - rewrite budget_left by lia.
    destruct (quit_requested tk); [lia|]. apply IH; lia.
Qed.

Lemma manual_final_step_exact (cfg : run_config) (ticks : list tick) :
  forall st,
    0 < steps cfg -> st <= steps cfg ->
    steps cfg - st <= Z.of_nat (List.length ticks) ->
    Forall (manual_goes_on cfg) ticks ->
    manual_final_step cfg ticks st = steps cfg.
Proof.
  induction ticks as [|tk rest IH]; intros st Hpos Hle Hlen Hall.
  - cbn in Hlen |- *. lia.
  - inversion Hall as [|? ? [Hq Hfin] Hrest]; subst.
    cbn [manual_final_step]. rewrite Hfin, Hq.
    destruct (Z.eq_dec st (steps cfg)) as [->|Hne].
    + now rewrite budget_spent by lia.
    + rewrite budget_left by lia.
      apply IH; try assumption; [lia|].
      cbn [List.length] in Hlen. lia.
Qed.

Section Budget.
Context `{PyFloat}.

(** A loop whose budget is spent stops at its head. *)
Lemma episode_loop_spent (cfg : run_config) (ticks : list tick)
      (s : loop_state) (tr : list io_event) :
  steps cfg <> 0 -> steps cfg <= step s ->
  episode_loop cfg ticks s tr = (inr s, tr).
Proof.
  intros Hne Hle. destruct ticks as [|tk rest]; [reflexivity|].
  cbn [episode_loop]. rewrite budget_spent by assumption.
  now destruct (episode_finished tk).
Qed.

Lemma manual_loop_spent (cfg : run_config) (ticks : list tick)
      (s : loop_state) (tr : list io_event) :
  steps cfg <> 0 -> steps cfg <= step s ->
  manual_loop cfg ticks s tr = (inr s, tr)
  /\ manual_final_step cfg ticks (step s) = step s.
Proof.
  intros Hne Hle. destruct ticks as [|tk rest]; [now split|].
  cbn [manual_loop manual_final_step]. rewrite budget_spent by assumption.
  now destruct (episode_finished tk && negb (auto_restart cfg)).
Qed.


(** The step counter at the end of the loop of [play_manual]. *)
Lemma manual_loop_steps (cfg : run_config) (ticks : list tick) :
  forall (s s' : loop_state) (tr tr' : list io_event),
    manual_loop cfg ticks s tr = (inr s', tr') ->
    step s' = manual_final_step cfg ticks (step s).
Proof.
  induction ticks as [|tk rest IH]; intros s s' tr tr' E.
  - cbn in E. unfold ret in E. now injection E as <- <-.
  - cbn [manual_loop manual_final_step] in E |- *.
    destruct (episode_finished tk && negb (auto_restart cfg));
      [unfold ret in E; now injection E as <- <-|].
    destruct (negb (steps cfg =? 0) && (step s >=? steps cfg));
      [unfold ret in E; now injection E as <- <-|].
    destruct (quit_requested tk);
      [unfold ret in E; now injection E as <- <-|].
    set (s2 := if has_button cfg "ATTACK" && attack_pressed tk then _ else _)
      in *.
    assert (Hs2 : step s2 = step s + 1)
      by (unfold s2; now destruct (has_button cfg "ATTACK" && attack_pressed tk)).
    unfold bind in E.
    destruct (record_step cfg meta_manual tk s2 tr) as [[e|s3] tr3] eqn:Er;
      [discriminate E|].
    destruct (record_step_any _ _ _ _ _ _ _ Er) as (_ & Hs3 & _).
    rewrite (IH _ _ _ _ E), Hs3, Hs2. reflexivity.
Qed.
End Budget.



(** X6. The step count [play_manual] reports is at most the number of
    engine answers and at most a positive [--steps] budget; it is the
    budget when no quit event comes and the episode does not end (or is
    restarted) before. With a negative budget the loop stops at once: the
    count is 0 and the sinks are opened and closed with nothing written. *)
Theorem X6_manual_step_budget :
  forall `{PyFloat} (cfg : run_config) (ticks : list tick)
         (tr tr' : list io_event) (r : Z),
    play_manual cfg ticks tr = (inr r, tr') ->
    r = manual_final_step cfg ticks 0
    /\ 0 <= r <= Z.of_nat (List.length ticks)
    /\ (0 < steps cfg -> r <= steps cfg)
    /\ (0 < steps cfg <= Z.of_nat (List.length ticks) ->
        Forall (manual_goes_on cfg) ticks -> r = steps cfg)
    /\ (steps cfg < 0 ->
        r = 0
        /\ tr' = tr ++ (open_events (sink_of (t0_jsonl cfg))
                          ++ open_events (sink_of (fprime_frames cfg)))
                    ++ close_events (sink_of (t0_jsonl cfg))
                    ++ close_events (sink_of (fprime_frames cfg))).
Proof.
  intros F cfg ticks tr tr' r Hrun.
  rewrite play_manual_outcome in Hrun. cbv zeta in Hrun.
  destruct (manual_loop cfg ticks _ _) as [[e|s] tr1] eqn:Eloop;
    [discriminate Hrun|].
  injection Hrun as <- <-.
  pose proof (manual_loop_steps _ _ _ _ _ _ Eloop) as Hstep.
  cbn [loop_start step] in Hstep.
  pose proof (manual_final_step_bounds cfg ticks 0) as Hbounds.
  split; [exact Hstep|]. split; [lia|].
  split; [intros Hpos; rewrite Hstep; apply manual_final_step_budget; lia|].
  split.
  { intros Hpos Hall. rewrite Hstep.
    apply manual_final_step_exact; try assumption; lia. }
  intros Hneg.
  destruct (manual_loop_spent cfg ticks
              (loop_start (mkT0 (sink_of (t0_jsonl cfg))
                                (sink_of (fprime_frames cfg)) None 0 0))
              (tr ++ open_events (sink_of (t0_jsonl cfg))
                  ++ open_events (sink_of (fprime_frames cfg))))
    as (Hloop & Hfinal); [lia | cbn; lia |].
  rewrite Hloop in Eloop. injection Eloop as <- <-.
  split; [reflexivity|]. now rewrite <- !app_assoc.
Qed.

Lemma X6_manual_step_budget_witness :
  exists tr' : list io_event,
    @play_manual sample_float
      (mkConfig 10 0 5 None None false ["ATTACK"]) scenario_ticks []
    = (inr 10, tr').
Proof.
  destruct (@play_manual_shape sample_float
              (mkConfig 10 0 5 None None false ["ATTACK"]) scenario_ticks []
              (or_introl eq_refl))
    as (ct & Hrun & _).
  destruct (@X6_manual_step_budget sample_float _ _ _ _ _ Hrun)
    as (_ & _ & _ & Hexact & _).
  eexists. rewrite Hrun. rewrite Hexact; [reflexivity| |].
  - cbn. lia.
  - unfold scenario_ticks, scenario_health.
    repeat (constructor; [split; reflexivity|]). constructor.
Defined.

(** ** The command line *)

Section MainFacts.
Context `{PyFloat}.

(** [main] through the function it calls. *)
Lemma main_unfold (args : cli_args) (btns : list string) (ticks : list tick)
      (now : Q) (draw : nat) (tr : list io_event) :
  main args btns ticks now draw tr
  = if args_manual args
    then match play_manual (main_config args btns) ticks tr with
         | (inr r, tr') => (inr (inl r), tr')
         | (inl e, tr') => (inl e, tr')
         end
    else match run_episode (main_config args btns) ticks now draw tr with
         | (inr d, tr') => (inr (inr d), tr')
         | (inl e, tr') => (inl e, tr')
         end.
Proof.
  unfold main, bind, ret. destruct (args_manual args).
  - now destruct (play_manual _ ticks tr) as [[e|r] tr'].
  - now destruct (run_episode _ ticks now draw tr) as [[e|d] tr'].
Qed.

(** The traces of both kinds of run are bracketed. *)
Lemma runs_bracketed (cfg : run_config) (ticks : list tick) (now : Q)
      (draw : nat) (tr : list io_event) :
  bracketed_trace cfg tr (snd (run_episode cfg ticks now draw tr))
  /\ bracketed_trace cfg tr (snd (play_manual cfg ticks tr)).
Proof.
  pose proof (run_episode_outcome cfg ticks now draw tr) as Hrun.
  pose proof (play_manual_outcome cfg ticks tr) as Hman.
  cbv zeta in Hrun, Hman.
  destruct (episode_loop cfg ticks _ _) as [out tr1] eqn:El.
  destruct (manual_loop cfg ticks _ _) as [outm trm] eqn:Em.
  destruct (episode_loop_any _ _ _ _ _ _ El) as ((evs & -> & Hevs) & _).
  destruct (manual_loop_any _ _ _ _ _ _ Em) as ((evm & -> & Hevm) & _).
  cbn [loop_start t0 jsonl fbin] in Hevs, Hevm.
  split.
  - rewrite Hrun. destruct out; cbn [snd]; now apply bracketed_intro.
  - rewrite Hman. destruct outm; cbn [snd]; now apply bracketed_intro.
Qed.

Lemma main_bracketed (args : cli_args) (btns : list string)
      (ticks : list tick) (now : Q) (draw : nat) (tr : list io_event) :
  bracketed_trace (main_config args btns) tr
                  (snd (main args btns ticks now draw tr)).
Proof.
  rewrite main_unfold.
  destruct (runs_bracketed (main_config args btns) ticks now draw tr)
    as [Hrun Hman].
  destruct (args_manual args).
  - now destruct (play_manual _ ticks tr) as [[e|r] tr'].
  - now destruct (run_episode _ ticks now draw tr) as [[e|d] tr'].
Qed.

(** With cadence 0 a step records nothing, so the loops end normally with
    the trace they started with. *)
Lemma record_step_off (cfg : run_config) (meta : dict) (tk : tick)
      (s : loop_state) (tr : list io_event) :
  t0_every cfg = 0 -> record_step cfg meta tk s tr = (inr s, tr).
Proof. intros E. unfold record_step. now rewrite E. Qed.

Lemma episode_loop_off (cfg : run_config) (ticks : list tick) :
  t0_every cfg = 0 ->
  forall (s : loop_state) (tr : list io_event),
    exists s', episode_loop cfg ticks s tr = (inr s', tr).
Proof.
  intros E. induction ticks as [|tk rest IH]; intros s tr;
    cbn [episode_loop]; [now exists s|].
  destruct (episode_finished tk); [now exists s|].
  destruct (negb (steps cfg =? 0) && (step s >=? steps cfg)); [now exists s|].
  unfold bind. rewrite record_step_off by exact E. apply IH.
Qed.

Lemma manual_loop_off (cfg : run_config) (ticks : list tick) :
  t0_every cfg = 0 ->
  forall (s : loop_state) (tr : list io_event),
    exists s', manual_loop cfg ticks s tr = (inr s', tr).
Proof.
  intros E. induction ticks as [|tk rest IH]; intros s tr;
    cbn [manual_loop]; [now exists s|].
  destruct (episode_finished tk && negb (auto_restart cfg)); [now exists s|].
  destruct (negb (steps cfg =? 0) && (step s >=? steps cfg)); [now exists s|].
  destruct (quit_requested tk); [eexists; reflexivity|].
  unfold bind. rewrite record_step_off by exact E. apply IH.
Qed.

Lemma main_off (args : cli_args) (btns : list string) (ticks : list tick)
      (now : Q) (draw : nat) (tr : list io_event) :
  args_t0_every args = 0 ->
  exists r,
    main args btns ticks now draw tr
    = (inr r, tr ++ open_events (sink_of (args_fprime_frames args))
                 ++ close_events (sink_of (args_fprime_frames args))).
Proof.
  intros E. rewrite main_unfold.
  assert (Ej : sink_of (t0_jsonl (main_config args btns)) = None).
  { cbn [main_config t0_jsonl]. unfold main_t0_jsonl. now rewrite E. }
  destruct (args_manual args).
  - rewrite play_manual_outcome. cbv zeta.
    destruct (manual_loop_off (main_config args btns) ticks E
                (loop_start (mkT0 (sink_of (t0_jsonl (main_config args btns)))
                                  (sink_of (fprime_frames
                                              (main_config args btns)))
                                  None 0 0))
                (tr ++ open_events (sink_of (t0_jsonl (main_config args btns)))
                    ++ open_events (sink_of (fprime_frames
                                               (main_config args btns)))))
      as [s' ->].
    rewrite Ej. cbn [main_config fprime_frames open_events close_events app].
    eexists. now rewrite <- app_assoc.
  - rewrite run_episode_outcome. cbv zeta.
    destruct (episode_loop_off (main_config args btns) ticks E
                (loop_start (mkT0 (sink_of (t0_jsonl (main_config args btns)))
                                  (sink_of (fprime_frames
                                              (main_config args btns)))
                                  None 0 0))
                (tr ++ open_events (sink_of (t0_jsonl (main_config args btns)))
                    ++ open_events (sink_of (fprime_frames
                                               (main_config args btns)))))
      as [s' ->].
    rewrite Ej. cbn [main_config fprime_frames open_events close_events app].
    eexists. now rewrite <- app_assoc.
Qed.
End MainFacts.

Lemma flushed_writes_paths (f : option string) (evs : list io_event) :
  flushed_writes None f evs -> Forall (fun e => f = Some (io_path e)) evs.
Proof.
  intros (l & -> & Hl). induction Hl as [|[p d] l [Hp|Hp] _ IH];
    cbn [flat_map write_flush fst snd app]; [constructor|discriminate Hp|].
  cbn [fst] in Hp. now repeat constructor.
Qed.

Lemma open_events_paths (f : option string) :
  Forall (fun e => f = Some (io_path e)) (open_events f).
Proof. destruct f; now repeat constructor. Qed.

Lemma close_events_paths (f : option string) :
  Forall (fun e => f = Some (io_path e)) (close_events f).
Proof. destruct f; now repeat constructor. Qed.

(** X7. [main] gates the line sink. With [--t0-every 0] (the default)
    the run ends normally and records nothing: the line file is not even
    opened, although [--t0-jsonl] has a default path, and a frame file is
    opened and closed empty. With a [--t0-sink] other than [file] every
    file operation of the run is on the frame file. With a non-zero
    cadence, the sink [file] and a non-empty path, the run begins by
    opening the line file. *)
Theorem X7_main_gates_the_line_sink :
  forall `{PyFloat} (args : cli_args) (btns : list string)
         (ticks : list tick) (now : Q) (draw : nat) (tr : list io_event),
    (args_t0_every args = 0 ->
     exists r,
       main args btns ticks now draw tr
       = (inr r, tr ++ open_events (sink_of (args_fprime_frames args))
                    ++ close_events (sink_of (args_fprime_frames args))))
    /\ (exists r, main default_args btns ticks now draw tr = (inr r, tr))
    /\ (args_t0_every args = 0 \/ args_t0_sink args <> "file" ->
        exists evs,
          snd (main args btns ticks now draw tr) = tr ++ evs
          /\ Forall (fun e => sink_of (args_fprime_frames args)
                              = Some (io_path e)) evs)
    /\ (args_t0_every args <> 0 -> args_t0_sink args = "file" ->
        args_t0_jsonl args <> "" ->
        exists evs,
          snd (main args btns ticks now draw tr)
          = tr ++ IoOpen (args_t0_jsonl args) :: evs).
Proof.
  intros F args btns ticks now draw tr.
  pose proof (main_bracketed args btns ticks now draw tr)
    as (body & Htr & Hbody).
  cbn [main_config t0_jsonl fprime_frames] in Htr, Hbody.
  split; [apply main_off|].
  split.
  { destruct (main_off default_args btns ticks now draw tr eq_refl)
      as [r Hr].
    exists r. rewrite Hr. cbn. now rewrite app_nil_r. }
  split.
  - intros Hoff.
    assert (Ej : main_t0_jsonl args = None).
    { unfold main_t0_jsonl. destruct Hoff as [->|Hsink]; [reflexivity|].
      destruct (String.eqb_spec (args_t0_sink args) "file") as [E|_];
        [contradiction|]. now rewrite andb_false_r. }
    rewrite Ej in Htr, Hbody. cbn [sink_of open_events close_events app] in *.
    eexists. split; [exact Htr|].
    apply Forall_app. split; [apply open_events_paths|].
    apply Forall_app. split; [now apply flushed_writes_paths|].
    apply close_events_paths.
  - intros Hevery Hsink Hpath.
    assert (Ej : sink_of (main_t0_jsonl args) = Some (args_t0_jsonl args)).
    { apply sink_of_Some. split; [|exact Hpath].
      unfold main_t0_jsonl. rewrite Hsink, String.eqb_refl.
      apply Z.eqb_neq in Hevery. now rewrite Hevery. }
    rewrite Ej in Htr. cbn [open_events app] in Htr.
    eexists. rewrite Htr. cbn [app]. reflexivity.
Qed.

(** ** Seconds to tics *)









(** ** The sign of the cadence *)

(** [step % t0_every == 0] does not see the sign of the cadence. *)
Lemma cadence_hit_opp (every st : Z) :
  cadence_hit (- every) st = cadence_hit every st.
Proof.
  unfold cadence_hit.
  destruct (Z.eqb_spec every 0) as [->|Hne]; [reflexivity|].
  destruct (Z.eqb_spec (- every) 0) as [E|_]; [lia|].
  cbn [negb andb].
  destruct (Z.eqb_spec (st mod every) 0) as [E|E];
    destruct (Z.eqb_spec (st mod - every) 0) as [E'|E']; try reflexivity;
    exfalso.
  - apply E'. now apply Z_mod_zero_opp_r.
  - apply E. apply Z_mod_zero_opp_r in E'.
    now rewrite Z.opp_involutive in E'.
Qed.

Section CadenceSign.
Context `{PyFloat}.

Lemma record_step_opp (cfg : run_config) (meta : dict) (tk : tick)
      (s : loop_state) (tr : list io_event) :
  record_step (config_with_every cfg (- t0_every cfg)) meta tk s tr
  = record_step cfg meta tk s tr.
Proof.
  unfold record_step, config_with_every. cbn [t0_every].
  now rewrite cadence_hit_opp.
Qed.

Lemma episode_loop_opp (cfg : run_config) (ticks : list tick) :
  forall (s : loop_state) (tr : list io_event),
    episode_loop (config_with_every cfg (- t0_every cfg)) ticks s tr
    = episode_loop cfg ticks s tr.
Proof.
  induction ticks as [|tk rest IH]; intros s tr; [reflexivity|].
  cbn [episode_loop].
  change (steps (config_with_every cfg (- t0_every cfg))) with (steps cfg).
  change (has_button (config_with_every cfg (- t0_every cfg)) "ATTACK")
    with (has_button cfg "ATTACK").
  destruct (episode_finished tk); [reflexivity|].
  destruct (negb (steps cfg =? 0) && (step s >=? steps cfg)); [reflexivity|].
  unfold bind. rewrite record_step_opp.
  destruct (record_step cfg meta_episode tk _ tr) as [[e|s4] tr4];
    [reflexivity | apply IH].
Qed.

Lemma manual_loop_opp (cfg : run_config) (ticks : list tick) :
  forall (s : loop_state) (tr : list io_event),
    manual_loop (config_with_every cfg (- t0_every cfg)) ticks s tr
    = manual_loop cfg ticks s tr.
Proof.
  induction ticks as [|tk rest IH]; intros s tr; [reflexivity|].
  cbn [manual_loop].
  change (steps (config_with_every cfg (- t0_every cfg))) with (steps cfg).
  change (auto_restart (config_with_every cfg (- t0_every cfg)))
    with (auto_restart cfg).
  change (has_button (config_with_every cfg (- t0_every cfg)) "ATTACK")
    with (has_button cfg "ATTACK").
  destruct (episode_finished tk && negb (auto_restart cfg)); [reflexivity|].
  destruct (negb (steps cfg =? 0) && (step s >=? steps cfg)); [reflexivity|].
  destruct (quit_requested tk); [reflexivity|].
  unfold bind. rewrite record_step_opp.
  destruct (record_step cfg meta_manual tk _ tr) as [[e|s3] tr3];
    [reflexivity | apply IH].
Qed.

Lemma runs_opp (cfg : run_config) (ticks : list tick) (now : Q) (draw : nat)
      (tr : list io_event) :
  run_episode (config_with_every cfg (- t0_every cfg)) ticks now draw tr
  = run_episode cfg ticks now draw tr
  /\ play_manual (config_with_every cfg (- t0_every cfg)) ticks tr
     = play_manual cfg ticks tr.
Proof.
  split.
  - rewrite !run_episode_outcome. cbv zeta.
    change (t0_jsonl (config_with_every cfg (- t0_every cfg)))
      with (t0_jsonl cfg).
    change (fprime_frames (config_with_every cfg (- t0_every cfg)))
      with (fprime_frames cfg).
    rewrite episode_loop_opp.
    destruct (episode_loop cfg ticks _ _) as [[e|s] tr1]; reflexivity.
  - rewrite !play_manual_outcome. cbv zeta.
    change (t0_jsonl (config_with_every cfg (- t0_every cfg)))
      with (t0_jsonl cfg).
    change (fprime_frames (config_with_every cfg (- t0_every cfg)))
      with (fprime_frames cfg).
    rewrite manual_loop_opp.
    destruct (manual_loop cfg ticks _ _) as [[e|s] tr1]; reflexivity.
Qed.

Lemma main_config_opp (args : cli_args) (btns : list string) :
  main_config (with_t0_every args (- args_t0_every args)) btns
  = config_with_every (main_config args btns)
                      (- t0_every (main_config args btns)).
Proof.
  unfold main_config, config_with_every, with_t0_every, main_t0_jsonl.
  cbn [steps slow_ms t0_every t0_jsonl fprime_frames auto_restart buttons
       args_manual args_steps args_slow_ms args_force_movement
       args_episode_seconds args_auto_restart args_t0_every args_t0_sink
       args_t0_jsonl args_fprime_frames].
  replace (- args_t0_every args =? 0) with (args_t0_every args =? 0);
    [reflexivity|].
  destruct (Z.eqb_spec (args_t0_every args) 0) as [E|E];
    destruct (Z.eqb_spec (- args_t0_every args) 0) as [E'|E'];
    try reflexivity; lia.
Qed.
End CadenceSign.

(** X9. The sign of the cadence does not matter: [--t0-every -5] records
    at the same steps as [--t0-every 5], since [step % t0_every == 0] and
    the truth of [t0_every] do not see it. The whole run of [main], its
    result and every file operation, is the same; a cadence of 1 or -1
    records every step. *)
Theorem X9_cadence_sign_is_ignored :
  forall `{PyFloat} (args : cli_args) (btns : list string)
         (ticks : list tick) (now : Q) (draw : nat) (tr : list io_event)
         (st : Z),
    main (with_t0_every args (- args_t0_every args)) btns ticks now draw tr
    = main args btns ticks now draw tr
    /\ cadence_hit (- args_t0_every args) st
       = cadence_hit (args_t0_every args) st
    /\ cadence_hit 1 st = true /\ cadence_hit (-1) st = true.
Proof.
  intros F args btns ticks now draw tr st.
  split; [|split; [apply cadence_hit_opp|]].
  - rewrite !main_unfold, main_config_opp.
    change (args_manual (with_t0_every args (- args_t0_every args)))
      with (args_manual args).
    destruct (runs_opp (main_config args btns) ticks now draw tr)
      as [-> ->].
    reflexivity.
  - assert (E1 : cadence_hit 1 st = true).
    { unfold cadence_hit. now rewrite Z.mod_1_r. }
    split; [exact E1|].
    exact (eq_trans (cadence_hit_opp 1 st) E1).
Qed.

(** ** The keys of a record *)

Lemma keys_dict_update (m d : dict) :
  keys (dict_update d m) = add_keys (keys d) (keys m).
Proof.
  unfold dict_update, add_keys. revert d.
  induction m as [|[k v] m IH]; intros d; [reflexivity|].
  change (keys ((k, v) :: m)) with (k :: keys m).
  cbn [fold_left fst snd]. rewrite IH. now rewrite keys_dict_set.
Qed.

Lemma add_keys_spec (new : list string) :
  forall ks : list string,
    (exists rest, add_keys ks new = ks ++ rest)
    /\ (NoDup ks -> NoDup (add_keys ks new))
    /\ (forall k, In k (add_keys ks new) <-> In k ks \/ In k new).
Proof.
  unfold add_keys.
  induction new as [|n new IH]; intros ks; cbn [fold_left].
  - split; [exists []; now rewrite app_nil_r|].
    split; [auto|]. intros k. cbn. tauto.
  - destruct (in_dec string_dec n ks) as [Hin|Hnot].
    + destruct (IH ks) as ((rest & Hrest) & Hnd & Hiff).
      split; [now exists rest|]. split; [exact Hnd|].
      intros k. rewrite Hiff. cbn [In]. split; [tauto|].
      intros [Hk|[<-|Hk]]; tauto.
    + destruct (IH (ks ++ [n])) as ((rest & Hrest) & Hnd & Hiff).
      split; [exists ([n] ++ rest); now rewrite Hrest, <- app_assoc|].
      split.
      * intros Hks. apply Hnd. apply NoDup_app; [exact Hks| |].
        -- repeat constructor. intros [].
        -- intros x Hx [<-|[]]. now apply Hnot.
      * intros k. rewrite Hiff, in_app_iff. cbn [In]. tauto.
Qed.

Lemma add_keys_app (ks a b : list string) :
  add_keys ks (a ++ b) = add_keys (add_keys ks a) b.
Proof. apply fold_left_app. Qed.

(** The keys of the record of a tick, from those of the metadata. *)
Lemma keys_tick_record `{PyFloat} (meta : dict) (now : Q) (g : game_vars)
      (d : Z * Z * Z) (ammo : list (string * Z)) (st : Z) :
  keys (attach_crc (tick_record meta now g d ammo st))
  = add_keys (add_keys tick_head_keys (keys meta)) tick_own_keys.
Proof.
  destruct d as [[din dout] dk]. unfold attach_crc.
  rewrite keys_dict_set.
  transitivity (add_keys (keys (tick_record meta now g (din, dout, dk)
                                            ammo st)) ["crc32c"]);
    [reflexivity|].
  unfold tick_record. rewrite !keys_dict_update, <- add_keys_app.
  reflexivity.
Qed.

(** X10. The keys of a record are settled by the keys of the metadata
    alone: every record of a session has the same keys in the same order,
    whatever the readings, without a key twice; they start with [type],
    [schema], [unix_time], [unix_time_ms], [step] and hold the keys of the
    metadata and the recorder's own and no other. The fields assigned
    after the metadata always win over it: [health] is the reading,
    [level] is the [level_start] of the metadata or [E1M1], and [crc32c]
    is the checksum of the record before it was attached, even when the
    metadata has such keys. *)
Theorem X10_record_keys_are_fixed :
  forall `{PyFloat} (meta : dict) (now now' : Q) (g g' : game_vars)
         (d d' : Z * Z * Z) (ammo ammo' : list (string * Z)) (st st' : Z),
    keys (attach_crc (tick_record meta now g d ammo st))
    = keys (attach_crc (tick_record meta now' g' d' ammo' st'))
    /\ NoDup (keys (attach_crc (tick_record meta now g d ammo st)))
    /\ firstn 5 (keys (attach_crc (tick_record meta now g d ammo st)))
       = tick_head_keys
    /\ (forall k,
           In k (keys (attach_crc (tick_record meta now g d ammo st)))
           <-> In k tick_head_keys \/ In k (keys meta) \/ In k tick_own_keys)
    /\ dict_get (attach_crc (tick_record meta now g d ammo st)) "health"
       = Some (JInt (HEALTH g))
    /\ dict_get (attach_crc (tick_record meta now g d ammo st)) "level"
       = Some (dict_get_default meta "level_start" (JStr "E1M1"))
    /\ dict_get (attach_crc (tick_record meta now g d ammo st)) "crc32c"
       = Some (JStr (checksum (tick_record meta now g d ammo st))).
Proof.
  intros F meta now now' g g' d d' ammo ammo' st st'.
  rewrite !keys_tick_record.
  destruct (add_keys_spec (keys meta) tick_head_keys)
    as ((rest & Hrest) & Hnd & Hiff).
  destruct (add_keys_spec tick_own_keys
              (add_keys tick_head_keys (keys meta)))
    as ((rest' & Hrest') & Hnd' & Hiff').
  split; [reflexivity|].
  split.
  { apply Hnd', Hnd. unfold tick_head_keys.
    repeat constructor; simpl; intuition discriminate. }
  split; [now rewrite Hrest', Hrest|].
  split; [intros k; rewrite Hiff', Hiff; tauto|].
  assert (Hown : forall k,
             k <> "crc32c" ->
             dict_get (attach_crc (tick_record meta now g d ammo st)) k
             = dict_get (tick_record meta now g d ammo st) k).
  { intros k Hk. unfold attach_crc. now rewrite dict_get_set_other. }
  split; [|split].
  - rewrite Hown by discriminate. destruct d as [[din dout] dk].
    unfold tick_record.
    rewrite dict_get_update
      by (cbn; repeat constructor; simpl; intuition discriminate).
    reflexivity.
  - rewrite Hown by discriminate. destruct d as [[din dout] dk].
    unfold tick_record.
    rewrite dict_get_update
      by (cbn; repeat constructor; simpl; intuition discriminate).
    reflexivity.
  - unfold attach_crc. apply dict_get_set_same.
Qed.

(** ** Buttons and actions *)

Lemma last_index_spec (name : string) (l : list string) :
  forall (a i : nat),
    last_index name l a = Some i ->
    (a <= i)%nat /\ nth_error l (i - a) = Some name.
Proof.
  induction l as [|x l IH]; intros a i; cbn [last_index]; [discriminate|].
  destruct (last_index name l (S a)) as [j|] eqn:E.
  - intros Ei. injection Ei as <-. destruct (IH _ _ E) as [Hle Hnth].
    split; [lia|].
    replace (j - a)%nat with (S (j - S a)) by lia. exact Hnth.
  - destruct (String.eqb_spec name x) as [->|_]; [|discriminate].
    intros Ei. injection Ei as <-. split; [lia|].
    now rewrite Nat.sub_diag.
Qed.

Lemma last_index_mem (name : string) (l : list string) :
  forall a : nat,
    match last_index name l a with Some _ => true | None => false end
    = existsb (String.eqb name) l.
Proof.
  induction l as [|x l IH]; intros a; cbn [last_index existsb]; [reflexivity|].
  specialize (IH (S a)).
  destruct (last_index name l (S a)) as [j|].
  - now rewrite <- IH, orb_true_r.
  - rewrite <- IH, orb_false_r. now destruct (String.eqb name x).
Qed.

Lemma idx_get (name : string) (l : list string) :
  forall (a : nat) (acc : list (string * nat)),
    dict_get (fold_left (fun acc ix => dict_set acc (snd ix) (fst ix))
                        (combine (seq a (List.length l)) l) acc) name
    = match last_index name l a with
      | Some i => Some i
      | None => dict_get acc name
      end.
Proof.
  induction l as [|x l IH]; intros a acc; [reflexivity|].
  cbn [List.length seq combine fold_left last_index fst snd].
  rewrite IH. destruct (last_index name l (S a)); [reflexivity|].
  destruct (String.eqb_spec name x) as [->|Hne];
    [apply dict_get_set_same | now apply dict_get_set_other].
Qed.

(** The index of a name is a place of the name, and a name has an index
    exactly when it is a button. *)
Lemma make_action_map_spec (buttons : list string) :
  snd (make_action_map buttons) = buttons
  /\ (forall name i,
         dict_get (fst (make_action_map buttons)) name = Some i ->
         nth_error buttons i = Some name /\ (i < List.length buttons)%nat)
  /\ (forall name,
         dict_mem (fst (make_action_map buttons)) name
         = existsb (String.eqb name) buttons).
Proof.
  unfold make_action_map, enumerate, dict_mem. cbn [fst snd].
  split; [reflexivity|]. split.
  - intros name i. rewrite idx_get. cbn [dict_get].
    destruct (last_index name buttons 0) as [j|] eqn:E; [|discriminate].
    intros Ei. injection Ei as <-.
    destruct (last_index_spec _ _ _ _ E) as [_ Hnth].
    rewrite Nat.sub_0_r in Hnth. split; [exact Hnth|].
    apply nth_error_Some. now rewrite Hnth.
  - intros name. rewrite idx_get. cbn [dict_get].
    rewrite <- (last_index_mem name buttons 0).
    now destruct (last_index name buttons 0).
Qed.

Lemma list_assign_spec (v : Z) (l : list Z) :
  forall i : nat,
    (i < List.length l)%nat ->
    exists l',
      list_assign l i v = Some l'
      /\ List.length l' = List.length l
      /\ nth_error l' i = Some v
      /\ (forall j, j <> i -> nth_error l' j = nth_error l j)
      /\ (forall P : Z -> Prop, P v -> Forall P l -> Forall P l').
Proof.
  induction l as [|x l IH]; intros i Hi; [cbn in Hi; lia|].
  destruct i as [|i]; cbn [list_assign].
  - exists (v :: l). split; [reflexivity|]. split; [reflexivity|].
    split; [reflexivity|]. split.
    + intros [|j] Hj; [congruence|reflexivity].
    + intros P Hv Hl. inversion Hl; subst. now constructor.
  - cbn [List.length] in Hi.
    destruct (IH i ltac:(lia)) as (l' & -> & Hlen & Hnth & Hother & HP).
    exists (x :: l'). split; [reflexivity|].
    split; [cbn [List.length]; now rewrite Hlen|].
    split; [exact Hnth|]. split.
    + intros [|j] Hj; [reflexivity|]. cbn [nth_error]. apply Hother. lia.
    + intros P Hv Hl. inversion Hl; subst. constructor; [assumption|].
      now apply HP.
Qed.

Lemma empty_action_spec (n : nat) :
  List.length (empty_action n) = n
  /\ Forall (fun v => v = 0 \/ v = 1) (empty_action n)
  /\ (forall j, nth_error (empty_action n) j <> Some 1).
Proof.
  unfold empty_action. split; [apply repeat_length|]. split.
  - apply Forall_forall. intros v Hv. apply repeat_spec in Hv. now left.
  - intros j Hj. apply nth_error_In, repeat_spec in Hj. discriminate.
Qed.

Section Actions.
Variable buttons : list string.

Let amap := fst (make_action_map buttons).

(** One conditional press on an action of the right length: no error, the
    length is kept and the entry of the button is 1 after it. *)
Lemma press_spec (name : string) (cond : bool) (action : list Z) :
  action_for buttons action ->
  exists a',
    press amap name cond action = Some a'
    /\ action_for buttons a'
    /\ (forall j, nth_error a' j = Some 1
                  <-> nth_error action j = Some 1
                      \/ (dict_get amap name = Some j /\ cond = true)).
Proof.
  intros [Hlen Hbits]. unfold press, dict_mem, assign_button.
  destruct (dict_get amap name) as [i|] eqn:Ei; cbn [andb].
  - destruct cond.
    + destruct (proj1 (proj2 (make_action_map_spec buttons)) _ _ Ei)
        as [_ Hi].
      rewrite <- Hlen in Hi.
      destruct (list_assign_spec 1 action i Hi)
        as (a' & -> & Hlen' & Hnth & Hother & HP).
      exists a'. split; [reflexivity|].
      split; [split; [congruence | apply HP; [now right | exact Hbits]]|].
      intros j. destruct (Nat.eq_dec j i) as [->|Hne].
      * split; [intros _; now right | intros _; exact Hnth].
      * rewrite (Hother j Hne). split; [now left|].
        intros [Hj|[Hj _]]; [exact Hj|]. injection Hj as <-. now elim Hne.
    + exists action. split; [reflexivity|]. split; [now split|].
      intros j. split; [now left|]. intros [Hj|[_ Hc]]; [exact Hj|discriminate].
  - exists action. split; [reflexivity|]. split; [now split|].
    intros j. split; [now left|]. intros [Hj|[Hc _]]; [exact Hj|discriminate].
Qed.

(** The test before the bookkeeping of a shot. *)
Lemma attack_fired_spec (action : list Z) :
  action_for buttons action ->
  exists b : bool,
    attack_fired amap action = Some b
    /\ (b = true <-> exists j, dict_get amap "ATTACK" = Some j
                               /\ nth_error action j = Some 1).
Proof.
  intros [Hlen Hbits]. unfold attack_fired.
  destruct (dict_get amap "ATTACK") as [i|] eqn:Ei.
  - destruct (proj1 (proj2 (make_action_map_spec buttons)) _ _ Ei)
      as [_ Hi].
    rewrite <- Hlen in Hi.
    destruct (nth_error action i) as [v|] eqn:Ev;
      [|apply nth_error_None in Ev; lia].
    exists (negb (v =? 0)). split; [reflexivity|].
    rewrite Forall_forall in Hbits.
    destruct (Hbits v (nth_error_In _ _ Ev)) as [-> | ->]; cbn.
    + split; [discriminate|]. intros (j & Hj & Hv). injection Hj as <-.
      rewrite Ev in Hv. discriminate.
    + split; [|reflexivity]. intros _. now exists i.
  - exists false. split; [reflexivity|]. split; [discriminate|].
    intros (j & Hj & _). discriminate.
Qed.

(** Two names with the same index are the same name. *)
Lemma amap_injective (n1 n2 : string) (i : nat) :
  dict_get amap n1 = Some i -> dict_get amap n2 = Some i -> n1 = n2.
Proof.
  intros H1 H2.
  destruct (proj1 (proj2 (make_action_map_spec buttons)) _ _ H1) as [E1 _].
  destruct (proj1 (proj2 (make_action_map_spec buttons)) _ _ H2) as [E2 _].
  congruence.
Qed.

(** The turn of the scripted policy as one conditional press. *)
Lemma turn_as_press (phase_negative : bool) (action : list Z) :
  (if dict_mem amap "TURN_LEFT" && dict_mem amap "TURN_RIGHT"
   then if phase_negative then assign_button amap "TURN_LEFT" action
        else assign_button amap "TURN_RIGHT" action
   else Some action)
  = press amap (if phase_negative then "TURN_LEFT" else "TURN_RIGHT")
          (dict_mem amap "TURN_LEFT" && dict_mem amap "TURN_RIGHT") action.
Proof.
  unfold press.
  destruct (dict_mem amap "TURN_LEFT") eqn:El,
           (dict_mem amap "TURN_RIGHT") eqn:Er, phase_negative;
    cbn [andb]; rewrite ?El, ?Er, ?andb_false_r; reflexivity.
Qed.
End Actions.

(** X11. [make_action_map] and the action of the scripted policy. The
    index of a name is a place of that name among the buttons, and a name
    is in the map exactly when it is a button. The action of a step is
    built without [KeyError] or [IndexError], has one entry for each
    button, each 0 or 1, and its entries 1 are those of ATTACK and
    MOVE_FORWARD and, when both turn buttons are available, of the turn
    button of the phase. So the test before the bookkeeping of a shot,
    ["ATTACK" in amap and action[amap["ATTACK"]]], holds at every step
    exactly when the game has an ATTACK button. *)
Theorem X11_scripted_action_is_well_formed :
  forall (cfg : run_config) (phase_negative : bool),
    (forall name i,
        dict_get (fst (make_action_map (buttons cfg))) name = Some i ->
        nth_error (snd (make_action_map (buttons cfg))) i = Some name)
    /\ (forall name,
           dict_mem (fst (make_action_map (buttons cfg))) name
           = has_button cfg name)
    /\ exists action : list Z,
        scripted_action (fst (make_action_map (buttons cfg)))
                        (snd (make_action_map (buttons cfg))) phase_negative
        = Some action
        /\ action_for (buttons cfg) action
        /\ attack_fired (fst (make_action_map (buttons cfg))) action
           = Some (has_button cfg "ATTACK")
        /\ (forall i,
               nth_error action i = Some 1
               <-> exists name,
                   dict_get (fst (make_action_map (buttons cfg))) name
                   = Some i
                   /\ scripted_press (fst (make_action_map (buttons cfg)))
                                     phase_negative name).
Proof.
  intros cfg phase_negative.
  destruct (make_action_map_spec (buttons cfg)) as (Hnames & Hidx & Hmem).
  split; [intros name i Hi; rewrite Hnames; now apply Hidx|].
  split; [exact Hmem|].
  unfold scripted_action. rewrite Hnames, turn_as_press.
  destruct (empty_action_spec (List.length (buttons cfg)))
    as (Hlen0 & Hbits0 & Hzero).
  destruct (press_spec (buttons cfg)
              (if phase_negative then "TURN_LEFT" else "TURN_RIGHT")
              (dict_mem (fst (make_action_map (buttons cfg))) "TURN_LEFT"
               && dict_mem (fst (make_action_map (buttons cfg))) "TURN_RIGHT")
              (empty_action (List.length (buttons cfg)))
              (conj Hlen0 Hbits0))
    as (a1 & -> & Hok1 & H1).
  destruct (press_spec (buttons cfg) "MOVE_FORWARD" true a1 Hok1)
    as (a2 & -> & Hok2 & H2).
  destruct (press_spec (buttons cfg) "ATTACK" true a2 Hok2)
    as (a3 & -> & Hok3 & H3).
  exists a3. split; [reflexivity|]. split; [exact Hok3|].
  assert (Hone : forall i,
             nth_error a3 i = Some 1
             <-> exists name,
                 dict_get (fst (make_action_map (buttons cfg))) name = Some i
                 /\ scripted_press (fst (make_action_map (buttons cfg)))
                                   phase_negative name).
  { intros i. rewrite H3, H2, H1. unfold scripted_press. split.
    - intros [[[Hz|[Hi Hc]]|[Hi _]]|[Hi _]].
      + now elim (Hzero i).
      + eexists. split; [exact Hi|]. right. right. now split.
      + exists "MOVE_FORWARD". split; [exact Hi|]. right. now left.
      + exists "ATTACK". split; [exact Hi|]. now left.
    - intros (name & Hi & [->|[->|[Hc ->]]]).
      + right. now split.
      + left. right. now split.
      + left. left. right. now split. }
  split; [|exact Hone].
  destruct (attack_fired_spec (buttons cfg) a3 Hok3) as (b & -> & Hb).
  f_equal. unfold has_button. rewrite <- Hmem.
  destruct b.
  - destruct (proj1 Hb eq_refl) as (j & Hj & _).
    unfold dict_mem. now rewrite Hj.
  - unfold dict_mem.
    destruct (dict_get (fst (make_action_map (buttons cfg))) "ATTACK")
      as [j|] eqn:Ej; [|reflexivity].
    apply (proj2 Hb). exists j. split; [reflexivity|].
    apply Hone. exists "ATTACK". split; [exact Ej|]. now left.
Qed.

(** X12. The action of a step of manual play is built without error, has
    one entry for each button, each 0 or 1, and its entries 1 are those of
    the available buttons whose keys are held. A shot is counted, by
    ["ATTACK" in amap and action[amap["ATTACK"]]], exactly when the game
    has an ATTACK button and SPACE or the left mouse button is held: no
    other key can set the entry of ATTACK. *)
Theorem X12_manual_action_follows_the_keys :
  forall (cfg : run_config) (keys : key_state),
    exists action : list Z,
      manual_action (fst (make_action_map (buttons cfg)))
                    (snd (make_action_map (buttons cfg))) keys
      = Some action
      /\ action_for (buttons cfg) action
      /\ attack_fired (fst (make_action_map (buttons cfg))) action
         = Some (has_button cfg "ATTACK"
                 && (K_SPACE keys || mouse_left keys))
      /\ (forall i,
             nth_error action i = Some 1
             <-> exists name,
                 dict_get (fst (make_action_map (buttons cfg))) name = Some i
                 /\ key_held keys name).
Proof.
  intros cfg keys.
  destruct (make_action_map_spec (buttons cfg)) as (Hnames & Hidx & Hmem).
  unfold manual_action. rewrite Hnames.
  destruct (empty_action_spec (List.length (buttons cfg)))
    as (Hlen0 & Hbits0 & Hzero).
  destruct (press_spec (buttons cfg) "MOVE_FORWARD" (K_w keys || K_UP keys)
              _ (conj Hlen0 Hbits0)) as (a1 & -> & Hok1 & H1).
  destruct (press_spec (buttons cfg) "MOVE_BACKWARD"
              (K_s keys || K_DOWN keys) a1 Hok1) as (a2 & -> & Hok2 & H2).
  destruct (press_spec (buttons cfg) "MOVE_LEFT" (K_a keys) a2 Hok2)
    as (a3 & -> & Hok3 & H3).
  destruct (press_spec (buttons cfg) "MOVE_RIGHT" (K_d keys) a3 Hok3)
    as (a4 & -> & Hok4 & H4).
  destruct (press_spec (buttons cfg) "TURN_LEFT" (K_LEFT keys) a4 Hok4)
    as (a5 & -> & Hok5 & H5).
  destruct (press_spec (buttons cfg) "TURN_RIGHT" (K_RIGHT keys) a5 Hok5)
    as (a6 & -> & Hok6 & H6).
  destruct (press_spec (buttons cfg) "ATTACK"
              (K_SPACE keys || mouse_left keys) a6 Hok6)
    as (a7 & -> & Hok7 & H7).
  exists a7. split; [reflexivity|]. split; [exact Hok7|].
  assert (Hone : forall i,
             nth_error a7 i = Some 1
             <-> exists name,
                 dict_get (fst (make_action_map (buttons cfg))) name = Some i
                 /\ key_held keys name).
  { intros i. rewrite H7, H6, H5, H4, H3, H2, H1. unfold key_held. split.
    - intros [[[[[[[Hz|[Hi Hc]]|[Hi Hc]]|[Hi Hc]]|[Hi Hc]]|[Hi Hc]]|[Hi Hc]]
             |[Hi Hc]];
        [now elim (Hzero i)|eexists; split; [exact Hi|tauto]..].
    - intros (name & Hi & Hheld).
      destruct Hheld as [[-> Hc]|[[-> Hc]|[[-> Hc]|[[-> Hc]|[[-> Hc]|[[-> Hc]
                         |[-> Hc]]]]]]]; tauto. }
  split; [|exact Hone].
  destruct (attack_fired_spec (buttons cfg) a7 Hok7) as (b & -> & Hb).
  f_equal. unfold has_button. rewrite <- Hmem. unfold dict_mem.
  destruct b.
  - destruct (proj1 Hb eq_refl) as (j & Hj & Hv). rewrite Hj.
    apply Hone in Hv. destruct Hv as (name & Hname & Hheld).
    pose proof (amap_injective (buttons cfg) _ _ _ Hname Hj) as ->.
    unfold key_held in Hheld.
    destruct Hheld as [[E _]|[[E _]|[[E _]|[[E _]|[[E _]|[[E _]|[_ Hc]]]]]]];
      try discriminate E.
    now rewrite Hc.
  - destruct (dict_get (fst (make_action_map (buttons cfg))) "ATTACK")
      as [j|] eqn:Ej; [|reflexivity].
    cbn [andb].
    destruct (K_SPACE keys || mouse_left keys) eqn:Ek; [|reflexivity].
    apply (proj2 Hb). exists j. split; [reflexivity|].
    apply Hone. exists "ATTACK". split; [exact Ej|].
    unfold key_held. tauto.
Qed.

(** ** What the deltas add up to *)

Lemma tracker_run_snd_cons (t : T0) (h d k : Z) (rs : list (Z * Z * Z)) :
  snd (tracker_run t ((h, d, k) :: rs))
  = snd (tracker_run (store_baseline t h d k) rs).
Proof.
  simpl. now destruct (tracker_run (store_baseline t h d k) rs).
Qed.

Lemma deltas_components (t : T0) (h d k : Z) :
  first_of (deltas t h d k)
  = match prev_health t with
    | None => 0
    | Some ph => Z.max 0 (ph - h)
    end
  /\ second_of (deltas t h d k) = Z.max 0 (d - prev_dmg_out t)
  /\ third_of (deltas t h d k) = Z.max 0 (k - prev_kills t).
Proof. now repeat split. Qed.

Lemma total_cons (f : Z * Z * Z -> Z) (d : Z * Z * Z)
      (ds : list (Z * Z * Z)) :
  total f (d :: ds) = f d + total f ds.
Proof. reflexivity. Qed.

Lemma deltas_nonneg (rs : list (Z * Z * Z)) :
  forall t : T0,
    Forall (fun d => 0 <= first_of d /\ 0 <= second_of d /\ 0 <= third_of d)
           (fst (tracker_run t rs)).
Proof.
  induction rs as [|[[h d] k] rs IH]; intros t; [constructor|].
  rewrite tracker_run_cons. constructor; [|apply IH].
  destruct (deltas_components t h d k) as (-> & -> & ->).
  destruct (prev_health t); lia.
Qed.

(** Damage dealt: the deltas add up to at least the growth of the total,
    and to exactly that when the total never drops. *)
Lemma total_dmg_out (rs : list (Z * Z * Z)) :
  forall t : T0,
    prev_dmg_out (snd (tracker_run t rs)) - prev_dmg_out t
    <= total second_of (fst (tracker_run t rs))
    /\ (Sorted Z.le (prev_dmg_out t :: map second_of rs) ->
        total second_of (fst (tracker_run t rs))
        = prev_dmg_out (snd (tracker_run t rs)) - prev_dmg_out t).
Proof.
  induction rs as [|[[h d] k] rs IH]; intros t.
  - cbn. split; [lia|intros _; lia].
  - rewrite tracker_run_cons, tracker_run_snd_cons, total_cons.
    destruct (deltas_components t h d k) as (_ & -> & _).
    destruct (IH (store_baseline t h d k)) as [Hge Heq].
    cbn [store_baseline prev_dmg_out] in Hge, Heq.
    split; [lia|].
    intros Hs. cbn [map] in Hs. inversion Hs as [|? ? Hs' Hhd]; subst.
    inversion Hhd as [|? ? Hle]; subst.
    change (second_of (h, d, k)) with d in *.
    rewrite (Heq Hs'). lia.
Qed.

Lemma total_kills (rs : list (Z * Z * Z)) :
  forall t : T0,
    prev_kills (snd (tracker_run t rs)) - prev_kills t
    <= total third_of (fst (tracker_run t rs))
    /\ (Sorted Z.le (prev_kills t :: map third_of rs) ->
        total third_of (fst (tracker_run t rs))
        = prev_kills (snd (tracker_run t rs)) - prev_kills t).
Proof.
  induction rs as [|[[h d] k] rs IH]; intros t.
  - cbn. split; [lia|intros _; lia].
  - rewrite tracker_run_cons, tracker_run_snd_cons, total_cons.
    destruct (deltas_components t h d k) as (_ & _ & ->).
    destruct (IH (store_baseline t h d k)) as [Hge Heq].
    cbn [store_baseline prev_kills] in Hge, Heq.
    split; [lia|].
    intros Hs. cbn [map] in Hs. inversion Hs as [|? ? Hs' Hhd]; subst.
    inversion Hhd as [|? ? Hle]; subst.
    change (third_of (h, d, k)) with k in *.
    rewrite (Heq Hs'). lia.
Qed.

(** Damage taken, from a baseline [h0]: at least the health lost, exactly
    that when the health never rises. *)
Lemma total_dmg_in (rs : list (Z * Z * Z)) :
  forall (t : T0) (h0 : Z),
    prev_health t = Some h0 ->
    exists h1,
      prev_health (snd (tracker_run t rs)) = Some h1
      /\ h0 - h1 <= total first_of (fst (tracker_run t rs))
      /\ (Sorted Z.ge (h0 :: map first_of rs) ->
          total first_of (fst (tracker_run t rs)) = h0 - h1).
Proof.
  induction rs as [|[[h d] k] rs IH]; intros t h0 Ht.
  - exists h0. cbn. split; [exact Ht|]. split; [lia|intros _; lia].
  - rewrite tracker_run_cons, tracker_run_snd_cons, total_cons.
    destruct (deltas_components t h d k) as (-> & _ & _). rewrite Ht.
    destruct (IH (store_baseline t h d k) h eq_refl) as (h1 & Hh1 & Hge & Heq).
    exists h1. split; [exact Hh1|]. split; [lia|].
    intros Hs. cbn [map] in Hs. inversion Hs as [|? ? Hs' Hhd]; subst.
    inversion Hhd as [|? ? Hle]; subst.
    change (first_of (h, d, k)) with h in *.
    rewrite (Heq Hs'). lia.
Qed.

(** X13. What the deltas of a sequence of [write_jsonl] calls add up to.
    No delta is negative. The damage-out deltas add up to at least the
    growth of the dealt total from the baseline to the last call, and to
    exactly that growth when the total never drops between calls, as in
    the loops, where it only grows: nothing dealt between two records is
    lost. The same holds for the kills. The damage-in deltas add up to at
    least the health lost from the first reading (or the baseline) to the
    last, and to exactly that when the health never rises; health gained
    in between is not subtracted. *)
Theorem X13_deltas_add_up :
  forall (t : T0) (rs : list (Z * Z * Z)),
    let ds := fst (tracker_run t rs) in
    let t' := snd (tracker_run t rs) in
    Forall (fun d => 0 <= first_of d /\ 0 <= second_of d /\ 0 <= third_of d)
           ds
    /\ prev_dmg_out t' - prev_dmg_out t <= total second_of ds
    /\ (Sorted Z.le (prev_dmg_out t :: map second_of rs) ->
        total second_of ds = prev_dmg_out t' - prev_dmg_out t)
    /\ prev_kills t' - prev_kills t <= total third_of ds
    /\ (Sorted Z.le (prev_kills t :: map third_of rs) ->
        total third_of ds = prev_kills t' - prev_kills t)
    /\ (forall h0,
           start_health t rs = Some h0 ->
           exists h1,
             prev_health t' = Some h1
             /\ h0 - h1 <= total first_of ds
             /\ (Sorted Z.ge (h0 :: map first_of rs) ->
                 total first_of ds = h0 - h1)).
Proof.
  intros t rs ds t'. unfold ds, t'.
  split; [apply deltas_nonneg|].
  split; [apply total_dmg_out|]. split; [apply total_dmg_out|].
  split; [apply total_kills|]. split; [apply total_kills|].
  intros h0 Hstart. unfold start_health in Hstart.
  destruct (prev_health t) as [ph|] eqn:Eph.
  - injection Hstart as <-. now apply total_dmg_in.
  - destruct rs as [|[[h d] k] rs]; [discriminate|].
    injection Hstart as <-. change (first_of (h, d, k)) with h.
    rewrite tracker_run_cons, tracker_run_snd_cons, total_cons.
    destruct (deltas_components t h d k) as (-> & _ & _). rewrite Eph.
    destruct (total_dmg_in rs (store_baseline t h d k) h eq_refl)
      as (h1 & Hh1 & Hge & Heq).
    exists h1. split; [exact Hh1|]. split; [lia|].
    intros Hs. cbn [map] in Hs. inversion Hs as [|? ? Hs' _]; subst.
    change (first_of (h, d, k)) with h in Hs'.
    rewrite (Heq Hs'). lia.
Qed.

(** ** The damage dealt and the counters of ammunition *)

(** The two tables agree: a shot is booked under the name of its slot and
    with the nominal damage of that name, the pistol's for an unknown
    slot. *)
Lemma nominal_of_slot (slot : Z) :
  zdict_get NOMINAL_DMG slot 10
  = nominal_of_name (zdict_get SLOT2NAME slot "PISTOL").
Proof.
  unfold NOMINAL_DMG, SLOT2NAME. cbn [zdict_get].
  repeat (match goal with |- context [?a =? ?b] => destruct (a =? b) end;
          [reflexivity|]).
  reflexivity.
Qed.

Lemma priced_dict_set (a : list (string * Z)) (name : string) :
  priced (dict_set a name (dict_get_default a name 0 + 1))
  = priced a + nominal_of_name name.
Proof.
  unfold dict_get_default.
  induction a as [|[k v] a IH]; cbn [dict_get dict_set].
  - cbn [priced fold_right fst snd]. lia.
  - destruct (String.eqb_spec name k) as [->|Hne].
    + cbn [priced fold_right fst snd]. lia.
    + cbn [priced fold_right fst snd].
      fold (priced (dict_set a name
                      (match dict_get a name with
                       | Some v0 => v0
                       | None => 0
                       end + 1))).
      fold (priced a). rewrite IH. lia.
Qed.

Lemma count_attack_priced (g : game_vars) (s : loop_state) :
  dmg_out_total (count_attack g s) - priced (ammo_used (count_attack g s))
  = dmg_out_total s - priced (ammo_used s).
Proof.
  unfold count_attack. cbn [dmg_out_total ammo_used].
  rewrite priced_dict_set, nominal_of_slot. lia.
Qed.

Section Priced.
Context `{PyFloat}.

(** Both loops keep the damage dealt in step with the counters. *)
Lemma episode_loop_priced (cfg : run_config) (ticks : list tick) :
  forall (s s' : loop_state) (tr tr' : list io_event),
    episode_loop cfg ticks s tr = (inr s', tr') ->
    dmg_out_total s' - priced (ammo_used s')
    = dmg_out_total s - priced (ammo_used s).
Proof.
  induction ticks as [|tk rest IH]; intros s s' tr tr' E.
  - cbn in E. unfold ret in E. now injection E as <- <-.
  - cbn [episode_loop] in E.
    destruct (episode_finished tk);
      [unfold ret in E; now injection E as <- <-|].
    destruct (negb (steps cfg =? 0) && (step s >=? steps cfg));
      [unfold ret in E; now injection E as <- <-|].
    set (s1 := mkLoop (step s + 1) (dmg_out_total s) (ammo_used s)
                      (path_len s) (last_pos s) (t0 s)) in *.
    destruct (track_path_frame (vars tk) s1) as (_ & _ & Hd2 & Ha2).
    assert (H3 : dmg_out_total
                   (if has_button cfg "ATTACK"
                    then count_attack (vars tk) (track_path (vars tk) s1)
                    else track_path (vars tk) s1)
                 - priced (ammo_used
                             (if has_button cfg "ATTACK"
                              then count_attack (vars tk)
                                     (track_path (vars tk) s1)
                              else track_path (vars tk) s1))
                 = dmg_out_total s - priced (ammo_used s)).
    { destruct (has_button cfg "ATTACK");
        rewrite ?count_attack_priced, Hd2, Ha2; reflexivity. }
    set (s3 := if has_button cfg "ATTACK" then _ else _) in *.
    unfold bind in E.
    destruct (record_step cfg meta_episode tk s3 tr) as [[e|s4] tr4] eqn:Er;
      [discriminate E|].
    destruct (record_step_any _ _ _ _ _ _ _ Er)
      as (_ & _ & Hd4 & Ha4 & _).
    rewrite (IH _ _ _ _ E), Hd4, Ha4. exact H3.
Qed.

Lemma manual_loop_priced (cfg : run_config) (ticks : list tick) :
  forall (s s' : loop_state) (tr tr' : list io_event),
    manual_loop cfg ticks s tr = (inr s', tr') ->
    dmg_out_total s' - priced (ammo_used s')
    = dmg_out_total s - priced (ammo_used s).
Proof.
  induction ticks as [|tk rest IH]; intros s s' tr tr' E.
  - cbn in E. unfold ret in E. now injection E as <- <-.
  - cbn [manual_loop] in E.
    destruct (episode_finished tk && negb (auto_restart cfg));
      [unfold ret in E; now injection E as <- <-|].
    destruct (negb (steps cfg =? 0) && (step s >=? steps cfg));
      [unfold ret in E; now injection E as <- <-|].
    destruct (quit_requested tk);
      [unfold ret in E; now injection E as <- <-|].
    set (s1 := mkLoop (step s + 1) (dmg_out_total s) (ammo_used s)
                      (path_len s) (last_pos s) (t0 s)) in *.
    assert (H2 : dmg_out_total
                   (if has_button cfg "ATTACK" && attack_pressed tk
                    then count_attack (vars tk) s1 else s1)
                 - priced (ammo_used
                             (if has_button cfg "ATTACK" && attack_pressed tk
                              then count_attack (vars tk) s1 else s1))
                 = dmg_out_total s - priced (ammo_used s)).
    { destruct (has_button cfg "ATTACK" && attack_pressed tk);
        rewrite ?count_attack_priced; reflexivity. }
    set (s2 := if has_button cfg "ATTACK" && attack_pressed tk then _ else _)
      in *.
    unfold bind in E.
    destruct (record_step cfg meta_manual tk s2 tr) as [[e|s3] tr3] eqn:Er;
      [discriminate E|].
    destruct (record_step_any _ _ _ _ _ _ _ Er)
      as (_ & _ & Hd3 & Ha3 & _).
    rewrite (IH _ _ _ _ E), Hd3, Ha3. exact H2.
Qed.
End Priced.

(** X14. The damage dealt is the counters of ammunition at their nominal
    prices. A shot is booked under the weapon name of the selected slot and
    with the nominal damage of the same slot, and an unknown slot counts as
    a pistol shot in both tables, so in the summary of every scripted run
    [dealt_total] is 10 for each PISTOL, 35 for each SHOTGUN, 12 for each
    CHAINGUN, 100 for each ROCKET, 20 for each PLASMA and 250 for each BFG
    shot of [ammo_used]; the loop of manual play keeps the same balance. *)
Theorem X14_dealt_total_is_the_priced_ammunition :
  forall `{PyFloat} (cfg : run_config) (ticks : list tick) (now : Q)
         (draw : nat) (tr tr' : list io_event) (summary : dict),
    run_episode cfg ticks now draw tr = (inr summary, tr') ->
    (exists (taken : Z) (ammo : list (string * Z)),
        dict_get summary "damage"
        = Some (JObj [("taken_total", JInt taken);
                      ("dealt_total", JInt (priced ammo));
                      ("dealt_by_enemy", JObj [])])
        /\ dict_get summary "resources"
           = Some (JObj [("ammo_used", counters ammo);
                         ("medkits_used", JInt 0);
                         ("armor_picked", JInt 0)])
        /\ priced ammo
           = 10 * dict_get_default ammo "PISTOL" 0
             + 35 * dict_get_default ammo "SHOTGUN" 0
             + 12 * dict_get_default ammo "CHAINGUN" 0
             + 100 * dict_get_default ammo "ROCKET" 0
             + 20 * dict_get_default ammo "PLASMA" 0
             + 250 * dict_get_default ammo "BFG" 0)
    /\ (forall (s s' : loop_state) (tr0 tr1 : list io_event),
           manual_loop cfg ticks s tr0 = (inr s', tr1) ->
           dmg_out_total s' - priced (ammo_used s')
           = dmg_out_total s - priced (ammo_used s)).
Proof.
  intros F cfg ticks now draw tr tr' summary Hrun.
  split; [|apply manual_loop_priced].
  rewrite run_episode_outcome in Hrun. cbv zeta in Hrun.
  destruct (episode_loop cfg ticks _ _) as [[e|s] tr1] eqn:Eloop;
    [discriminate Hrun|].
  injection Hrun as <- _.
  pose proof (episode_loop_priced _ _ _ _ _ _ Eloop) as Hp.
  destruct (episode_loop_any _ _ _ _ _ _ Eloop) as (_ & Hres).
  cbn [loop_result_ok] in Hres.
  destruct Hres as (_ & _ & (_ & _ & _ & _ & Hkeys) & _).
  cbn [loop_start dmg_out_total ammo_used] in Hp, Hkeys.
  change (priced ammo_zero) with 0 in Hp.
  specialize (Hkeys (incl_refl _)).
  exists (random_choice [60; 72; 84; 90; 96] draw), (ammo_used s).
  assert (Ed : dmg_out_total s = priced (ammo_used s)) by lia.
  split; [now rewrite <- Ed|]. split; [reflexivity|].
  destruct (ammo_used s) as [|[k1 v1] [|[k2 v2] [|[k3 v3] [|[k4 v4]
              [|[k5 v5] [|[k6 v6] [|x r]]]]]]]; try discriminate Hkeys.
  injection Hkeys as -> -> -> -> -> ->.
  cbn -[Z.mul Z.add]. lia.
Qed.

Lemma X14_dealt_total_is_the_priced_ammunition_witness :
  exists (summary : dict) (taken : Z) (ammo : list (string * Z)),
    dict_get summary "damage"
    = Some (JObj [("taken_total", JInt taken);
                  ("dealt_total", JInt (priced ammo));
                  ("dealt_by_enemy", JObj [])]).
Proof.
  destruct (@run_episode_shape sample_float quiet_config scenario_ticks 0
              7%nat [] (or_introl eq_refl))
    as (ct & s' & Hrun & _).
  destruct (@X14_dealt_total_is_the_priced_ammunition sample_float
              quiet_config scenario_ticks 0 7%nat [] _ _ Hrun)
    as ((taken & ammo & Hd & _) & _).
  eexists. exists taken, ammo. exact Hd.
Defined.

(** ** The buttons of a run *)

Section Armed.
Context `{PyFloat}.


End Armed.



(** ** The balance of the records *)

Lemma sorted_lower (a b : Z) (l : list Z) :
  a <= b -> Sorted Z.le (b :: l) -> Sorted Z.le (a :: l).
Proof.
  intros Hab Hs. inversion Hs as [|? ? Hl Hhd]; subst.
  constructor; [exact Hl|].
  inversion Hhd as [|c l' Hbc]; subst; constructor. lia.
Qed.

(** The damage-out deltas up to a call add up to the growth of the total
    up to that call, when the total never drops. *)
Lemma total_dmg_out_prefix (rs : list (Z * Z * Z)) :
  forall (t : T0) (i : nat) (r : Z * Z * Z),
    Sorted Z.le (prev_dmg_out t :: map second_of rs) ->
    nth_error rs i = Some r ->
    total second_of (firstn (S i) (fst (tracker_run t rs)))
    = second_of r - prev_dmg_out t.
Proof.
  induction rs as [|[[h d] k] rs IH]; intros t i r Hs Hi;
    [destruct i; discriminate Hi|].
  rewrite tracker_run_cons. cbn [firstn]. rewrite total_cons.
  destruct (deltas_components t h d k) as (_ & -> & _).
  cbn [map] in Hs. inversion Hs as [|? ? Hs' Hhd]; subst.
  inversion Hhd as [|? ? Hle]; subst.
  change (second_of (h, d, k)) with d in *.
  destruct i as [|i].
  - cbn in Hi. injection Hi as <-. cbn [firstn total fold_right].
    change (second_of (h, d, k)) with d. lia.
  - cbn [nth_error] in Hi.
    rewrite (IH (store_baseline t h d k) i r Hs' Hi).
    cbn [store_baseline prev_dmg_out]. lia.
Qed.

Section Balance.
Context `{PyFloat}.

Lemma loop_calls_stop (cfg : run_config) (meta : dict) (ticks : list tick)
      (s s' : loop_state) (tr : list io_event) :
  t0 s' = t0 s -> dmg_out_total s' = dmg_out_total s ->
  loop_calls_spec cfg meta 0 ticks s tr (inr s', tr).
Proof.
  intros Ht Hd. exists [], s'. cbn. rewrite app_nil_r.
  split; [reflexivity|]. split; [reflexivity|]. split; [constructor|].
  split; [repeat constructor|].
  split; [constructor | lia].
Qed.

(** One iteration that records (or not) in the state [s3], followed by a
    run of the rest of the loop. *)
Lemma loop_calls_step (cfg : run_config) (meta : dict) (n : nat)
      (tk : tick) (rest : list tick) (s s3 : loop_state)
      (tr : list io_event) (k : loop_state -> io loop_state) :
  step s3 = step s + 1 ->
  t0 s3 = t0 s ->
  dmg_out_total s <= dmg_out_total s3 ->
  dmg_out_total s3 - priced (ammo_used s3)
  = dmg_out_total s - priced (ammo_used s) ->
  fbin (t0 s) = None \/ frame_clock_ok tk ->
  (forall s4 tr4,
      step s4 = step s3 ->
      dmg_out_total s4 = dmg_out_total s3 -> ammo_used s4 = ammo_used s3 ->
      jsonl (t0 s4) = jsonl (t0 s) -> fbin (t0 s4) = fbin (t0 s) ->
      loop_calls_spec cfg meta n rest s4 tr4 (k s4 tr4)) ->
  loop_calls_spec cfg meta (S n) (tk :: rest) s tr
                  (bind (record_step cfg meta tk s3) k tr).
Proof.
  intros Hstep Ht0 Hle3 Hbal3 Hok Hrest.
  unfold bind. rewrite record_step_spec by (now rewrite Ht0).
  rewrite Ht0, Hstep.
  destruct (cadence_hit (t0_every cfg) (step s + 1)) eqn:Ehit.
  - set (rd := store_baseline (t0 s) (HEALTH (vars tk)) (dmg_out_total s3)
                 (or_default (KILLCOUNT (vars tk)) 0)).
    destruct (Hrest (with_t0 s3 rd)
                (tr ++ line_events (jsonl (t0 s)) meta
                   (call_of tk s3,
                    deltas (t0 s) (HEALTH (vars tk)) (dmg_out_total s3)
                           (or_default (KILLCOUNT (vars tk)) 0))
                    ++ frame_events (fbin (t0 s)) tk)
                eq_refl eq_refl eq_refl eq_refl eq_refl)
      as (ct & s' & Hout & Hsteps & Hmade & Hsorted & Hcalls & Hle).
    exists ((call_of tk s3, tk) :: ct), s'.
    cbn [map fst snd tracker_run call_reading reading call_of c_vars
             c_dmg_out_total c_ammo_used].
    cbn [with_t0 t0 step jsonl fbin store_baseline dmg_out_total ammo_used]
      in Hout, Hsteps, Hmade, Hsorted, Hcalls, Hle.
    fold rd.
    destruct (tracker_run rd (map call_reading (map fst ct))) as [ds t'] eqn:E.
    cbn [fst snd combine flat_map] in *.
    split.
    { rewrite Hout. f_equal. unfold emission_events at 2. cbn [fst snd].
      now rewrite <- !app_assoc. }
    split.
    { cbn [zrange filter c_step call_of]. rewrite Hstep, Ehit. f_equal.
      rewrite Hsteps, Hstep. reflexivity. }
    split.
    { constructor.
      + unfold made_at. cbn [fst snd call_of c_step c_vars c_now].
        rewrite Hstep. repeat split; [lia|].
        replace (step s + 1 - step s - 1) with 0 by lia. reflexivity.
      + rewrite Hstep in Hmade.
        eapply Forall_impl; [|exact Hmade]. intros x. apply made_at_later. }
    split; [constructor; [exact Hsorted | now constructor]|].
    split; [|lia].
    constructor; [cbn [fst call_of c_dmg_out_total c_ammo_used]; lia|].
    eapply Forall_impl; [|exact Hcalls]. cbv beta. intros x [Hx1 Hx2].
    split; [lia | exact Hx2].
  - destruct (Hrest s3 tr eq_refl eq_refl eq_refl (f_equal jsonl Ht0)
                    (f_equal fbin Ht0))
      as (ct & s' & Hout & Hsteps & Hmade & Hsorted & Hcalls & Hle).
    exists ct, s'. rewrite Ht0 in Hout. rewrite Hstep in Hsteps, Hmade.
    split; [exact Hout|].
    split; [cbn [zrange filter]; rewrite Ehit; exact Hsteps|].
    split; [eapply Forall_impl; [|exact Hmade]; intros x; apply made_at_later|].
    split; [exact (sorted_lower _ _ _ Hle3 Hsorted)|].
    split; [|lia].
    eapply Forall_impl; [|exact Hcalls]. cbv beta. intros x [Hx1 Hx2].
    split; [lia | exact Hx2].
Qed.

Lemma episode_loop_calls (cfg : run_config) (ticks : list tick) :
  forall (s : loop_state) (tr : list io_event),
    frames_ok (t0 s) ticks ->
    loop_calls_spec cfg meta_episode
                    (episode_iterations cfg ticks (step s)) ticks s tr
                    (episode_loop cfg ticks s tr).
Proof.
  induction ticks as [|tk rest IH]; intros s tr Hok;
    [now apply loop_calls_stop|].
  cbn [episode_loop episode_iterations].
  destruct (episode_finished tk); [now apply loop_calls_stop|].
  destruct (negb (steps cfg =? 0) && (step s >=? steps cfg));
    [now apply loop_calls_stop|].
  set (s1 := mkLoop (step s + 1) (dmg_out_total s) (ammo_used s)
                    (path_len s) (last_pos s) (t0 s)).
  destruct (track_path_frame (vars tk) s1) as (Hs2 & Ht2 & Hd2 & Ha2).
  destruct (count_attack_bookkeeping (vars tk) (track_path (vars tk) s1))
    as (Cs & Ct & _ & Cd & _).
  pose proof (count_attack_priced (vars tk) (track_path (vars tk) s1))
    as Cp.
  rewrite Hd2 in Cd, Cp. rewrite Ha2 in Cp. rewrite Ht2 in Ct.
  rewrite Hs2 in Cs.
  cbn [s1 step dmg_out_total ammo_used t0] in Cs, Cd, Cp, Ct, Hs2, Ht2, Hd2, Ha2.
  assert (Hs3 : step (if has_button cfg "ATTACK"
                      then count_attack (vars tk) (track_path (vars tk) s1)
                      else track_path (vars tk) s1) = step s + 1)
    by now destruct (has_button cfg "ATTACK").
  apply loop_calls_step; [exact Hs3| | | |exact (frames_ok_head _ _ _ Hok)|].
  - now destruct (has_button cfg "ATTACK").
  - destruct (has_button cfg "ATTACK"); [lia | rewrite Hd2; lia].
  - destruct (has_button cfg "ATTACK"); [exact Cp | now rewrite Hd2, Ha2].
  - intros s4 tr4 Hs4 _ _ _ Hfb. rewrite Hs3 in Hs4. rewrite <- Hs4.
    apply IH. exact (frames_ok_tail _ _ _ _ Hfb Hok).
Qed.

Lemma manual_loop_calls (cfg : run_config) (ticks : list tick) :
  forall (s : loop_state) (tr : list io_event),
    frames_ok (t0 s) ticks ->
    loop_calls_spec cfg meta_manual
                    (manual_iterations cfg ticks (step s)) ticks s tr
                    (manual_loop cfg ticks s tr).
Proof.
  induction ticks as [|tk rest IH]; intros s tr Hok;
    [now apply loop_calls_stop|].
  cbn [manual_loop manual_iterations].
  destruct (episode_finished tk && negb (auto_restart cfg));
    [now apply loop_calls_stop|].
  destruct (negb (steps cfg =? 0) && (step s >=? steps cfg));
    [now apply loop_calls_stop|].
  set (s1 := mkLoop (step s + 1) (dmg_out_total s) (ammo_used s)
                    (path_len s) (last_pos s) (t0 s)).
  destruct (quit_requested tk); [now apply loop_calls_stop|].
  destruct (count_attack_bookkeeping (vars tk) s1) as (Cs & Ct & _ & Cd & _).
  pose proof (count_attack_priced (vars tk) s1) as Cp.
  cbn [s1 step dmg_out_total ammo_used t0] in Cs, Cd, Cp, Ct.
  assert (Hs3 : step (if has_button cfg "ATTACK" && attack_pressed tk
                      then count_attack (vars tk) s1 else s1) = step s + 1)
    by now destruct (has_button cfg "ATTACK" && attack_pressed tk).
  apply loop_calls_step; [exact Hs3| | | |exact (frames_ok_head _ _ _ Hok)|].
  - now destruct (has_button cfg "ATTACK" && attack_pressed tk).
  - destruct (has_button cfg "ATTACK" && attack_pressed tk);
      [lia | cbn; lia].
  - destruct (has_button cfg "ATTACK" && attack_pressed tk);
      [exact Cp | reflexivity].
  - intros s4 tr4 Hs4 _ _ _ Hfb. rewrite Hs3 in Hs4. rewrite <- Hs4.
    apply IH. exact (frames_ok_tail _ _ _ _ Hfb Hok).
Qed.

(** From the calls of a loop started fresh to the balance of the records. *)
Lemma calls_balance (cfg : run_config) (ct : list (call * tick))
      (s' : loop_state) :
  Sorted Z.le (0 :: map c_dmg_out_total (map fst ct)) ->
  Forall (fun x =>
            c_dmg_out_total (fst x) - priced (c_ammo_used (fst x)) = 0 - 0
            /\ c_dmg_out_total (fst x) <= dmg_out_total s') ct ->
  records_balance cfg ct.
Proof.
  intros Hsorted Hcalls. unfold records_balance. cbv zeta. intros i c Hi.
  assert (Hc : c_dmg_out_total c = priced (c_ammo_used c)).
  { rewrite nth_error_map in Hi.
    destruct (nth_error ct i) as [x|] eqn:Ex; [|discriminate Hi].
    cbn in Hi. injection Hi as <-.
    rewrite Forall_forall in Hcalls.
    destruct (Hcalls x (nth_error_In _ _ Ex)) as [Hb _]. lia. }
  split; [exact Hc|].
  rewrite (total_dmg_out_prefix _ _ i (call_reading c)).
  - cbn [prev_dmg_out]. unfold call_reading, reading, second_of.
    cbn [fst snd]. lia.
  - cbn [prev_dmg_out]. rewrite map_map.
    erewrite map_ext; [exact Hsorted|]. reflexivity.
  - now rewrite nth_error_map, Hi.
Qed.
End Balance.

(** X16. The records of a run balance. In a run whose frames can all be
    written, the recorded calls are the ones made at the steps of the
    cadence among the iterations of the loop, each with the readings of
    the tick of its step; the trace is the one of these calls; and for
    every record the damage dealt up to it is the priced ammunition the
    record carries in [resources.ammo_used] (10 for each PISTOL shot, 35
    for each SHOTGUN shot and so on), and this is what the [dmg_out_delta]
    of the records up to and including it add up to: what was dealt
    between two records is in the delta of the later one. This holds for
    scripted runs and for manual play. *)
Theorem X16_records_balance :
  forall `{PyFloat} (cfg : run_config) (ticks : list tick) (now : Q)
         (draw : nat) (tr : list io_event),
    sink_of (fprime_frames cfg) = None \/ Forall frame_clock_ok ticks ->
    (exists (ct : list (call * tick)) (summary : dict),
        run_episode cfg ticks now draw tr
        = (inr summary, tr ++ run_trace cfg meta_episode ct)
        /\ map c_step (map fst ct)
           = filter (cadence_hit (t0_every cfg))
                    (zrange 1 (episode_iterations cfg ticks 0))
        /\ Forall (made_at ticks 0) ct
        /\ records_balance cfg ct)
    /\ (exists (ct : list (call * tick)) (r : Z),
           play_manual cfg ticks tr
           = (inr r, tr ++ run_trace cfg meta_manual ct)
           /\ map c_step (map fst ct)
              = filter (cadence_hit (t0_every cfg))
                       (zrange 1 (manual_iterations cfg ticks 0))
           /\ Forall (made_at ticks 0) ct
           /\ records_balance cfg ct).
Proof.
  intros F cfg ticks now draw tr Hok.
  set (t := mkT0 (sink_of (t0_jsonl cfg)) (sink_of (fprime_frames cfg))
                 None 0 0).
  split.
  - destruct (episode_loop_calls cfg ticks (loop_start t)
                (tr ++ open_events (sink_of (t0_jsonl cfg))
                    ++ open_events (sink_of (fprime_frames cfg))) Hok)
      as (ct & s' & Hout & Hsteps & Hmade & Hsorted & Hcalls & _).
    exists ct. eexists. split; [|split; [exact Hsteps|split; [exact Hmade|]]].
    + rewrite run_episode_outcome. cbv zeta. fold t. rewrite Hout.
      f_equal. unfold run_trace. cbv zeta. fold t.
      cbn [loop_start t0 t jsonl fbin]. now rewrite <- !app_assoc.
    + exact (calls_balance cfg ct s' Hsorted Hcalls).
  - destruct (manual_loop_calls cfg ticks (loop_start t)
                (tr ++ open_events (sink_of (t0_jsonl cfg))
                    ++ open_events (sink_of (fprime_frames cfg))) Hok)
      as (ct & s' & Hout & Hsteps & Hmade & Hsorted & Hcalls & _).
    exists ct. eexists. split; [|split; [exact Hsteps|split; [exact Hmade|]]].
    + rewrite play_manual_outcome. cbv zeta. fold t. rewrite Hout.
      f_equal. unfold run_trace. cbv zeta. fold t.
      cbn [loop_start t0 t jsonl fbin]. now rewrite <- !app_assoc.
    + exact (calls_balance cfg ct s' Hsorted Hcalls).
Qed.

Lemma X16_records_balance_witness :
  let F := sample_float in
  let cfg := mkConfig 0 0 5 (Some "t0.jsonl") None false ["ATTACK"] in
  exists (ct : list (call * tick)) (summary : dict),
    run_episode cfg scenario_ticks 0 7%nat []
    = (inr summary, [] ++ run_trace cfg meta_episode ct)
    /\ map c_step (map fst ct) = [5; 10]
    /\ Forall (made_at scenario_ticks 0) ct
    /\ records_balance cfg ct.
Proof.
  intros F cfg.
  exact (proj1 (@X16_records_balance F cfg scenario_ticks 0 7%nat []
                  (or_introl eq_refl))).
Defined.
